(** * IVF vector index (knowhere/index/vector_index/IndexIVF.cpp)

    A shallow embedding of the IVF adapter of the knowhere vector-index
    layer and the properties of its lifecycle: training, population, search,
    persistence, cloning, device residency and batch graph construction.

    The adapter owns a [std::shared_ptr<faiss::Index>] and forwards to the
    faiss library.  faiss is an external library: its operations are the
    fields of the class [Faiss] below, and every statement is proved for an
    arbitrary implementation of that interface.  The faiss objects live in
    a heap of locations, so that sharing and deep copies are visible. *)

From stdpp Require Import gmap strings list fin_maps countable pretty.
From Stdlib Require Import ZArith Lia.

Open Scope Z_scope.

(* ===================================================================== *)
(** ** Outcomes of a call *)
(* ===================================================================== *)

(** The exceptions the code can raise.  [KNOWHERE_THROW_MSG] raises a
    [KnowhereException] carrying its message; faiss raises its own; the
    json configuration raises on a missing key or a value of the wrong
    kind; [std::vector] raises [std::length_error] on a size beyond its
    [max_size()]. *)
Inductive Exception :=
  | KnowhereException (msg : string)
  | FaissException (msg : string)
  | JsonException (key : string)
  | StdLengthError.

(** Undefined behaviour of the C++ abstract machine, kept apart from
    exceptions: nothing can be said about a run after one of these. *)
Inductive UB :=
  | NullDereference
  | OutOfBounds
  | SignedOverflow
  | Misaligned
  | DanglingPointer.

Inductive Outcome (A : Type) :=
  | Ok (a : A)
  | Throw (e : Exception)
  | Undefined (u : UB).
Arguments Ok {A} a.
Arguments Throw {A} e.
Arguments Undefined {A} u.

(** The error kinds of the specification, as the code raises them. *)
Definition NotTrained : Exception :=
  KnowhereException "index not initialize or trained".
Definition ModelNotTrained : Exception :=
  KnowhereException "indexmodel not initialize or trained".
Definition ResourceUnavailable : Exception :=
  KnowhereException "CopyCpuToGpu Error, can't get gpu_resource".
Definition CorruptData : Exception :=
  KnowhereException "CorruptData".

(* ===================================================================== *)
(** ** Data *)
(* ===================================================================== *)

(** A [float] is carried as its IEEE-754 binary32 bit pattern; the adapter
    never computes with floats, it only moves them. *)
Definition float32 := Z.

Definition byte := Z.

Inductive MetricType := METRIC_INNER_PRODUCT | METRIC_L2.

(** Heap locations of faiss objects. *)
Definition loc := positive.

(** [Config] is a json object; the adapter reads string and integer
    members. *)
Inductive Json :=
  | JString (s : string)
  | JInt (z : Z).
Abbreviation Config := (gmap string Json).

(** Modelled from the spec: the tensor of a vector batch (the accessors of
    [Dataset] and the macro GETTENSOR are declared outside this file): a
    row-major buffer of [shape0] rows by [shape1] float components.  The
    buffer is given as the floats it holds; [raw_data()] is its address as
    a pointer to bytes, so that an offset added to it counts bytes. *)
Record Tensor := {
  shape0 : Z;
  shape1 : Z;
  raw_data : list float32
}.

Inductive Array :=
  | Int64Array (values : list Z)
  | FloatArray (values : list float32).

Record Dataset := {
  array : list Array;
  tensor : list Tensor
}.

Abbreviation Binary := (list byte).
Abbreviation BinarySet := (gmap string Binary).
Abbreviation Graph := (list (list Z)).

(* ===================================================================== *)
(** ** The external collaborators *)
(* ===================================================================== *)

(** The part of faiss the adapter calls.  An [Index] is the value of a
    faiss index object; operations that faiss performs in place return the
    new value, and may raise. *)
Class Faiss := {
  Index : Type;
  GpuResources : Type;
  (** public fields of [faiss::Index] *)
  idx_d : Index → Z;
  idx_ntotal : Index → Z;
  idx_is_trained : Index → bool;
  (** [faiss::IndexFlatL2(d)] and
      [faiss::IndexIVFFlat(quantizer, d, nlist, metric)] *)
  IndexFlatL2 : Z → Index;
  IndexIVFFlat : Index → Z → Z → MetricType → Index;
  (** [index->train(n, x)], [index->add_with_ids(n, x, ids)],
      [index->add(n, x)] *)
  index_train : Index → Z → list float32 → Exception + Index;
  index_add_with_ids : Index → Z → list float32 → list Z → Exception + Index;
  index_add : Index → Z → list float32 → Exception + Index;
  (** [faiss::ivflib::search_with_parameters(index, n, x, k, D, I, params)]
      with [params->nprobe]: the distances and labels it writes *)
  search_with_parameters :
    Index → Z → list float32 → Z → Z → Exception + (list float32 * list Z);
  (** [faiss::write_index] and [faiss::read_index] over a memory buffer *)
  write_index : Index → Binary;
  read_index : Binary → option Index;
  (** [faiss::gpu::index_cpu_to_gpu(resources, device, index)] *)
  index_cpu_to_gpu : GpuResources → Z → Index → Exception + Index
}.

(** The accelerator resource pool [FaissGpuResourceMgr]: [GetRes] hands out
    the resource of a device, or nothing. *)
Class GpuResourceMgr `{Faiss} := {
  Pool : Type;
  GetRes : Pool → Z → option GpuResources * Pool
}.

(** What a run leaves behind for an observer: the calls into the
    collaborators and the result buffers taken from the allocator. *)
Inductive Event :=
  | EvMalloc (bytes : Z)
  | EvNewIndexIVFFlat (d nlist : Z) (metric : MetricType)
  | EvTrain (n : Z) (x : list float32)
  | EvAdd (n : Z)
  | EvSearch (n : Z) (x : list float32) (k nprobe : Z)
  | EvSealImpl
  | EvSerializeImpl
  | EvLoadImpl
  | EvCopyToGpu (device : Z).

Section Model.
Context `{FM : Faiss} `{GM : !GpuResourceMgr}.

(** The state a call runs in. *)
Record World := {
  heap : gmap loc Index;
  pool : Pool;
  trace : list Event
}.

Definition M (A : Type) : Type := World → Outcome A * World.

Definition ret {A} (a : A) : M A := λ σ, (Ok a, σ).
Definition bind {A B} (m : M A) (f : A → M B) : M B :=
  λ σ, match m σ with
       | (Ok a, σ') => f a σ'
       | (Throw e, σ') => (Throw e, σ')
       | (Undefined u, σ') => (Undefined u, σ')
       end.
Definition throw {A} (e : Exception) : M A := λ σ, (Throw e, σ).
Definition undefined {A} (u : UB) : M A := λ σ, (Undefined u, σ).

Definition emit (e : Event) : M unit :=
  λ σ, (Ok tt, {| heap := heap σ; pool := pool σ; trace := trace σ ++ [e] |}).

End Model.

Notation "'let*' p ':=' m 'in' k" := (bind m (λ p, k))
  (at level 10, p pattern, m at level 100, k at level 200).
Notation "m ;;; k" := (bind m (λ _, k))
  (at level 100, right associativity).

Section Primitives.
Context `{FM : Faiss} `{GM : !GpuResourceMgr}.

(** A faiss call that may raise. *)
Definition lift {A} (r : Exception + A) : M A :=
  match r with
  | inl e => throw e
  | inr a => ret a
  end.

(** *** The heap of faiss objects *)

Definition deref (l : loc) : M Index :=
  λ σ, match heap σ !! l with
       | Some ix => (Ok ix, σ)
       | None => (Undefined DanglingPointer, σ)
       end.

Definition store (l : loc) (ix : Index) : M unit :=
  λ σ, (Ok tt, {| heap := <[l := ix]> (heap σ); pool := pool σ;
                  trace := trace σ |}).

(** [new T(...)]: the object is placed at a location not in use.  Cells are
    never reclaimed: releasing the last [shared_ptr] to an object leaves
    its cell behind, unreachable. *)
Definition new (ix : Index) : M loc :=
  λ σ, let l := fresh (dom (heap σ)) in
       (Ok l, {| heap := <[l := ix]> (heap σ); pool := pool σ;
                 trace := trace σ |}).

(** *** Machine integers *)

Definition INT_MAX : Z := 2147483647.
Definition INT_MIN : Z := -2147483648.

(** The value of an expression of type [int]; overflow is undefined. *)
Definition int_arith (z : Z) : M Z :=
  if decide (INT_MIN ≤ z ≤ INT_MAX) then ret z else undefined SignedOverflow.

(** [++i] on an [int]. *)
Definition int_incr (i : Z) : M Z := int_arith (i + 1).

(** The value of an expression of type [int64_t]; overflow is undefined.
    It is applied to the products with the caller's [k].  The offset of a
    batch in the dataset buffer is taken in [Z]: in a run that stays
    within the buffer it is below the number of bytes of the buffer. *)
Definition INT64_MAX : Z := 2 ^ 63 - 1.
Definition INT64_MIN : Z := - 2 ^ 63.

Definition int64_arith (z : Z) : M Z :=
  if decide (INT64_MIN ≤ z ≤ INT64_MAX) then ret z
  else undefined SignedOverflow.

(** Conversions to [size_t] and to [int64_t]. *)
Definition to_size_t (z : Z) : Z := z mod 2 ^ 64.
Definition to_int64 (z : Z) : Z := (z + 2 ^ 63) mod 2 ^ 64 - 2 ^ 63.

(** The sizes of a [float], of an [int64_t] and of a [std::vector]. *)
Definition sizeof_float : Z := 4.
Definition sizeof_int64 : Z := 8.
Definition sizeof_vector : Z := 24.

(** [(float * ) p] for the byte address [p] at offset [off] of a buffer of
    floats: the index of the float it points to. *)
Definition float_index (off : Z) : M Z :=
  if decide (off mod sizeof_float = 0) then ret (off / sizeof_float)
  else undefined Misaligned.

(** *** Buffers and vectors *)

(** Reading [len] floats at [p + off]. *)
Definition read_floats (p : list float32) (off len : Z) : M (list float32) :=
  if decide (0 ≤ off ∧ 0 ≤ len ∧ off + len ≤ Z.of_nat (length p))
  then ret (take (Z.to_nat len) (drop (Z.to_nat off) p))
  else undefined OutOfBounds.

Definition read_ids (p : list Z) (n : Z) : M (list Z) :=
  if decide (0 ≤ n ∧ n ≤ Z.of_nat (length p))
  then ret (take (Z.to_nat n) p)
  else undefined OutOfBounds.

(** A callee writes [out] at the start of the buffer [buf]. *)
Definition write_buf {A} (buf out : list A) : M (list A) :=
  if decide (length out ≤ length buf)%nat
  then ret (out ++ drop (length out) buf)
  else undefined OutOfBounds.

(** [v[i]] and [v[i] = x] of [std::vector]: unchecked. *)
Definition vec_get {A} (v : list A) (i : Z) : M A :=
  if decide (0 ≤ i) then
    match v !! Z.to_nat i with
    | Some x => ret x
    | None => undefined OutOfBounds
    end
  else undefined OutOfBounds.

Definition vec_set {A} (v : list A) (i : Z) (x : A) : M (list A) :=
  if decide (0 ≤ i ∧ i < Z.of_nat (length v))
  then ret (<[Z.to_nat i := x]> v)
  else undefined OutOfBounds.

(** [max_size()] of a vector whose elements take [size] bytes. *)
Definition max_size (size : Z) : Z := INT64_MAX / size.

(** [v.resize(n)] and [std::vector<T> v(n)] for elements of [size] bytes:
    a size beyond [max_size()] is refused, and a negative [n] converts to
    such a size. *)
Definition vector_resize {A} (size : Z) (v : list A) (n : Z) (x : A)
    : M (list A) :=
  if decide (0 ≤ n ≤ max_size size) then ret (resize (Z.to_nat n) x v)
  else throw StdLengthError.

Definition vector_new {A} (size : Z) (n : Z) (x : A) : M (list A) :=
  vector_resize size [] n x.

(** [malloc(bytes)]: a result buffer of [bytes / size] cells. *)
Definition malloc (bytes size : Z) : M (list Z) :=
  emit (EvMalloc bytes);;;
  ret (replicate (Z.to_nat (bytes / size)) 0).

(** *** Configuration *)

(** [config[key]] on a const json object. *)
Definition config_at (config : Config) (key : string) : M Json :=
  match config !! key with
  | Some j => ret j
  | None => throw (JsonException key)
  end.

(** [.as<size_t>()] *)
Definition as_size_t (key : string) (j : Json) : M Z :=
  match j with
  | JInt z => ret (to_size_t z)
  | JString _ => throw (JsonException key)
  end.

(** [.as_string()]: the string itself, or the text of the number. *)
Definition as_string (j : Json) : string :=
  match j with
  | JString s => s
  | JInt z => pretty z
  end.

(** Modelled from the spec: the macro GETTENSOR (declared in
    VectorAdapter.h) binds [p_data], [dim] and [rows] to the buffer and the
    shape of the first tensor of the dataset.  [p_data] is the pointer to
    bytes [raw_data()]: the callers cast it to [float * ] where they hand it
    on. *)
Definition GETTENSOR (dataset : Dataset) : M (list float32 * Z * Z) :=
  match tensor dataset !! 0%nat with
  | Some t => ret (raw_data t, shape1 t, shape0 t)
  | None => undefined OutOfBounds
  end.

End Primitives.

(* ===================================================================== *)
(** ** The adapter *)
(* ===================================================================== *)

(** [FaissBaseIndex] holds the [shared_ptr] to the faiss index; [IVF], the
    model [IVFIndexModel] and the device-resident [GPUIVF] derive from it.
    A default-constructed handle holds the null pointer.

    A method that assigns [index_] returns the handle afterwards.  The
    methods are run by one thread: the [std::lock_guard] on [mutex_] that
    Add, AddWithoutIds, Serialize, Load, set_index_model and Clone take is
    left out. *)
Record IVF := { index_ : option loc }.

Record IVFIndexModel := { model_index_ : option loc }.

(** The name of the blob the index is stored under. *)
Definition blob_name : string := "IVF".

Definition batch_size : Z := 100.

Section Adapter.
Context `{FM : Faiss} `{GM : !GpuResourceMgr}.

Record GPUIVF := {
  gpu_index_ : option loc;
  gpu_id_ : Z;
  res_ : GpuResources
}.

(** [index_->...]: through the pointer held by the handle. *)
Definition get_index (p : option loc) : M Index :=
  match p with
  | Some l => deref l
  | None => undefined NullDereference
  end.

(** [!index_ || !index_->is_trained] *)
Definition not_initialized_or_trained (p : option loc) : M bool :=
  match p with
  | Some l => let* ix := deref l in ret (negb (idx_is_trained ix))
  | None => ret true
  end.

(** [index->train(rows, p_data)]: faiss reads [rows * d] floats. *)
Definition faiss_train (l : loc) (n : Z) (p_data : list float32) : M unit :=
  let* ix := deref l in
  let* x := read_floats p_data 0 (n * idx_d ix) in
  emit (EvTrain n x);;;
  let* ix' := lift (index_train ix n x) in
  store l ix'.

Definition faiss_add_with_ids (l : loc) (n : Z) (p_data : list float32)
    (p_ids : list Z) : M unit :=
  let* ix := deref l in
  let* x := read_floats p_data 0 (n * idx_d ix) in
  let* ids := read_ids p_ids n in
  emit (EvAdd n);;;
  let* ix' := lift (index_add_with_ids ix n x ids) in
  store l ix'.

Definition faiss_add (l : loc) (n : Z) (p_data : list float32) : M unit :=
  let* ix := deref l in
  let* x := read_floats p_data 0 (n * idx_d ix) in
  emit (EvAdd n);;;
  let* ix' := lift (index_add ix n x) in
  store l ix'.

(** [faiss::clone_index(p)]: a deep copy in a new object.  On the null
    pointer every cast of faiss fails and it raises. *)
Definition clone_index (p : option loc) : M loc :=
  match p with
  | Some l => let* ix := deref l in new ix
  | None => throw (FaissException "clone not supported for this type of Index")
  end.

(** *** IVF::Train *)
Definition Train (dataset : Dataset) (config : Config) : M IVFIndexModel :=
  let* j := config_at config "nlist" in
  let* nlist := as_size_t "nlist" j in
  let* j := config_at config "metric_type" in
  let metric_type :=
    if String.eqb (as_string j) "L2" then METRIC_L2
    else METRIC_INNER_PRODUCT in
  let* (p_data, dim, rows) := GETTENSOR dataset in
  let coarse_quantizer := IndexFlatL2 dim in
  emit (EvNewIndexIVFFlat dim nlist metric_type);;;
  let* index := new (IndexIVFFlat coarse_quantizer dim nlist metric_type) in
  faiss_train index rows p_data;;;
  ret {| model_index_ := Some index |}.

(** [GetValues<long>(1, 0)]: the values buffer of an array read as 64-bit
    integers.  The buffer of a float array is read two floats at a time,
    the first one in the low half. *)
Fixpoint floats_as_int64 (v : list float32) : list Z :=
  match v with
  | lo :: hi :: v => to_int64 (lo mod 2 ^ 32 + 2 ^ 32 * (hi mod 2 ^ 32))
                       :: floats_as_int64 v
  | _ => []
  end.

Definition GetValues_long (a : Array) : list Z :=
  match a with
  | Int64Array v => v
  | FloatArray v => floats_as_int64 v
  end.

(** *** IVF::Add *)
Definition Add (this : IVF) (dataset : Dataset) (config : Config) : M unit :=
  let* bad := not_initialized_or_trained (index_ this) in
  if bad then throw NotTrained else
  let* (p_data, dim, rows) := GETTENSOR dataset in
  let* array0 := vec_get (array dataset) 0 in
  let p_ids := GetValues_long array0 in
  match index_ this with
  | Some l => faiss_add_with_ids l rows p_data p_ids
  | None => undefined NullDereference
  end.

(** *** IVF::AddWithoutIds *)
Definition AddWithoutIds (this : IVF) (dataset : Dataset) (config : Config)
    : M unit :=
  let* bad := not_initialized_or_trained (index_ this) in
  if bad then throw NotTrained else
  let* (p_data, dim, rows) := GETTENSOR dataset in
  match index_ this with
  | Some l => faiss_add l rows p_data
  | None => undefined NullDereference
  end.

(** Modelled from the spec: SealImpl of the base class (FaissBaseIndex,
    outside this file): a no-op extension point. *)
Definition SealImpl (this : IVF) : M unit := emit EvSealImpl.

(** Modelled from the spec: SerializeImpl of the base class (FaissBaseIndex,
    outside this file): encodes the whole index state into a named blob. *)
Definition SerializeImpl (p : option loc) : M BinarySet :=
  let* ix := get_index p in
  emit EvSerializeImpl;;;
  ret {[ blob_name := write_index ix ]}.

(** Modelled from the spec: LoadImpl of the base class (FaissBaseIndex,
    outside this file): rebuilds the index state from the blob into a new
    object and makes the handle point to it; a missing or malformed blob is
    rejected with CorruptData. *)
Definition LoadImpl (index_binary : BinarySet) : M (option loc) :=
  emit EvLoadImpl;;;
  match index_binary !! blob_name with
  | None => throw CorruptData
  | Some b =>
      match read_index b with
      | None => throw CorruptData
      | Some ix => let* l := new ix in ret (Some l)
      end
  end.

(** *** IVF::Seal *)
Definition Seal (this : IVF) : M unit :=
  let* bad := not_initialized_or_trained (index_ this) in
  if bad then throw NotTrained else
  SealImpl this.

(** *** IVF::Serialize *)
Definition Serialize (this : IVF) : M BinarySet :=
  let* bad := not_initialized_or_trained (index_ this) in
  if bad then throw NotTrained else
  Seal this;;;
  SerializeImpl (index_ this).

(** *** IVF::Load: the handle afterwards. *)
Definition Load (this : IVF) (index_binary : BinarySet) : M IVF :=
  let* p := LoadImpl index_binary in
  ret {| index_ := p |}.

(** *** IVF::GenParams *)
Definition GenParams (config : Config) : M Z :=
  match config !! "nprobe" with
  | Some j => as_size_t "nprobe" j
  | None => ret 1
  end.

(** *** IVF::search_impl: the two output buffers afterwards.  The query
    pointer points to the float [off] of the buffer [data]. *)
Definition search_impl (this : IVF) (n : Z) (data : list float32) (off : Z)
    (k : Z) (distances : list float32) (labels : list Z) (cfg : Config)
    : M (list float32 * list Z) :=
  let* nprobe := GenParams cfg in
  let* ix := get_index (index_ this) in
  let* x := read_floats data off (n * idx_d ix) in
  emit (EvSearch n x k nprobe);;;
  let* (dis, lab) := lift (search_with_parameters ix n x k nprobe) in
  let* distances := write_buf distances dis in
  let* labels := write_buf labels lab in
  ret (distances, labels).

(** *** IVF::Search *)
Definition Search (this : IVF) (dataset : Dataset) (config : Config)
    : M Dataset :=
  let* bad := not_initialized_or_trained (index_ this) in
  if bad then throw NotTrained else
  let* j := config_at config "k" in
  let* k := as_size_t "k" j in
  let* (p_data, dim, rows) := GETTENSOR dataset in
  let elems := to_size_t (rows * k) in
  let* res_ids := malloc (to_size_t (8 * elems)) 8 in
  let* res_dis := malloc (to_size_t (4 * elems)) 4 in
  let* (res_dis, res_ids) :=
    search_impl this rows p_data 0 (to_int64 k) res_dis res_ids config in
  let ids := Int64Array (take (Z.to_nat elems) res_ids) in
  let dists := FloatArray (take (Z.to_nat elems) res_dis) in
  ret {| array := [ids; dists]; tensor := [] |}.

(** *** IVF::set_index_model: the handle afterwards. *)
Definition set_index_model (this : IVF) (model : IVFIndexModel) : M IVF :=
  let* l := clone_index (model_index_ model) in
  ret {| index_ := Some l |}.

(** *** IVF::Count and IVF::Dimension *)
Definition Count (this : IVF) : M Z :=
  let* ix := get_index (index_ this) in ret (idx_ntotal ix).

Definition Dimension (this : IVF) : M Z :=
  let* ix := get_index (index_ this) in ret (idx_d ix).

(** *** IVF::Clone_impl and IVF::Clone *)
Definition Clone_impl (index : loc) : M IVF :=
  ret {| index_ := Some index |}.

Definition Clone (this : IVF) : M IVF :=
  let* new_index := clone_index (index_ this) in
  Clone_impl new_index.

(** *** IVF::CopyCpuToGpu *)
Definition get_res (device_id : Z) : M (option GpuResources) :=
  λ σ, let '(r, p) := GetRes (pool σ) device_id in
       (Ok r, {| heap := heap σ; pool := p; trace := trace σ |}).

Definition CopyCpuToGpu (this : IVF) (device_id : Z) (config : Config)
    : M GPUIVF :=
  let* r := get_res device_id in
  match r with
  | Some res =>
      let* ix := get_index (index_ this) in
      emit (EvCopyToGpu device_id);;;
      let* gpu_index := lift (index_cpu_to_gpu res device_id ix) in
      let* device_index := new gpu_index in
      ret {| gpu_index_ := Some device_index; gpu_id_ := device_id;
             res_ := res |}
  | None => throw ResourceUnavailable
  end.

(** *** IVF::GenGraph *)

(** The innermost loop, [for (int m = 0; m < k && tmp < k * b_size;
    ++m, ++tmp)]: the node and [tmp] afterwards.  It runs at most [k]
    times, which bounds [fuel]. *)
Fixpoint copy_row (fuel : nat) (k lim : Z) (res : list Z) (m tmp : Z)
    (node : list Z) : M (list Z * Z) :=
  match fuel with
  | O => ret (node, tmp)
  | S fuel =>
      if decide (m < k ∧ tmp < lim) then
        let* v := vec_get res tmp in
        let* node := vec_set node m v in
        let* m := int_incr m in
        let* tmp := int_incr tmp in
        copy_row fuel k lim res m tmp node
      else ret (node, tmp)
  end.

(** The loop over the rows of one batch, [for (int j = 0; j < b_size;
    ++j)]: the graph afterwards.  It runs at most [b_size] times. *)
Fixpoint fill_nodes (fuel : nat) (k b_size : Z) (res : list Z) (i j tmp : Z)
    (graph : Graph) : M Graph :=
  match fuel with
  | O => ret graph
  | S fuel =>
      if decide (j < b_size) then
        let* p := int_arith (batch_size * i) in
        let* idx := int_arith (p + j) in
        let* node := vec_get graph idx in
        let* node := vector_resize sizeof_int64 node k 0 in
        let* (node, tmp) :=
          copy_row (Z.to_nat k) k (k * b_size) res 0 tmp node in
        let* graph := vec_set graph idx node in
        let* j := int_incr j in
        fill_nodes fuel k b_size res i j tmp graph
      else ret graph
  end.

(** The loop over the batches, [for (int i = 0; i < total_search_count;
    ++i)]: the graph afterwards.  It runs at most [total_search_count]
    times.  [xq] is [p_data + batch_size * dim * i] on the pointer to bytes,
    cast to [float * ] where it is handed to the search. *)
Fixpoint search_batches (fuel : nat) (this : IVF) (k : Z) (config : Config)
    (p_data : list float32) (dim tail_batch_size total_search_count : Z)
    (i : Z) (res_dis : list float32) (res_vec graph : Graph) : M Graph :=
  match fuel with
  | O => ret graph
  | S fuel =>
      if decide (i < total_search_count) then
        let b_size :=
          if decide (i = total_search_count - 1 ∧ tail_batch_size ≠ 0)
          then tail_batch_size else batch_size in
        let* res := vec_get res_vec i in
        let* n_res := int64_arith (k * b_size) in
        let* res := vector_resize sizeof_int64 res n_res 0 in
        let xq := batch_size * dim * i in
        let* fq := float_index xq in
        let* (res_dis, res) :=
          search_impl this b_size p_data fq k res_dis res config in
        let* res_vec := vec_set res_vec i res in
        let* graph := fill_nodes (Z.to_nat b_size) k b_size res i 0 0 graph in
        let* i := int_incr i in
        search_batches fuel this k config p_data dim tail_batch_size
          total_search_count i res_dis res_vec graph
      else ret graph
  end.

(** [graph] is passed by reference: the graph afterwards. *)
Definition GenGraph (this : IVF) (k : Z) (graph : Graph) (dataset : Dataset)
    (config : Config) : M Graph :=
  let* (p_data, dim, rows) := GETTENSOR dataset in
  let* ntotal := Count this in
  let tail_batch_size := Z.rem ntotal batch_size in
  let batch_search_count := Z.quot ntotal batch_size in
  let total_search_count :=
    if decide (tail_batch_size = 0) then batch_search_count
    else batch_search_count + 1 in
  let* n_dis := int64_arith (k * batch_size) in
  let* res_dis := vector_new sizeof_float n_dis 0 in
  let* graph := vector_resize sizeof_vector graph ntotal [] in
  let* res_vec := vector_new sizeof_vector total_search_count [] in
  search_batches (Z.to_nat total_search_count) this k config p_data dim
    tail_batch_size total_search_count 0 res_dis res_vec graph.

(** *** IVFIndexModel *)
Definition Model_Serialize (this : IVFIndexModel) : M BinarySet :=
  let* bad := not_initialized_or_trained (model_index_ this) in
  if bad then throw ModelNotTrained else
  SerializeImpl (model_index_ this).

Definition Model_Load (this : IVFIndexModel) (binary_set : BinarySet)
    : M IVFIndexModel :=
  let* p := LoadImpl binary_set in
  ret {| model_index_ := p |}.

Definition Model_SealImpl (this : IVFIndexModel) : M unit := ret tt.

End Adapter.

(* ===================================================================== *)
(** ** Observations *)
(* ===================================================================== *)

(** What the statements below speak about: the state of a handle in a
    world, and what a trace shows. *)

Definition allocations (t : list Event) : list Z :=
  t ≫= λ e, match e with EvMalloc b => [b] | _ => [] end.

Definition training_calls (t : list Event) : list Z :=
  t ≫= λ e, match e with EvTrain n _ => [n] | _ => [] end.

(** The batch size of every call of the search engine, in order. *)
Definition batch_sizes (t : list Event) : list Z :=
  t ≫= λ e, match e with EvSearch n _ _ _ => [n] | _ => [] end.

(** The floats the search engine was handed, in order. *)
Definition floats_read (t : list Event) : list float32 :=
  t ≫= λ e, match e with EvSearch _ x _ _ => x | _ => [] end.

(** The number of batches of [batch_size] that cover [n] vectors. *)
Definition batch_count (n : Z) : Z := (n + (batch_size - 1)) / batch_size.

(** The batch sizes that cover [n] vectors: full batches, then the
    remainder if there is one. *)
Definition batches_of (n : Z) : list Z :=
  replicate (Z.to_nat (n / batch_size)) batch_size
  ++ (if decide (n mod batch_size = 0) then [] else [n mod batch_size]).

(** The size of batch [i] of [n] vectors. *)
Definition batch_len (n i : Z) : Z := Z.min batch_size (n - batch_size * i).

(** The float at which batch [i] starts: the byte offset
    [batch_size * dim * i] as an index of floats. *)
Definition batch_start (dim i : Z) : Z :=
  batch_size * dim * i / sizeof_float.

(** The calls of the search engine for the batches [i], [i+1], ... ([cnt]
    of them) of [n] vectors of width [d], batch [i] taken at
    [batch_start dim i] in [p_data]. *)
Fixpoint search_events (p_data : list float32) (dim d n k nprobe : Z)
    (i : Z) (cnt : nat) : list Event :=
  match cnt with
  | O => []
  | S cnt =>
      EvSearch (batch_len n i)
        (take (Z.to_nat (batch_len n i * d))
           (drop (Z.to_nat (batch_start dim i)) p_data))
        k nprobe
      :: search_events p_data dim d n k nprobe (i + 1) cnt
  end.

(** The probe count a configuration gives, when it gives one. *)
Definition nprobe_of (config : Config) : option Z :=
  match config !! "nprobe" with
  | None => Some 1
  | Some (JInt z) => Some (to_size_t z)
  | Some (JString _) => None
  end.

(** Batch [i] of [n] vectors lies within the dataset buffer. *)
Definition fits (p_data : list float32) (dim d n i : Z) : Prop :=
  batch_start dim i + batch_len n i * d ≤ Z.of_nat (length p_data).

Section Observations.
Context `{FM : Faiss} `{GM : !GpuResourceMgr}.

(** The handle points to an index object of value [ix]. *)
Definition points_to (σ : World) (this : IVF) (ix : Index) : Prop :=
  ∃ l, index_ this = Some l ∧ heap σ !! l = Some ix.

Definition trained (σ : World) (this : IVF) : Prop :=
  ∃ ix, points_to σ this ix ∧ idx_is_trained ix = true.

(** Not initialized (the null pointer) or not trained. *)
Definition untrained (σ : World) (this : IVF) : Prop :=
  index_ this = None
  ∨ ∃ ix, points_to σ this ix ∧ idx_is_trained ix = false.

(** The computation [m] keeps the object at [l] as it is. *)
Definition keeps {A} (l : loc) (m : M A) : Prop :=
  ∀ σ ix, heap σ !! l = Some ix → heap (m σ).2 !! l = Some ix.

(** The search engine answers every batch with [k] results per query. *)
Definition search_contract (ix : Index) (k nprobe : Z) : Prop :=
  ∀ n x, 0 ≤ n →
    ∃ D L, search_with_parameters ix n x k nprobe = inr (D, L)
      ∧ length D = Z.to_nat (n * k) ∧ length L = Z.to_nat (n * k).

(** The world after more events. *)
Definition with_trace (σ : World) (t : list Event) : World :=
  {| heap := heap σ; pool := pool σ; trace := trace σ ++ t |}.

Definition logged (σ : World) (e : Event) : World := with_trace σ [e].

(** The mutations of an index state. *)
Inductive Mutation :=
  | MAdd (dataset : Dataset) (config : Config)
  | MAddWithoutIds (dataset : Dataset) (config : Config)
  | MLoad (index_binary : BinarySet).

Definition mutate (this : IVF) (m : Mutation) : M IVF :=
  match m with
  | MAdd dataset config => Add this dataset config;;; ret this
  | MAddWithoutIds dataset config => AddWithoutIds this dataset config;;; ret this
  | MLoad index_binary => Load this index_binary
  end.

(** A sequence of mutations of one handle by a caller that catches the
    exceptions; nothing is said once the behaviour is undefined. *)
Fixpoint mutations (this : IVF) (ms : list Mutation) (σ : World)
    : option (IVF * World) :=
  match ms with
  | [] => Some (this, σ)
  | m :: ms =>
      match mutate this m σ with
      | (Ok this', σ') => mutations this' ms σ'
      | (Throw _, σ') => mutations this ms σ'
      | (Undefined _, _) => None
      end
  end.

(** Train once the metric has been chosen. *)
Definition train_with (metric_type : MetricType) (dataset : Dataset)
    (config : Config) : M IVFIndexModel :=
  let* j := config_at config "nlist" in
  let* nlist := as_size_t "nlist" j in
  let* (p_data, dim, rows) := GETTENSOR dataset in
  emit (EvNewIndexIVFFlat dim nlist metric_type);;;
  let* index := new (IndexIVFFlat (IndexFlatL2 dim) dim nlist metric_type) in
  faiss_train index rows p_data;;;
  ret {| model_index_ := Some index |}.

(** A run that was rejected by the adapter before the quantizer was
    trained: it raised a knowhere exception and made no training call. *)
Definition rejected_before_training (σ : World) (r : Outcome IVFIndexModel * World)
    : Prop :=
  (∃ msg, r.1 = Throw (KnowhereException msg))
  ∧ training_calls (trace r.2) = training_calls (trace σ).

(** A run of GenGraph whose graph has one entry of length [k] per row of
    the dataset, from one search per batch of the dataset. *)
Definition graph_of_dataset (σ : World) (k : Z) (dataset : Dataset)
    (r : Outcome Graph * World) : Prop :=
  ∃ t g, tensor dataset !! 0%nat = Some t
    ∧ r.1 = Ok g
    ∧ Z.of_nat (length g) = shape0 t
    ∧ Forall (λ node, Z.of_nat (length node) = k) g
    ∧ batch_sizes (drop (length (trace σ)) (trace r.2)) = batches_of (shape0 t).

(** The computation leaves every index object and the pool as they are,
    whatever its outcome. *)
Definition read_only {A} (m : M A) : Prop :=
  ∀ σ, heap (m σ).2 = heap σ ∧ pool (m σ).2 = pool σ.

(** Row [j] of a buffer of result rows of [k] labels each. *)
Definition result_row (k : Z) (labels : list Z) (j : Z) : list Z :=
  take (Z.to_nat k) (drop (Z.to_nat (j * k)) labels).

(** The queries of batch [i] of [n] vectors, as the search engine is
    handed them, and the labels it answers with. *)
Definition batch_queries (ix : Index) (p_data : list float32) (dim n i : Z)
    : list float32 :=
  take (Z.to_nat (batch_len n i * idx_d ix))
    (drop (Z.to_nat (batch_start dim i)) p_data).

Definition batch_labels (ix : Index) (p_data : list float32)
    (dim k nprobe n i : Z) : list Z :=
  match search_with_parameters ix (batch_len n i)
          (batch_queries ix p_data dim n i) k nprobe with
  | inr (_, labels) => labels
  | inl _ => []
  end.

(** The sum of a list of sizes. *)
Definition total_size (l : list Z) : Z := foldr Z.add 0 l.

(** A dataset with the stated width of its first tensor replaced. *)
Definition with_width (dataset : Dataset) (w : Z) : Dataset :=
  {| array := array dataset;
     tensor := match tensor dataset with
               | t :: ts => {| shape0 := shape0 t; shape1 := w;
                               raw_data := raw_data t |} :: ts
               | [] => []
               end |}.

End Observations.

(* ===================================================================== *)
(** ** A reference implementation of the collaborators *)
(* ===================================================================== *)

(** A small exhaustive index under the discrete metric, used to run the
    adapter on concrete inputs.  It keeps the (id, vector) pairs in
    insertion order. *)
Module Ref.

Record RefIndex := {
  ref_d : Z;
  ref_nlist : Z;
  ref_metric : MetricType;
  ref_trained : bool;
  ref_entries : list (Z * list float32)
}.

Definition set_trained (ix : RefIndex) : RefIndex :=
  {| ref_d := ref_d ix; ref_nlist := ref_nlist ix;
     ref_metric := ref_metric ix; ref_trained := true;
     ref_entries := ref_entries ix |}.

Definition append (ix : RefIndex) (es : list (Z * list float32)) : RefIndex :=
  {| ref_d := ref_d ix; ref_nlist := ref_nlist ix;
     ref_metric := ref_metric ix; ref_trained := ref_trained ix;
     ref_entries := ref_entries ix ++ es |}.

(** The rows of a row-major buffer. *)
Fixpoint rows_of (n d : nat) (x : list float32) : list (list float32) :=
  match n with
  | O => []
  | S n => take d x :: rows_of n d (drop d x)
  end.

Definition flat (d : Z) : RefIndex :=
  {| ref_d := d; ref_nlist := 0; ref_metric := METRIC_L2;
     ref_trained := true; ref_entries := [] |}.

Definition ivf_flat (q : RefIndex) (d nlist : Z) (m : MetricType) : RefIndex :=
  {| ref_d := d; ref_nlist := nlist; ref_metric := m;
     ref_trained := bool_decide (nlist = 0); ref_entries := [] |}.

Definition train (ix : RefIndex) (n : Z) (x : list float32)
    : Exception + RefIndex :=
  if decide (n < ref_nlist ix)
  then inl (FaissException "fewer training points than clusters")
  else inr (set_trained ix).

Definition add_with_ids (ix : RefIndex) (n : Z) (x : list float32)
    (ids : list Z) : Exception + RefIndex :=
  if ref_trained ix
  then inr (append ix (zip ids (rows_of (Z.to_nat n) (Z.to_nat (ref_d ix)) x)))
  else inl (FaissException "index is not trained").

Definition add (ix : RefIndex) (n : Z) (x : list float32)
    : Exception + RefIndex :=
  add_with_ids ix n x (seqZ (Z.of_nat (length (ref_entries ix))) n).

(** Bit patterns of 0.0f, 1.0f and +infinity. *)
Definition f_zero : float32 := 0.
Definition f_one : float32 := 1065353216.
Definition f_inf : float32 := 2139095040.

(** One result row: the exact matches first, then the others, in insertion
    order; [k] entries, padded with the sentinel. *)
Definition search_row (ix : RefIndex) (k : nat) (q : list float32)
    : list (float32 * Z) :=
  let hit := filter (λ e, e.2 = q) (ref_entries ix) in
  let miss := filter (λ e, e.2 ≠ q) (ref_entries ix) in
  resize k (f_inf, -1)
    (((λ e, (f_zero, e.1)) <$> hit) ++ ((λ e, (f_one, e.1)) <$> miss)).

Definition search (ix : RefIndex) (n : Z) (x : list float32) (k nprobe : Z)
    : Exception + (list float32 * list Z) :=
  let rows :=
    rows_of (Z.to_nat n) (Z.to_nat (ref_d ix)) x
      ≫= search_row ix (Z.to_nat k) in
  inr (fst <$> rows, snd <$> rows).

(** The codec: the index as a tuple, the tuple as a number, the number as
    its binary digits, one per byte. *)
Definition to_tuple (ix : RefIndex)
    : Z * Z * bool * bool * list (Z * list float32) :=
  (ref_d ix, ref_nlist ix,
   match ref_metric ix with METRIC_L2 => true | _ => false end,
   ref_trained ix, ref_entries ix).

Definition of_tuple (t : Z * Z * bool * bool * list (Z * list float32))
    : RefIndex :=
  let '(d, nlist, m, tr, es) := t in
  {| ref_d := d; ref_nlist := nlist;
     ref_metric := if m : bool then METRIC_L2 else METRIC_INNER_PRODUCT;
     ref_trained := tr; ref_entries := es |}.

Fixpoint digits (p : positive) : Binary :=
  match p with
  | xH => []
  | xO p => 48 :: digits p
  | xI p => 49 :: digits p
  end.

Fixpoint number (b : Binary) : option positive :=
  match b with
  | [] => Some xH
  | c :: b =>
      match number b with
      | Some p =>
          if decide (c = 48) then Some (xO p)
          else if decide (c = 49) then Some (xI p)
          else None
      | None => None
      end
  end.

Definition write (ix : RefIndex) : Binary := digits (encode (to_tuple ix)).

Definition read (b : Binary) : option RefIndex :=
  match number b with
  | Some p => of_tuple <$> decode p
  | None => None
  end.

Definition faiss : Faiss := {|
  Index := RefIndex;
  GpuResources := Z;
  idx_d := ref_d;
  idx_ntotal := λ ix, Z.of_nat (length (ref_entries ix));
  idx_is_trained := ref_trained;
  IndexFlatL2 := flat;
  IndexIVFFlat := ivf_flat;
  index_train := train;
  index_add_with_ids := add_with_ids;
  index_add := add;
  search_with_parameters := search;
  write_index := write;
  read_index := read;
  index_cpu_to_gpu := λ res dev ix, inr ix
|}.

(** The pool: the idle resource of each device. *)
Definition mgr : @GpuResourceMgr faiss := {|
  Pool := gmap Z Z;
  GetRes := λ p d, (p !! d, delete d p)
|}.

Definition world (h : gmap loc (@Index faiss)) : @World faiss mgr :=
  {| heap := h; pool := ∅; trace := [] |}.

(** A trained two-dimensional index holding the vectors (1,2) and (3,4)
    under the ids 10 and 11. *)
Definition ix2 : RefIndex :=
  {| ref_d := 2; ref_nlist := 1; ref_metric := METRIC_L2;
     ref_trained := true; ref_entries := [(10, [1; 2]); (11, [3; 4])] |}.

Definition batch (rows dim : Z) (x : list float32) (ids : list Z) : Dataset :=
  {| array := [Int64Array ids];
     tensor := [{| shape0 := rows; shape1 := dim; raw_data := x |}] |}.

(** Handles, worlds and inputs the properties are run on. *)
Definition null_handle : IVF := {| index_ := None |}.
Definition handle1 : IVF := {| index_ := Some 1%positive |}.
Definition world0 : @World faiss mgr := world ∅.
Definition world1 : @World faiss mgr := world {[ 1%positive := ix2 ]}.

Definition query : Dataset := batch 1 2 [3; 4] [].
Definition rows0 : Dataset := batch 0 2 [] [].
Definition rows1 : Dataset := batch 1 2 [1; 2] [10].
Definition rows2 : Dataset := batch 2 2 [1; 2; 3; 4] [10; 11].
Definition rows3 : Dataset := batch 3 2 [1; 2; 3; 4; 5; 6] [10; 11; 12].

Definition search_config : Config := {[ "k" := JInt 2 ]}.
Definition train_config : Config :=
  <[ "nlist" := JInt 1 ]> {[ "metric_type" := JString "L2" ]}.
Definition cosine_config : Config :=
  <[ "nlist" := JInt 1 ]> {[ "metric_type" := JString "cosine" ]}.

(** An index object that has not been trained, a world that holds it, and
    a world whose pool has a resource for device 0. *)
Definition ix_raw : RefIndex := ivf_flat (flat 2) 2 4 METRIC_L2.
Definition handle2 : IVF := {| index_ := Some 2%positive |}.
Definition model1 : IVFIndexModel := {| model_index_ := Some 1%positive |}.
Definition model2 : IVFIndexModel := {| model_index_ := Some 2%positive |}.
Definition world2 : @World faiss mgr :=
  world (<[ 2%positive := ix_raw ]> {[ 1%positive := ix2 ]}).
Definition world_gpu : @World faiss mgr :=
  {| heap := {[ 1%positive := ix2 ]}; pool := {[ 0 := 5 ]}; trace := [] |}.

(** An index of two vectors that holds nothing yet. *)
Definition ix0 : RefIndex :=
  {| ref_d := 2; ref_nlist := 1; ref_metric := METRIC_L2;
     ref_trained := true; ref_entries := [] |}.
Definition world_empty_index : @World faiss mgr :=
  world {[ 1%positive := ix0 ]}.

Definition no_ids : Dataset :=
  {| array := [];
     tensor := [{| shape0 := 2; shape1 := 2; raw_data := [1; 2; 3; 4] |}] |}.
Definition short_query : Dataset := batch 2 2 [3; 4] [].

(** A trained one-dimensional index holding the vectors (0), (1), ...,
    (100) under the ids 0 to 100, a dataset of these 101 vectors and a
    dataset of the first 100 of them. *)
Definition ix101 : RefIndex :=
  {| ref_d := 1; ref_nlist := 1; ref_metric := METRIC_L2;
     ref_trained := true;
     ref_entries := (λ j, (j, [j])) <$> seqZ 0 101 |}.
Definition world101 : @World faiss mgr := world {[ 1%positive := ix101 ]}.
Definition rows101 : Dataset := batch 101 1 (seqZ 0 101) (seqZ 0 101).
Definition rows100 : Dataset := batch 100 1 (seqZ 0 100) (seqZ 0 100).

End Ref.

(* ===================================================================== *)
(** ** Properties *)
(* ===================================================================== *)

Section Properties.
Context `{FM : Faiss} `{GM : !GpuResourceMgr}.

Implicit Types (σ : World) (this : IVF) (ix : Index).

(** *** Running the monad *)

Lemma bind_Ok {A B} (m : M A) (f : A → M B) σ a σ' :
  m σ = (Ok a, σ') → bind m f σ = f a σ'.
Proof. unfold bind. by intros ->. Qed.

Lemma bind_Throw {A B} (m : M A) (f : A → M B) σ e σ' :
  m σ = (Throw e, σ') → bind m f σ = (Throw e, σ').
Proof. unfold bind. by intros ->. Qed.

Lemma bind_Undefined {A B} (m : M A) (f : A → M B) σ u σ' :
  m σ = (Undefined u, σ') → bind m f σ = (Undefined u, σ').
Proof. unfold bind. by intros ->. Qed.

Lemma world_eta σ :
  {| heap := heap σ; pool := pool σ; trace := trace σ |} = σ.
Proof. by destruct σ. Qed.

(** *** The guard of Add, AddWithoutIds, Serialize, Search and Seal *)

Lemma guard_untrained σ this :
  untrained σ this → not_initialized_or_trained (index_ this) σ = (Ok true, σ).
Proof.
  intros [-> | (ix & (l & -> & Hl) & Hix)]; [done|].
  cbn. unfold bind, deref. by rewrite Hl, Hix.
Qed.

Lemma guard_points_to σ this ix :
  points_to σ this ix →
  not_initialized_or_trained (index_ this) σ = (Ok (negb (idx_is_trained ix)), σ).
Proof.
  intros (l & -> & Hl). cbn. unfold bind, deref. by rewrite Hl.
Qed.

Lemma get_index_points_to σ this ix :
  points_to σ this ix → get_index (index_ this) σ = (Ok ix, σ).
Proof. intros (l & -> & Hl). cbn. unfold deref. by rewrite Hl. Qed.

Lemma Search_untrained σ this dataset config :
  untrained σ this → Search this dataset config σ = (Throw NotTrained, σ).
Proof.
  intros H. unfold Search. by rewrite (bind_Ok _ _ _ _ _ (guard_untrained _ _ H)).
Qed.

Lemma Add_untrained σ this dataset config :
  untrained σ this → Add this dataset config σ = (Throw NotTrained, σ).
Proof.
  intros H. unfold Add. by rewrite (bind_Ok _ _ _ _ _ (guard_untrained _ _ H)).
Qed.

Lemma AddWithoutIds_untrained σ this dataset config :
  untrained σ this → AddWithoutIds this dataset config σ = (Throw NotTrained, σ).
Proof.
  intros H. unfold AddWithoutIds.
  by rewrite (bind_Ok _ _ _ _ _ (guard_untrained _ _ H)).
Qed.

Lemma Seal_untrained σ this :
  untrained σ this → Seal this σ = (Throw NotTrained, σ).
Proof.
  intros H. unfold Seal. by rewrite (bind_Ok _ _ _ _ _ (guard_untrained _ _ H)).
Qed.

Lemma Serialize_untrained σ this :
  untrained σ this → Serialize this σ = (Throw NotTrained, σ).
Proof.
  intros H. unfold Serialize.
  by rewrite (bind_Ok _ _ _ _ _ (guard_untrained _ _ H)).
Qed.

(** C2.  On an index state that is not initialized or not trained, Search
    raises the not-trained exception and leaves the world as it was: no
    result buffer has been allocated when the exception is raised. *)
Theorem Search_before_training σ this dataset config :
  untrained σ this →
  let r := Search this dataset config σ in
  r.1 = Throw NotTrained ∧ r.2 = σ ∧ allocations (trace r.2) = allocations (trace σ).
Proof.
  intros H r. subst r. by rewrite (Search_untrained _ _ _ _ H).
Qed.

Lemma Serialize_trained σ this ix :
  points_to σ this ix → idx_is_trained ix = true →
  Serialize this σ =
    (Ok {[ blob_name := write_index ix ]},
     {| heap := heap σ; pool := pool σ;
        trace := trace σ ++ [EvSealImpl; EvSerializeImpl] |}).
Proof.
  intros Hp Htr.
  assert (Hg := guard_points_to _ _ _ Hp). rewrite Htr in Hg. cbn in Hg.
  unfold Serialize. rewrite (bind_Ok _ _ _ _ _ Hg).
  unfold Seal. unfold bind at 1. unfold bind at 1. rewrite Hg.
  unfold SealImpl, emit. cbn.
  destruct Hp as (l & Hl & Hh). unfold SerializeImpl. rewrite Hl. cbn.
  unfold bind, deref, emit. cbn. rewrite Hh. cbn.
  by rewrite <- app_assoc.
Qed.

(** C7.  Serialize raises the not-trained exception on an index state that
    is not initialized or not trained, and on a trained one it runs Seal
    and only then the encoding: the trace grows by the call of SealImpl
    followed by the call of SerializeImpl, and the result is the blob set
    of the encoding. *)
Theorem Serialize_seals_first σ this :
  (untrained σ this → Serialize this σ = (Throw NotTrained, σ))
  ∧ (∀ ix, points_to σ this ix → idx_is_trained ix = true →
       Serialize this σ = (Seal this;;; SerializeImpl (index_ this)) σ
       ∧ Serialize this σ =
           (Ok {[ blob_name := write_index ix ]},
            {| heap := heap σ; pool := pool σ;
               trace := trace σ ++ [EvSealImpl; EvSerializeImpl] |})).
Proof.
  split; [apply Serialize_untrained|].
  intros ix Hp Htr. split; [|by apply Serialize_trained].
  assert (Hg := guard_points_to _ _ _ Hp). rewrite Htr in Hg.
  unfold Serialize. by rewrite (bind_Ok _ _ _ _ _ Hg).
Qed.

(** C8.  Count and Dimension check nothing and raise nothing: no run of
    them ends in an exception.  On a handle that holds the null pointer
    they dereference it, where Add, AddWithoutIds, Search, Serialize and
    Seal raise the not-trained exception. *)
Theorem Count_Dimension_unguarded σ this dataset config :
  (∀ e, (Count this σ).1 ≠ Throw e ∧ (Dimension this σ).1 ≠ Throw e)
  ∧ (index_ this = None →
       Count this σ = (Undefined NullDereference, σ)
       ∧ Dimension this σ = (Undefined NullDereference, σ)
       ∧ Add this dataset config σ = (Throw NotTrained, σ)
       ∧ AddWithoutIds this dataset config σ = (Throw NotTrained, σ)
       ∧ Search this dataset config σ = (Throw NotTrained, σ)
       ∧ Serialize this σ = (Throw NotTrained, σ)
       ∧ Seal this σ = (Throw NotTrained, σ)).
Proof.
  split.
  - intros e. unfold Count, Dimension, bind, get_index, deref.
    destruct (index_ this) as [l|]; cbn; [|done].
    by destruct (heap σ !! l).
  - intros Hn. assert (Hu : untrained σ this) by by left.
    unfold Count, Dimension. rewrite Hn. cbn.
    repeat split;
      auto using Add_untrained, AddWithoutIds_untrained, Search_untrained,
        Serialize_untrained, Seal_untrained.
Qed.

(** C5.  When the pool hands out no resource for the device, CopyCpuToGpu
    raises the resource exception; the heap of index objects and the trace
    are as before, and Count answers as before. *)
Theorem CopyCpuToGpu_no_resource σ this device_id config :
  (GetRes (pool σ) device_id).1 = None →
  let r := CopyCpuToGpu this device_id config σ in
  r.1 = Throw ResourceUnavailable
  ∧ heap r.2 = heap σ
  ∧ trace r.2 = trace σ
  ∧ (Count this r.2).1 = (Count this σ).1.
Proof.
  intros Hres r. subst r.
  unfold CopyCpuToGpu, bind, get_res.
  destruct (GetRes (pool σ) device_id) as [o p] eqn:E. cbn in Hres. subst o.
  cbn. repeat split.
  unfold Count, bind, get_index, deref.
  destruct (index_ this) as [l|]; cbn; [|done].
  by destruct (heap σ !! l).
Qed.

(** *** Train *)

Lemma Train_train_with σ dataset config j :
  config !! "metric_type" = Some j →
  Train dataset config σ =
  train_with (if String.eqb (as_string j) "L2" then METRIC_L2
              else METRIC_INNER_PRODUCT) dataset config σ.
Proof.
  intros Hm. unfold Train, train_with, bind.
  destruct (config_at config "nlist" σ) as [[j'| |] σ1]; [|done..].
  destruct (as_size_t "nlist" j' σ1) as [[nlist| |] σ2] eqn:E; [|done..].
  assert (σ2 = σ1) as ->.
  { destruct j'; cbn in E; unfold ret, throw in E; congruence. }
  unfold config_at. by rewrite Hm.
Qed.

(** The run of Train on a configuration with its two members and a dataset
    with a tensor, up to what the training of faiss answers. *)
Lemma train_with_run σ metric dataset config n t :
  config !! "nlist" = Some (JInt n) →
  tensor dataset !! 0%nat = Some t →
  let ix0 := IndexIVFFlat (IndexFlatL2 (shape1 t)) (shape1 t) (to_size_t n) metric in
  let l := fresh (dom (heap σ)) in
  let len := shape0 t * idx_d ix0 in
  0 ≤ len ≤ Z.of_nat (length (raw_data t)) →
  let x := take (Z.to_nat len) (raw_data t) in
  let tr := trace σ ++ [EvNewIndexIVFFlat (shape1 t) (to_size_t n) metric;
                        EvTrain (shape0 t) x] in
  train_with metric dataset config σ =
    match index_train ix0 (shape0 t) x with
    | inl e => (Throw e, {| heap := <[l := ix0]> (heap σ); pool := pool σ;
                            trace := tr |})
    | inr ix' => (Ok {| model_index_ := Some l |},
                  {| heap := <[l := ix']> (heap σ); pool := pool σ;
                     trace := tr |})
    end.
Proof.
  intros Hn Ht ix0 l len Hlen x tr.
  unfold train_with, bind, config_at, GETTENSOR. rewrite Hn, Ht. cbn.
  unfold faiss_train, bind, deref. cbn. rewrite lookup_insert_eq.
  unfold read_floats. fold ix0. fold len.
  rewrite decide_True by lia. cbn. rewrite drop_0. fold x.
  subst tr. rewrite <- app_assoc. cbn.
  destruct (index_train ix0 (shape0 t) x) as [e|ix']; cbn; [done|].
  by rewrite insert_insert_eq.
Qed.

(** C9.  A metric_type string other than "L2" makes Train run with the
    inner-product metric, whatever the string is: the run is the one of
    the inner-product metric, and no string is rejected.  With nlist and a
    tensor present, the index constructed and handed to the training is
    the inner-product one. *)
Theorem Train_metric_fallback σ dataset config s :
  config !! "metric_type" = Some (JString s) →
  s ≠ "L2" →
  Train dataset config σ = train_with METRIC_INNER_PRODUCT dataset config σ
  ∧ (∀ n t, config !! "nlist" = Some (JInt n) →
       tensor dataset !! 0%nat = Some t →
       let ix0 := IndexIVFFlat (IndexFlatL2 (shape1 t)) (shape1 t)
                    (to_size_t n) METRIC_INNER_PRODUCT in
       0 ≤ shape0 t * idx_d ix0 ≤ Z.of_nat (length (raw_data t)) →
       ∃ x, trace (Train dataset config σ).2 =
              trace σ ++ [EvNewIndexIVFFlat (shape1 t) (to_size_t n)
                            METRIC_INNER_PRODUCT;
                          EvTrain (shape0 t) x]
            ∧ ∀ ix', index_train ix0 (shape0 t) x = inr ix' →
                (Train dataset config σ).1
                  = Ok {| model_index_ := Some (fresh (dom (heap σ))) |}
                ∧ heap (Train dataset config σ).2 !! fresh (dom (heap σ))
                  = Some ix').
Proof.
  intros Hm Hs.
  assert (Heq : Train dataset config σ
                = train_with METRIC_INNER_PRODUCT dataset config σ).
  { rewrite (Train_train_with _ _ _ _ Hm). cbn.
    destruct (String.eqb_spec s "L2"); [done|done]. }
  split; [done|].
  intros n t Hn Ht ix0 Hlen. rewrite Heq.
  rewrite (train_with_run σ _ _ _ _ _ Hn Ht Hlen). fold ix0.
  eexists. split.
  - destruct (index_train ix0 _ _); reflexivity.
  - intros ix' ->. cbn. by rewrite lookup_insert_eq.
Qed.

(** C6, as the code has it.  Train does not look at the number of rows: on
    a batch of zero rows, with nlist and metric_type present, it constructs
    the index and calls the training of the quantizer with zero rows and
    no data.  It raises what that training raises, and returns the model
    when that training returns. *)
Theorem Train_empty_batch σ dataset config n j t :
  config !! "nlist" = Some (JInt n) →
  config !! "metric_type" = Some j →
  tensor dataset !! 0%nat = Some t →
  shape0 t = 0 →
  let metric := if String.eqb (as_string j) "L2" then METRIC_L2
                else METRIC_INNER_PRODUCT in
  let ix0 := IndexIVFFlat (IndexFlatL2 (shape1 t)) (shape1 t) (to_size_t n) metric in
  let r := Train dataset config σ in
  training_calls (trace r.2) = training_calls (trace σ) ++ [0]
  ∧ r.1 = match index_train ix0 0 [] with
          | inl e => Throw e
          | inr _ => Ok {| model_index_ := Some (fresh (dom (heap σ))) |}
          end.
Proof.
  intros Hn Hm Ht Hrows metric ix0 r. subst r.
  rewrite (Train_train_with _ _ _ _ Hm). fold metric.
  rewrite (train_with_run σ metric _ _ _ _ Hn Ht); rewrite Hrows; [|cbn; lia].
  fold ix0. rewrite Z.mul_0_l. change (take (Z.to_nat 0) (raw_data t)) with (@nil float32).
  unfold training_calls.
  destruct (index_train ix0 0 []); cbn [fst snd trace];
    by rewrite bind_app.
Qed.

(** *** set_index_model *)

(** The index state instantiated from a model points to a copy of the
    index of the model, in a new object. *)
Lemma set_index_model_copies σ this model l ix :
  model_index_ model = Some l →
  heap σ !! l = Some ix →
  set_index_model this model σ =
    (Ok {| index_ := Some (fresh (dom (heap σ))) |},
     {| heap := <[fresh (dom (heap σ)) := ix]> (heap σ); pool := pool σ;
        trace := trace σ |})
  ∧ fresh (dom (heap σ)) ≠ l.
Proof.
  intros Hm Hl. split.
  - unfold set_index_model, clone_index. rewrite Hm.
    unfold bind, deref. by rewrite Hl.
  - intros E. apply (is_fresh (dom (heap σ))). rewrite E.
    apply elem_of_dom. by eexists.
Qed.

(** *** Framing: what a computation leaves alone in the heap *)

Lemma keeps_ret {A} l (a : A) : keeps l (ret a).
Proof. by intros σ ix H. Qed.

Lemma keeps_throw {A} l e : keeps l (throw (A:=A) e).
Proof. by intros σ ix H. Qed.

Lemma keeps_undefined {A} l u : keeps l (undefined (A:=A) u).
Proof. by intros σ ix H. Qed.

Lemma keeps_bind {A B} l (m : M A) (f : A → M B) :
  keeps l m → (∀ a, keeps l (f a)) → keeps l (bind m f).
Proof.
  intros Hm Hf σ ix H. unfold bind. specialize (Hm σ ix H).
  destruct (m σ) as [[a|e|u] σ']; cbn in *; [by apply Hf|done..].
Qed.

Lemma keeps_emit l e : keeps l (emit e).
Proof. by intros σ ix H. Qed.

Lemma keeps_lift {A} l (r : Exception + A) : keeps l (lift r).
Proof. destruct r; [apply keeps_throw | apply keeps_ret]. Qed.

Lemma keeps_deref l l' : keeps l (deref l').
Proof. intros σ ix H. unfold deref. by destruct (heap σ !! l'). Qed.

Lemma keeps_store l l' ix' : l ≠ l' → keeps l (store l' ix').
Proof. intros Hne σ ix H. cbn. by rewrite lookup_insert_ne. Qed.

Lemma keeps_new l ix' : keeps l (new ix').
Proof.
  intros σ ix H. cbn. rewrite lookup_insert_ne; [done|].
  intros <-. apply (is_fresh (dom (heap σ))), elem_of_dom. by eexists.
Qed.

Lemma keeps_read_floats l p off len : keeps l (read_floats p off len).
Proof. unfold read_floats. case_decide; [apply keeps_ret|apply keeps_undefined]. Qed.

Lemma keeps_read_ids l p n : keeps l (read_ids p n).
Proof. unfold read_ids. case_decide; [apply keeps_ret|apply keeps_undefined]. Qed.

Lemma keeps_vec_get {A} l (v : list A) i : keeps l (vec_get v i).
Proof.
  unfold vec_get. case_decide; [|apply keeps_undefined].
  destruct (v !! Z.to_nat i); [apply keeps_ret|apply keeps_undefined].
Qed.

Lemma keeps_GETTENSOR l dataset : keeps l (GETTENSOR dataset).
Proof.
  unfold GETTENSOR.
  destruct (tensor dataset !! 0%nat); [apply keeps_ret|apply keeps_undefined].
Qed.

Lemma keeps_guard l p : keeps l (not_initialized_or_trained p).
Proof.
  destruct p; cbn; [|apply keeps_ret].
  apply keeps_bind; [apply keeps_deref|]. intros; apply keeps_ret.
Qed.

Create HintDb keeps discriminated.
#[local] Hint Resolve keeps_ret keeps_throw keeps_undefined keeps_emit
  keeps_lift keeps_deref keeps_store keeps_new keeps_read_floats
  keeps_read_ids keeps_vec_get keeps_GETTENSOR keeps_guard : keeps.

Ltac keeps_steps :=
  repeat first
    [ apply keeps_bind; [|intros ?]
    | progress eauto with keeps ].

Lemma keeps_faiss_add_with_ids l l' n p_data p_ids :
  l ≠ l' → keeps l (faiss_add_with_ids l' n p_data p_ids).
Proof. intros. unfold faiss_add_with_ids. keeps_steps. Qed.

Lemma keeps_faiss_add l l' n p_data :
  l ≠ l' → keeps l (faiss_add l' n p_data).
Proof. intros. unfold faiss_add. keeps_steps. Qed.

Lemma keeps_Add l this dataset config :
  index_ this ≠ Some l → keeps l (Add this dataset config).
Proof.
  intros Hne. unfold Add. apply keeps_bind; [auto with keeps|].
  intros [|]; [auto with keeps|].
  apply keeps_bind; [auto with keeps|]. intros [[p_data dim] rows].
  apply keeps_bind; [auto with keeps|]. intros array0.
  destruct (index_ this) as [l'|]; [|auto with keeps].
  apply keeps_faiss_add_with_ids. congruence.
Qed.

Lemma keeps_AddWithoutIds l this dataset config :
  index_ this ≠ Some l → keeps l (AddWithoutIds this dataset config).
Proof.
  intros Hne. unfold AddWithoutIds. apply keeps_bind; [auto with keeps|].
  intros [|]; [auto with keeps|].
  apply keeps_bind; [auto with keeps|]. intros [[p_data dim] rows].
  destruct (index_ this) as [l'|]; [|auto with keeps].
  apply keeps_faiss_add. congruence.
Qed.

Lemma keeps_LoadImpl l index_binary : keeps l (LoadImpl index_binary).
Proof.
  unfold LoadImpl. apply keeps_bind; [auto with keeps|]. intros _.
  destruct (index_binary !! blob_name) as [b|]; [|auto with keeps].
  destruct (read_index b); [|auto with keeps]. keeps_steps.
Qed.

Lemma keeps_Load l this index_binary : keeps l (Load this index_binary).
Proof.
  unfold Load. apply keeps_bind; [apply keeps_LoadImpl|]. auto with keeps.
Qed.

(** The handle after a successful Load points to a new object. *)
Lemma Load_fresh this index_binary σ this' σ' l ix :
  heap σ !! l = Some ix →
  Load this index_binary σ = (Ok this', σ') →
  index_ this' ≠ Some l.
Proof.
  intros Hl. unfold Load, LoadImpl, bind, emit. cbn.
  destruct (index_binary !! blob_name) as [b|]; [|done].
  destruct (read_index b); [|done]. cbn.
  intros [= <- <-]. cbn. intros [= E].
  apply (is_fresh (dom (heap σ))). rewrite E. apply elem_of_dom. by eexists.
Qed.

Lemma mutate_keeps l this m :
  index_ this ≠ Some l → keeps l (mutate this m).
Proof.
  intros Hne. destruct m; cbn.
  - apply keeps_bind; [by apply keeps_Add|auto with keeps].
  - apply keeps_bind; [by apply keeps_AddWithoutIds|auto with keeps].
  - apply keeps_Load.
Qed.

Lemma mutate_handle l ix this m σ this' σ' :
  index_ this ≠ Some l →
  heap σ !! l = Some ix →
  mutate this m σ = (Ok this', σ') →
  index_ this' ≠ Some l.
Proof.
  intros Hne Hl. destruct m; cbn.
  - unfold bind. destruct (Add _ _ _ _) as [[[]| |] ?]; [|done..].
    by intros [= <- <-].
  - unfold bind. destruct (AddWithoutIds _ _ _ _) as [[[]| |] ?]; [|done..].
    by intros [= <- <-].
  - intros HL. eapply Load_fresh; eauto.
Qed.

(** A sequence of mutations of a handle keeps every object the handle does
    not point to. *)
Lemma mutations_keep l ix ms : ∀ this σ this' σ',
  index_ this ≠ Some l →
  heap σ !! l = Some ix →
  mutations this ms σ = Some (this', σ') →
  heap σ' !! l = Some ix.
Proof.
  induction ms as [|m ms IH]; intros this σ this' σ' Hne Hl; cbn.
  - by intros [= <- <-].
  - pose proof (mutate_keeps l this m Hne σ ix Hl) as Hk.
    pose proof (mutate_handle l ix this m σ) as Hh.
    destruct (mutate this m σ) as [[c|e|u] σ1]; cbn in Hk; [| |done].
    + apply IH; [|done]. by eapply Hh.
    + by apply IH.
Qed.

(** *** Search answers from the value of the index alone *)

Lemma search_impl_answer σ1 σ2 h1 h2 ix n data off k dis lab cfg :
  points_to σ1 h1 ix → points_to σ2 h2 ix →
  (search_impl h1 n data off k dis lab cfg σ1).1
  = (search_impl h2 n data off k dis lab cfg σ2).1.
Proof.
  intros H1 H2. unfold search_impl, bind.
  assert (HG : ∀ σ, ∃ r, GenParams cfg σ = (r, σ)).
  { intros σ. unfold GenParams. destruct (cfg !! "nprobe") as [[]|]; cbn; eauto. }
  destruct (HG σ1) as (r1 & E1), (HG σ2) as (r2 & E2).
  assert (r1 = r2) as <-.
  { unfold GenParams in *. destruct (cfg !! "nprobe") as [[]|]; cbn in *;
      unfold ret, throw in *; congruence. }
  rewrite E1, E2. destruct r1 as [nprobe|e|u]; [|done..].
  rewrite (get_index_points_to _ _ _ H1), (get_index_points_to _ _ _ H2).
  unfold read_floats. case_decide; [|done]. cbn.
  destruct (search_with_parameters _ _ _ _ _) as [e|[D L]]; cbn; [done|].
  unfold write_buf. repeat (case_decide; cbn; [|done]). done.
Qed.

Lemma Search_answer σ1 σ2 h1 h2 ix dataset config :
  points_to σ1 h1 ix → points_to σ2 h2 ix →
  (Search h1 dataset config σ1).1 = (Search h2 dataset config σ2).1.
Proof.
  intros H1 H2. unfold Search.
  rewrite (bind_Ok _ _ _ _ _ (guard_points_to _ _ _ H1)).
  rewrite (bind_Ok _ _ _ _ _ (guard_points_to _ _ _ H2)).
  destruct (idx_is_trained ix); cbn; [|done].
  unfold bind, config_at, GETTENSOR, malloc, emit.
  destruct (config !! "k") as [[s|z]|]; cbn; [done| |done].
  destruct (tensor dataset !! 0%nat) as [t|]; cbn; [|done].
  match goal with
  | |- (match search_impl h1 ?n ?d ?o ?k ?a ?b ?c ?s1 with _ => _ end).1
       = (match search_impl h2 _ _ _ _ _ _ _ ?s2 with _ => _ end).1 =>
      assert (HS : (search_impl h1 n d o k a b c s1).1
                   = (search_impl h2 n d o k a b c s2).1)
  end.
  { apply (search_impl_answer _ _ _ _ ix).
    - destruct H1 as (l & ? & ?). by exists l.
    - destruct H2 as (l & ? & ?). by exists l. }
  destruct (search_impl h1 _ _ _ _ _ _ _ _) as [[[d1 l1]|e1|u1] w1],
           (search_impl h2 _ _ _ _ _ _ _ _) as [[[d2 l2]|e2|u2] w2];
    cbn in *; congruence.
Qed.

Lemma Count_points_to σ this ix :
  points_to σ this ix → Count this σ = (Ok (idx_ntotal ix), σ).
Proof.
  intros H. unfold Count. by rewrite (bind_Ok _ _ _ _ _ (get_index_points_to _ _ _ H)).
Qed.

Lemma Dimension_points_to σ this ix :
  points_to σ this ix → Dimension this σ = (Ok (idx_d ix), σ).
Proof.
  intros H. unfold Dimension.
  by rewrite (bind_Ok _ _ _ _ _ (get_index_points_to _ _ _ H)).
Qed.

(** *** Persistence *)

Lemma Load_decoded σ this b ix index_binary :
  index_binary !! blob_name = Some b →
  read_index b = Some ix →
  Load this index_binary σ =
    (Ok {| index_ := Some (fresh (dom (heap σ))) |},
     {| heap := <[fresh (dom (heap σ)) := ix]> (heap σ); pool := pool σ;
        trace := trace σ ++ [EvLoadImpl] |}).
Proof.
  intros Hb Hr. unfold Load, LoadImpl, bind, emit. cbn. by rewrite Hb, Hr.
Qed.

Section Codec.

(** Decoding is the exact inverse of encoding. *)
Hypothesis codec_inverse : ∀ ix, read_index (write_index ix) = Some ix.

(** C1.  Serializing a trained index state succeeds, and loading the blob
    set, into any handle and in any world, gives a trained index state
    with the same Count and Dimension that answers every Search as the
    serialized one does: the same outcome, hence the same ids in the same
    order and the same distances bit for bit. *)
Theorem Load_Serialize_roundtrip σ s :
  trained σ s →
  ∃ bs σ1, Serialize s σ = (Ok bs, σ1)
    ∧ ∀ t σ', ∃ t' σ'', Load t bs σ' = (Ok t', σ'')
        ∧ trained σ'' t'
        ∧ (Count t' σ'').1 = (Count s σ).1
        ∧ (Dimension t' σ'').1 = (Dimension s σ).1
        ∧ ∀ q cfg, (Search t' q cfg σ'').1 = (Search s q cfg σ).1.
Proof.
  intros (ix & Hp & Htr).
  eexists _, _. split; [by apply Serialize_trained|].
  intros t σ'. eexists _, _. split.
  { apply (Load_decoded _ _ (write_index ix) ix);
      [apply lookup_singleton_eq | apply codec_inverse]. }
  assert (Hp' : points_to
      {| heap := <[fresh (dom (heap σ')) := ix]> (heap σ'); pool := pool σ';
         trace := trace σ' ++ [EvLoadImpl] |}
      {| index_ := Some (fresh (dom (heap σ'))) |} ix).
  { eexists. split; [done|]. cbn. apply lookup_insert_eq. }
  split; [by exists ix|].
  rewrite (Count_points_to _ _ _ Hp'), (Count_points_to _ _ _ Hp).
  rewrite (Dimension_points_to _ _ _ Hp'), (Dimension_points_to _ _ _ Hp).
  repeat split. intros q cfg. by apply (Search_answer _ _ _ _ ix).
Qed.

End Codec.

(** *** Clone *)

Lemma Clone_points_to σ this ix :
  points_to σ this ix →
  Clone this σ =
    (Ok {| index_ := Some (fresh (dom (heap σ))) |},
     {| heap := <[fresh (dom (heap σ)) := ix]> (heap σ); pool := pool σ;
        trace := trace σ |}).
Proof.
  intros (l & Hl & Hh). unfold Clone, clone_index. rewrite Hl.
  unfold bind, deref. by rewrite Hh.
Qed.

(** C3.  Clone of a trained index state gives a handle to a new object
    that answers every Search as the source does.  After any sequence of
    Add, AddWithoutIds and Load on the clone, the source answers Count,
    Dimension and every Search as it did before the clone was made. *)
Theorem Clone_independent σ s :
  trained σ s →
  ∃ c σ', Clone s σ = (Ok c, σ')
    ∧ trained σ' c
    ∧ index_ c ≠ index_ s
    ∧ (∀ q cfg, (Search c q cfg σ').1 = (Search s q cfg σ').1)
    ∧ ∀ ms c' σ'', mutations c ms σ' = Some (c', σ'') →
        (Count s σ'').1 = (Count s σ).1
        ∧ (Dimension s σ'').1 = (Dimension s σ).1
        ∧ ∀ q cfg, (Search s q cfg σ'').1 = (Search s q cfg σ).1.
Proof.
  intros (ix & Hp & Htr).
  eexists _, _. split; [by apply Clone_points_to|].
  destruct Hp as (l & Hl & Hh).
  set (lc := fresh (dom (heap σ))).
  set (σ' := {| heap := <[lc := ix]> (heap σ); pool := pool σ;
                trace := trace σ |}).
  assert (Hne : lc ≠ l).
  { intros E. apply (is_fresh (dom (heap σ))). fold lc. rewrite E.
    apply elem_of_dom. by eexists. }
  assert (Hps : points_to σ s ix) by by exists l.
  assert (Hps' : points_to σ' s ix).
  { exists l. split; [done|]. cbn. by rewrite lookup_insert_ne. }
  assert (Hpc : points_to σ' {| index_ := Some lc |} ix).
  { exists lc. split; [done|]. cbn. apply lookup_insert_eq. }
  split; [by exists ix|].
  split; [cbn; congruence|].
  split; [intros q cfg; by apply (Search_answer _ _ _ _ ix)|].
  intros ms c' σ'' Hms.
  assert (Hk : heap σ'' !! l = Some ix).
  { eapply (mutations_keep l ix ms _ σ'); [|by destruct Hps' as (? & ? & ?); simplify_eq|done].
    cbn. congruence. }
  assert (Hps'' : points_to σ'' s ix) by by exists l.
  rewrite (Count_points_to _ _ _ Hps''), (Count_points_to _ _ _ Hps).
  rewrite (Dimension_points_to _ _ _ Hps''), (Dimension_points_to _ _ _ Hps).
  repeat split. intros q cfg. by apply (Search_answer _ _ _ _ ix).
Qed.

(** *** GenGraph *)

Lemma int_arith_Ok σ z :
  INT_MIN ≤ z ≤ INT_MAX → int_arith z σ = (Ok z, σ).
Proof. intros H. unfold int_arith. by rewrite decide_True. Qed.

Lemma int_incr_Ok σ z :
  INT_MIN ≤ z < INT_MAX → int_incr z σ = (Ok (z + 1), σ).
Proof. intros H. apply int_arith_Ok. lia. Qed.

Lemma vec_get_Ok {A} σ (v : list A) i x :
  0 ≤ i → v !! Z.to_nat i = Some x → vec_get v i σ = (Ok x, σ).
Proof. intros Hi Hx. unfold vec_get. by rewrite decide_True, Hx. Qed.

Lemma vec_set_Ok {A} σ (v : list A) i x :
  0 ≤ i < Z.of_nat (length v) →
  vec_set v i x σ = (Ok (<[Z.to_nat i := x]> v), σ).
Proof. intros Hi. unfold vec_set. by rewrite decide_True. Qed.

Lemma int64_arith_Ok σ z :
  INT64_MIN ≤ z ≤ INT64_MAX → int64_arith z σ = (Ok z, σ).
Proof. intros H. unfold int64_arith. by rewrite decide_True. Qed.

Lemma max_size_float : max_size sizeof_float = 2305843009213693951.
Proof. reflexivity. Qed.

Lemma max_size_int64 : max_size sizeof_int64 = 1152921504606846975.
Proof. reflexivity. Qed.

Lemma max_size_vector : max_size sizeof_vector = 384307168202282325.
Proof. reflexivity. Qed.

Lemma vector_resize_Ok {A} σ size (v : list A) n x :
  0 ≤ n ≤ max_size size →
  vector_resize size v n x σ = (Ok (resize (Z.to_nat n) x v), σ).
Proof. intros Hn. unfold vector_resize. by rewrite decide_True. Qed.

(** The byte offset of a batch is the offset of a float. *)
Lemma batch_start_eq dim i : batch_start dim i = 25 * dim * i.
Proof.
  unfold batch_start, batch_size, sizeof_float.
  replace (100 * dim * i) with (25 * dim * i * 4) by lia.
  apply Z.div_mul. lia.
Qed.

Lemma float_index_Ok σ dim i :
  float_index (batch_size * dim * i) σ = (Ok (batch_start dim i), σ).
Proof.
  unfold float_index, batch_start, sizeof_float. rewrite decide_True; [done|].
  unfold batch_size.
  replace (100 * dim * i) with (25 * dim * i * 4) by lia.
  apply Z.mod_mul. lia.
Qed.

(** The innermost loop copies a whole row when the row lies within the
    result buffer. *)
Lemma copy_row_Ok σ k lim res : ∀ fuel m tmp node,
  0 ≤ m ≤ k → 0 ≤ tmp →
  tmp + (k - m) ≤ lim →
  lim ≤ Z.of_nat (length res) →
  Z.of_nat (length node) = k →
  k - m ≤ Z.of_nat fuel →
  k ≤ INT_MAX → tmp + (k - m) ≤ INT_MAX →
  ∃ node', copy_row fuel k lim res m tmp node σ = (Ok (node', tmp + (k - m)), σ)
    ∧ length node' = length node.
Proof.
  induction fuel as [|fuel IH]; intros m tmp node Hm Htmp Hlim Hres Hnode Hfuel Hk Hmax.
  - cbn. exists node. split; [|done]. by replace (tmp + (k - m)) with tmp by lia.
  - cbn [copy_row]. case_decide as Hc.
    + assert (Hlt : (Z.to_nat tmp < length res)%nat) by lia.
      destruct (lookup_lt_is_Some_2 _ _ Hlt) as [v Hv].
      rewrite (bind_Ok _ _ _ _ _ (vec_get_Ok σ res tmp v Htmp Hv)).
      rewrite (bind_Ok _ _ _ _ _ (vec_set_Ok σ node m v ltac:(lia))).
      unfold INT_MIN, INT_MAX in *.
      rewrite (bind_Ok _ _ _ _ _ (int_incr_Ok σ m ltac:(unfold INT_MIN, INT_MAX; lia))).
      rewrite (bind_Ok _ _ _ _ _ (int_incr_Ok σ tmp ltac:(unfold INT_MIN, INT_MAX; lia))).
      destruct (IH (m + 1) (tmp + 1) (<[Z.to_nat m := v]> node))
        as (node' & -> & Hlen); rewrite ?length_insert; try lia.
      rewrite length_insert in Hlen.
      exists node'. split; [|done]. by replace (tmp + 1 + (k - (m + 1))) with (tmp + (k - m)) by lia.
    + exists node. split; [|done]. unfold ret. by replace (tmp + (k - m)) with tmp by lia.
Qed.


(** The loop over the rows of a batch gives every node of the batch the
    length [k] and leaves the other nodes alone. *)
Lemma fill_nodes_Ok σ k b_size res i : ∀ fuel j graph,
  0 ≤ k → 0 ≤ i → 0 ≤ j ≤ b_size →
  k * b_size ≤ Z.of_nat (length res) →
  b_size - j ≤ Z.of_nat fuel →
  batch_size * i + b_size ≤ Z.of_nat (length graph) →
  k * b_size ≤ INT_MAX →
  batch_size * i + b_size ≤ INT_MAX →
  ∃ graph', fill_nodes fuel k b_size res i j (j * k) graph σ = (Ok graph', σ)
    ∧ length graph' = length graph
    ∧ (∀ idx, Z.of_nat idx < batch_size * i + j
              ∨ batch_size * i + b_size ≤ Z.of_nat idx →
         graph' !! idx = graph !! idx)
    ∧ (∀ idx node, batch_size * i + j ≤ Z.of_nat idx < batch_size * i + b_size →
         graph' !! idx = Some node → Z.of_nat (length node) = k).
Proof.
  unfold batch_size, INT_MAX.
  induction fuel as [|fuel IH]; intros j graph Hk Hi Hj Hres Hfuel Hg Hmax Hmax'.
  { cbn. exists graph. do 3 (split; [done|]). intros idx node ?. lia. }
  cbn [fill_nodes]. case_decide as Hc.
  2:{ exists graph. do 3 (split; [done|]). intros idx node ?. lia. }
  rewrite (bind_Ok _ _ _ _ _ (int_arith_Ok σ (batch_size * i)
             ltac:(unfold INT_MIN, INT_MAX, batch_size; lia))).
  rewrite (bind_Ok _ _ _ _ _ (int_arith_Ok σ (batch_size * i + j)
             ltac:(unfold INT_MIN, INT_MAX, batch_size; lia))).
  unfold batch_size.
  assert (Hlt : (Z.to_nat (100 * i + j) < length graph)%nat) by lia.
  destruct (lookup_lt_is_Some_2 _ _ Hlt) as [node0 Hnode0].
  rewrite (bind_Ok _ _ _ _ _ (vec_get_Ok σ graph (100 * i + j) node0 ltac:(lia) Hnode0)).
  assert (Hkm : 0 ≤ k ≤ max_size sizeof_int64)
    by (rewrite max_size_int64; nia).
  rewrite (bind_Ok _ _ _ _ _ (vector_resize_Ok σ sizeof_int64 node0 k 0 Hkm)).
  clear Hkm.
  destruct (copy_row_Ok σ k (k * b_size) res (Z.to_nat k) 0 (j * k)
              (resize (Z.to_nat k) 0 node0))
    as (node' & Hcopy & Hlen);
    rewrite ?length_resize; unfold INT_MAX; try nia.
  rewrite (bind_Ok _ _ _ _ _ Hcopy). cbn beta iota.
  rewrite length_resize in Hlen.
  rewrite (bind_Ok _ _ _ _ _ (vec_set_Ok σ graph (100 * i + j) node' ltac:(lia))).
  rewrite (bind_Ok _ _ _ _ _ (int_incr_Ok σ j
             ltac:(unfold INT_MIN, INT_MAX; lia))).
  replace (j * k + (k - 0)) with ((j + 1) * k) by lia.
  destruct (IH (j + 1) (<[Z.to_nat (100 * i + j) := node']> graph))
    as (graph' & -> & Hlen' & Hout & Hin); rewrite ?length_insert; try lia.
  rewrite length_insert in Hlen'.
  exists graph'. split; [done|]. split; [done|]. split.
  - intros idx Hidx. rewrite Hout by lia.
    apply list_lookup_insert_ne. lia.
  - intros idx node Hidx Hlook.
    destruct (decide (idx = Z.to_nat (100 * i + j))) as [->|Hne].
    + rewrite Hout in Hlook by lia.
      rewrite list_lookup_insert_eq in Hlook by lia.
      injection Hlook as <-. lia.
    + apply (Hin idx); [lia|done].
Qed.


Lemma write_buf_Ok {A} σ (buf out : list A) :
  (length out ≤ length buf)%nat →
  write_buf buf out σ = (Ok (out ++ drop (length out) buf), σ).
Proof. intros H. unfold write_buf. by rewrite decide_True. Qed.

Lemma read_floats_Ok σ p off len :
  0 ≤ off → 0 ≤ len → off + len ≤ Z.of_nat (length p) →
  read_floats p off len σ
  = (Ok (take (Z.to_nat len) (drop (Z.to_nat off) p)), σ).
Proof. intros. unfold read_floats. by rewrite decide_True. Qed.

Lemma read_floats_OutOfBounds σ p off len :
  Z.of_nat (length p) < off + len →
  read_floats p off len σ = (Undefined OutOfBounds, σ).
Proof. intros. unfold read_floats. rewrite decide_False; [done|lia]. Qed.

Section GenGraph_runs.

Variables (this : IVF) (ix : Index) (k : Z) (config : Config) (nprobe : Z).
Variables (p_data : list float32) (dim : Z).

(** The configuration gives the probe count. *)
Hypothesis params_Ok : ∀ σ, GenParams config σ = (Ok nprobe, σ).
(** The integers stay within [int]. *)
Hypothesis k_range : 0 ≤ k ∧ k * batch_size ≤ INT_MAX.
Hypothesis ntotal_range : 0 ≤ idx_ntotal ix ≤ INT_MAX.
Hypothesis d_nonneg : 0 ≤ idx_d ix.
Hypothesis dim_nonneg : 0 ≤ dim.
(** The search engine answers every batch with [k] results per query. *)
Hypothesis search_Ok : search_contract ix k nprobe.

Let ntotal := idx_ntotal ix.
Let tail_batch_size := Z.rem ntotal batch_size.
Let total_search_count :=
  if decide (tail_batch_size = 0) then Z.quot ntotal batch_size
  else Z.quot ntotal batch_size + 1.

Lemma tail_batch_size_mod : tail_batch_size = ntotal mod batch_size.
Proof.
  unfold tail_batch_size, ntotal.
  apply Z.rem_mod_nonneg; unfold batch_size; lia.
Qed.

Lemma total_search_count_spec :
  total_search_count = batch_count ntotal
  ∧ 0 ≤ total_search_count ≤ ntotal
  ∧ ntotal ≤ batch_size * total_search_count.
Proof.
  unfold total_search_count. rewrite tail_batch_size_mod.
  unfold ntotal. rewrite Z.quot_div_nonneg by (unfold batch_size; lia).
  unfold batch_count, batch_size.
  pose proof (Z.div_mod (idx_ntotal ix) 100 ltac:(lia)).
  pose proof (Z.mod_pos_bound (idx_ntotal ix) 100 ltac:(lia)).
  pose proof (Z.div_mod (idx_ntotal ix + 99) 100 ltac:(lia)).
  pose proof (Z.mod_pos_bound (idx_ntotal ix + 99) 100 ltac:(lia)).
  change (100 - 1) with 99. case_decide; lia.
Qed.

(** The size the loop gives batch [i] . *)
Lemma b_size_batch_len i :
  0 ≤ i < total_search_count →
  (if decide (i = total_search_count - 1 ∧ tail_batch_size ≠ 0)
   then tail_batch_size else batch_size) = batch_len ntotal i
  ∧ 0 < batch_len ntotal i ≤ batch_size
  ∧ batch_size * i + batch_len ntotal i ≤ ntotal
  ∧ (i = total_search_count - 1 → batch_size * i + batch_len ntotal i = ntotal)
  ∧ (i < total_search_count - 1 → batch_len ntotal i = batch_size).
Proof.
  unfold total_search_count. rewrite tail_batch_size_mod.
  unfold ntotal. rewrite Z.quot_div_nonneg by (unfold batch_size; lia).
  unfold batch_len, batch_size.
  pose proof (Z.div_mod (idx_ntotal ix) 100 ltac:(lia)).
  pose proof (Z.mod_pos_bound (idx_ntotal ix) 100 ltac:(lia)).
  intros Hi. repeat case_decide; lia.
Qed.


Lemma search_impl_Ok σ n off dis lab :
  points_to σ this ix →
  0 ≤ n → 0 ≤ off →
  off + n * idx_d ix ≤ Z.of_nat (length p_data) →
  (Z.to_nat (n * k) ≤ length dis)%nat →
  (Z.to_nat (n * k) ≤ length lab)%nat →
  ∃ D L, length D = Z.to_nat (n * k) ∧ length L = Z.to_nat (n * k)
    ∧ search_impl this n p_data off k dis lab config σ
      = (Ok (D ++ drop (length D) dis, L ++ drop (length L) lab),
         logged σ (EvSearch n (take (Z.to_nat (n * idx_d ix))
                                 (drop (Z.to_nat off) p_data)) k nprobe)).
Proof.
  intros Hp Hn Hoff Hfit Hdis Hlab.
  destruct (search_Ok n (take (Z.to_nat (n * idx_d ix))
                           (drop (Z.to_nat off) p_data)) Hn)
    as (D & L & Hs & HD & HL).
  exists D, L. split; [done|]. split; [done|].
  unfold search_impl.
  rewrite (bind_Ok _ _ _ _ _ (params_Ok σ)).
  rewrite (bind_Ok _ _ _ _ _ (get_index_points_to _ _ _ Hp)).
  rewrite (bind_Ok _ _ _ _ _ (read_floats_Ok σ p_data off (n * idx_d ix)
             Hoff ltac:(nia) Hfit)).
  unfold bind at 1. cbn [emit]. rewrite Hs. cbn [lift].
  unfold bind at 1. cbn [ret].
  rewrite (bind_Ok _ _ _ _ _ (write_buf_Ok _ dis D ltac:(lia))).
  rewrite (bind_Ok _ _ _ _ _ (write_buf_Ok _ lab L ltac:(lia))).
  done.
Qed.

(** One turn of the loop over the batches, when the batch lies within the
    dataset buffer. *)
Lemma search_batches_step σ fuel i res_dis res_vec graph :
  points_to σ this ix →
  0 ≤ i < total_search_count →
  Z.of_nat (length res_dis) = k * batch_size →
  Z.of_nat (length res_vec) = total_search_count →
  Z.of_nat (length graph) = ntotal →
  fits p_data dim (idx_d ix) ntotal i →
  ∃ res_dis' res_vec' graph',
    search_batches (S fuel) this k config p_data dim tail_batch_size
      total_search_count i res_dis res_vec graph σ
    = search_batches fuel this k config p_data dim tail_batch_size
        total_search_count (i + 1) res_dis' res_vec' graph'
        (logged σ (EvSearch (batch_len ntotal i)
           (take (Z.to_nat (batch_len ntotal i * idx_d ix))
              (drop (Z.to_nat (batch_start dim i)) p_data)) k nprobe))
    ∧ length res_dis' = length res_dis
    ∧ length res_vec' = length res_vec
    ∧ length graph' = length graph
    ∧ (∀ idx, Z.of_nat idx < batch_size * i
              ∨ batch_size * (i + 1) ≤ Z.of_nat idx →
         graph' !! idx = graph !! idx)
    ∧ (∀ idx node, batch_size * i ≤ Z.of_nat idx < batch_size * (i + 1) →
         graph' !! idx = Some node → Z.of_nat (length node) = k).
Proof.
  intros Hp Hi Hdis Hvec Hgraph Hfit.
  destruct (b_size_batch_len i Hi) as (Hb & Hbr & Hbn & _).
  destruct total_search_count_spec as (_ & Htot & Hcover).
  destruct k_range as [Hk0 Hkmax].
  cbn [search_batches]. rewrite decide_True by lia. rewrite Hb.
  set (b := batch_len ntotal i) in *.
  unfold batch_size in *.
  assert (Hlt : (Z.to_nat i < length res_vec)%nat) by lia.
  destruct (lookup_lt_is_Some_2 _ _ Hlt) as [res0 Hres0].
  rewrite (bind_Ok _ _ _ _ _ (vec_get_Ok σ res_vec i res0 ltac:(lia) Hres0)).
  assert (Hkb : 0 ≤ k * b ≤ INT_MAX) by (unfold INT_MAX in *; nia).
  rewrite (bind_Ok _ _ _ _ _ (int64_arith_Ok σ (k * b)
             ltac:(unfold INT64_MIN, INT64_MAX, INT_MAX in *; lia))).
  rewrite (bind_Ok _ _ _ _ _ (vector_resize_Ok σ sizeof_int64 res0 (k * b) 0
             ltac:(rewrite max_size_int64; unfold INT_MAX in *; lia))).
  rewrite (bind_Ok _ _ _ _ _ (float_index_Ok σ dim i)).
  unfold fits in Hfit. fold b in Hfit.
  pose proof (batch_start_eq dim i) as Hstart.
  destruct (search_impl_Ok σ b (batch_start dim i) res_dis
              (resize (Z.to_nat (k * b)) 0 res0) Hp)
    as (D & L & HD & HL & Hs); rewrite ?length_resize; try nia.
  clear Hkb.
  rewrite (bind_Ok _ _ _ _ _ Hs). cbn beta iota.
  set (σ' := logged σ _).
  set (res := L ++ drop (length L) (resize (Z.to_nat (k * b)) 0 res0)).
  assert (Hres : length res = Z.to_nat (k * b)).
  { subst res. rewrite length_app, length_drop, length_resize. lia. }
  rewrite (bind_Ok _ _ _ _ _ (vec_set_Ok σ' res_vec i res ltac:(lia))).
  destruct (fill_nodes_Ok σ' k b res i (Z.to_nat b) 0 graph)
    as (graph' & Hfill & Hlen & Hout & Hin);
    unfold batch_size, INT_MAX in *; try nia.
  change (0 * k) with 0 in Hfill.
  rewrite (bind_Ok _ _ _ _ _ Hfill).
  unfold ntotal in *.
  rewrite (bind_Ok _ _ _ _ _ (int_incr_Ok σ' i
             ltac:(unfold INT_MIN, INT_MAX; lia))).
  eexists _, _, graph'. split; [reflexivity|].
  split.
  { assert (Z.to_nat (b * k) ≤ length res_dis)%nat by nia.
    rewrite length_app, length_drop. lia. }
  split; [by rewrite length_insert|].
  split; [done|]. split.
  - intros idx Hidx. apply Hout. lia.
  - intros idx node Hidx Hlook.
    destruct (decide (Z.of_nat idx < 100 * i + b)) as [Hlt'|Hge].
    + apply (Hin idx); [lia|done].
    + rewrite lookup_ge_None_2 in Hlook; [done|].
      subst b. unfold batch_len, batch_size in *. lia.
Qed.


Lemma with_trace_nil σ : with_trace σ [] = σ.
Proof. unfold with_trace. rewrite app_nil_r. apply world_eta. Qed.

Lemma with_trace_logged σ e t :
  with_trace (logged σ e) t = with_trace σ (e :: t).
Proof. unfold logged, with_trace. cbn. by rewrite <- app_assoc. Qed.

Lemma points_to_with_trace σ t h :
  points_to σ h ix → points_to (with_trace σ t) h ix.
Proof. intros (l & ? & ?). by exists l. Qed.

(** The loop over the batches, when every batch lies within the dataset
    buffer: one search per batch, and every node from batch [i] on has
    length [k]. *)
Lemma search_batches_done fuel res_dis res_vec graph σ :
  search_batches fuel this k config p_data dim tail_batch_size
    total_search_count total_search_count res_dis res_vec graph σ
  = (Ok graph, σ).
Proof. destruct fuel; cbn; [done|]. by rewrite decide_False by lia. Qed.

Lemma search_batches_Ok : ∀ fuel i res_dis res_vec graph σ,
  points_to σ this ix →
  0 ≤ i ≤ total_search_count →
  total_search_count - i ≤ Z.of_nat fuel →
  Z.of_nat (length res_dis) = k * batch_size →
  Z.of_nat (length res_vec) = total_search_count →
  Z.of_nat (length graph) = ntotal →
  (∀ j, i ≤ j < total_search_count → fits p_data dim (idx_d ix) ntotal j) →
  ∃ graph',
    search_batches fuel this k config p_data dim tail_batch_size
      total_search_count i res_dis res_vec graph σ
    = (Ok graph',
       with_trace σ (search_events p_data dim (idx_d ix) ntotal k nprobe i
                       (Z.to_nat (total_search_count - i))))
    ∧ length graph' = length graph
    ∧ (∀ idx, Z.of_nat idx < batch_size * i → graph' !! idx = graph !! idx)
    ∧ (∀ idx node, batch_size * i ≤ Z.of_nat idx →
         graph' !! idx = Some node → Z.of_nat (length node) = k).
Proof.
  destruct total_search_count_spec as (_ & Htot & Hcover).
  assert (Hdone : ∀ (graph : Graph) σ,
    Z.of_nat (length graph) = ntotal →
    ∃ graph', (Ok graph, σ)
      = (Ok graph',
         with_trace σ (search_events p_data dim (idx_d ix) ntotal k nprobe
            total_search_count
            (Z.to_nat (total_search_count - total_search_count))))
    ∧ length graph' = length graph
    ∧ (∀ idx, Z.of_nat idx < batch_size * total_search_count →
         graph' !! idx = graph !! idx)
    ∧ (∀ idx node, batch_size * total_search_count ≤ Z.of_nat idx →
         graph' !! idx = Some node → Z.of_nat (length node) = k)).
  { intros graph σ Hgraph. rewrite Z.sub_diag. cbn. rewrite with_trace_nil.
    exists graph. do 3 (split; [done|]). intros idx node Hidx Hl.
    apply lookup_lt_Some in Hl. lia. }
  induction fuel as [|fuel IH];
    intros i res_dis res_vec graph σ Hp Hi Hfuel Hdis Hvec Hgraph Hfits.
  { assert (i = total_search_count) as -> by lia.
    rewrite search_batches_done. by apply Hdone. }
  destruct (decide (i = total_search_count)) as [->|Hne].
  { rewrite search_batches_done. by apply Hdone. }
  destruct (search_batches_step σ fuel i res_dis res_vec graph)
    as (res_dis' & res_vec' & graph1 & -> & Hl1 & Hl2 & Hl3 & Hout & Hin);
    try done; [lia|apply Hfits; lia|].
  destruct (IH (i + 1) res_dis' res_vec' graph1 (logged σ
      (EvSearch (batch_len ntotal i)
         (take (Z.to_nat (batch_len ntotal i * idx_d ix))
            (drop (Z.to_nat (batch_start dim i)) p_data)) k nprobe)))
    as (graph' & -> & Hlen & Hout' & Hin');
    try lia.
  { by apply points_to_with_trace. }
  { intros j Hj. apply Hfits. lia. }
  exists graph'. split.
  { rewrite with_trace_logged. do 2 f_equal.
    replace (Z.to_nat (total_search_count - i))
      with (S (Z.to_nat (total_search_count - (i + 1)))) by lia.
    done. }
  split; [lia|]. split.
  - intros idx Hidx. rewrite Hout' by (unfold batch_size in *; lia).
    apply Hout. lia.
  - intros idx node Hidx Hlook.
    destruct (decide (Z.of_nat idx < batch_size * (i + 1))) as [Hlt|Hge].
    + rewrite Hout' in Hlook by done. by apply (Hin idx).
    + apply (Hin' idx); [lia|done].
Qed.

(** One turn of the loop, when the batch reaches beyond the dataset
    buffer. *)
Lemma search_batches_beyond σ fuel i res_dis res_vec graph :
  points_to σ this ix →
  0 ≤ i < total_search_count →
  Z.of_nat (length res_vec) = total_search_count →
  ¬ fits p_data dim (idx_d ix) ntotal i →
  (search_batches (S fuel) this k config p_data dim tail_batch_size
     total_search_count i res_dis res_vec graph σ).1
  = Undefined OutOfBounds.
Proof.
  intros Hp Hi Hvec Hfit.
  destruct (b_size_batch_len i Hi) as (Hb & Hbr & Hbn & _).
  destruct k_range as [Hk0 Hkmax].
  cbn [search_batches]. rewrite decide_True by lia. rewrite Hb.
  assert (Hlt : (Z.to_nat i < length res_vec)%nat) by lia.
  destruct (lookup_lt_is_Some_2 _ _ Hlt) as [res0 Hres0].
  rewrite (bind_Ok _ _ _ _ _ (vec_get_Ok σ res_vec i res0 ltac:(lia) Hres0)).
  assert (Hkb : 0 ≤ k * batch_len ntotal i ≤ INT_MAX)
    by (unfold INT_MAX, batch_size in *; nia).
  rewrite (bind_Ok _ _ _ _ _ (int64_arith_Ok σ (k * batch_len ntotal i)
             ltac:(unfold INT64_MIN, INT64_MAX, INT_MAX in *; lia))).
  rewrite (bind_Ok _ _ _ _ _ (vector_resize_Ok σ sizeof_int64 res0
             (k * batch_len ntotal i) 0
             ltac:(rewrite max_size_int64; unfold INT_MAX in *; lia))).
  rewrite (bind_Ok _ _ _ _ _ (float_index_Ok σ dim i)).
  erewrite bind_Undefined; [done|].
  unfold search_impl.
  rewrite (bind_Ok _ _ _ _ _ (params_Ok σ)).
  rewrite (bind_Ok _ _ _ _ _ (get_index_points_to _ _ _ Hp)).
  erewrite bind_Undefined; [done|].
  apply read_floats_OutOfBounds. unfold fits in Hfit. lia.
Qed.

(** The loop over the batches, when the last batch reaches beyond the
    dataset buffer. *)
Lemma search_batches_OutOfBounds : ∀ fuel i res_dis res_vec graph σ,
  points_to σ this ix →
  0 ≤ i < total_search_count →
  total_search_count - i ≤ Z.of_nat fuel →
  Z.of_nat (length res_dis) = k * batch_size →
  Z.of_nat (length res_vec) = total_search_count →
  Z.of_nat (length graph) = ntotal →
  ¬ fits p_data dim (idx_d ix) ntotal (total_search_count - 1) →
  (search_batches fuel this k config p_data dim tail_batch_size
     total_search_count i res_dis res_vec graph σ).1
  = Undefined OutOfBounds.
Proof.
  induction fuel as [|fuel IH];
    intros i res_dis res_vec graph σ Hp Hi Hfuel Hdis Hvec Hgraph Hlast;
    [lia|].
  destruct (Z_le_dec (batch_start dim i + batch_len ntotal i * idx_d ix)
              (Z.of_nat (length p_data))) as [Hfit|Hfit].
  2:{ by apply search_batches_beyond. }
  destruct (search_batches_step σ fuel i res_dis res_vec graph)
    as (res_dis' & res_vec' & graph1 & -> & Hl1 & Hl2 & Hl3 & _);
    try done.
  assert (i ≠ total_search_count - 1) by (intros ->; done).
  apply IH; try lia; [|done].
  by apply points_to_with_trace.
Qed.


(** What the trace of the searches shows. *)

Lemma batches_of_length :
  Z.of_nat (length (batches_of ntotal)) = total_search_count.
Proof.
  unfold batches_of, total_search_count. rewrite tail_batch_size_mod.
  unfold ntotal. rewrite Z.quot_div_nonneg by (unfold batch_size; lia).
  pose proof (Z.div_pos (idx_ntotal ix) batch_size ltac:(lia)
                ltac:(unfold batch_size; lia)).
  rewrite length_app, length_replicate. case_decide; cbn; lia.
Qed.

Lemma batches_of_lookup i :
  0 ≤ i < total_search_count →
  batches_of ntotal !! Z.to_nat i = Some (batch_len ntotal i).
Proof.
  intros Hi. destruct (b_size_batch_len i Hi) as (Hb & _).
  rewrite <- Hb. clear Hb. revert Hi.
  unfold batches_of, total_search_count. rewrite tail_batch_size_mod.
  unfold ntotal. rewrite Z.quot_div_nonneg by (unfold batch_size; lia).
  pose proof (Z.div_pos (idx_ntotal ix) batch_size ltac:(lia)
                ltac:(unfold batch_size; lia)).
  intros Hi.
  destruct (decide (i < idx_ntotal ix / batch_size)) as [Hlt|Hge].
  - rewrite lookup_app_l by (rewrite length_replicate; lia).
    rewrite lookup_replicate_2 by lia.
    rewrite decide_False; [done|]. case_decide; lia.
  - rewrite lookup_app_r by (rewrite length_replicate; lia).
    rewrite length_replicate.
    case_decide as Hm; [lia|].
    rewrite decide_True by (split; [lia|done]).
    replace (Z.to_nat i - Z.to_nat (idx_ntotal ix / batch_size))%nat
      with 0%nat by lia.
    done.
Qed.

Lemma batch_sizes_search_events dim' d' : ∀ cnt i,
  0 ≤ i → i + Z.of_nat cnt = total_search_count →
  batch_sizes (search_events p_data dim' d' ntotal k nprobe i cnt)
  = drop (Z.to_nat i) (batches_of ntotal).
Proof.
  induction cnt as [|cnt IH]; intros i Hi Hcnt.
  - cbn. rewrite drop_ge; [done|]. pose proof batches_of_length. lia.
  - cbn [search_events]. unfold batch_sizes in *. cbn.
    rewrite (IH (i + 1)) by lia.
    rewrite (drop_S _ (batch_len ntotal i) (Z.to_nat i))
      by (apply batches_of_lookup; lia).
    by replace (Z.to_nat (i + 1)) with (S (Z.to_nat i)) by lia.
Qed.

(** GenGraph up to its loop. *)
Lemma GenGraph_unfold σ graph dataset t :
  points_to σ this ix →
  tensor dataset !! 0%nat = Some t →
  raw_data t = p_data → shape1 t = dim →
  GenGraph this k graph dataset config σ
  = search_batches (Z.to_nat total_search_count) this k config p_data dim
      tail_batch_size total_search_count 0
      (replicate (Z.to_nat (k * batch_size)) 0)
      (replicate (Z.to_nat total_search_count) [])
      (resize (Z.to_nat ntotal) [] graph) σ.
Proof.
  intros Hp Ht <- <-.
  destruct total_search_count_spec as (_ & Htot & _).
  destruct k_range as [Hk0 _].
  unfold GenGraph, GETTENSOR. rewrite Ht. unfold bind at 1. cbn [ret].
  rewrite (bind_Ok _ _ _ _ _ (Count_points_to _ _ _ Hp)).
  unfold vector_new.
  destruct k_range as [_ Hkmax].
  rewrite (bind_Ok _ _ _ _ _ (int64_arith_Ok σ (k * batch_size)
             ltac:(unfold INT64_MIN, INT64_MAX, INT_MAX, batch_size in *; lia))).
  rewrite (bind_Ok _ _ _ _ _ (vector_resize_Ok σ sizeof_float [] (k * batch_size) 0
             ltac:(rewrite max_size_float;
                   unfold INT_MAX, batch_size in *; lia))).
  rewrite (bind_Ok _ _ _ _ _ (vector_resize_Ok σ sizeof_vector graph
             (idx_ntotal ix) []
             ltac:(rewrite max_size_vector; unfold INT_MAX in *; lia))).
  fold ntotal. fold tail_batch_size. fold total_search_count.
  rewrite (bind_Ok _ _ _ _ _ (vector_resize_Ok σ sizeof_vector []
             total_search_count []
             ltac:(rewrite max_size_vector; unfold ntotal, INT_MAX in *; lia))).
  by rewrite !resize_nil.
Qed.

(** GenGraph when every batch lies within the dataset buffer. *)
Lemma GenGraph_Ok σ graph dataset t :
  points_to σ this ix →
  tensor dataset !! 0%nat = Some t →
  raw_data t = p_data → shape1 t = dim →
  (∀ j, 0 ≤ j < total_search_count → fits p_data dim (idx_d ix) ntotal j) →
  ∃ graph',
    GenGraph this k graph dataset config σ
    = (Ok graph',
       with_trace σ (search_events p_data dim (idx_d ix) ntotal k nprobe 0
                       (Z.to_nat total_search_count)))
    ∧ Z.of_nat (length graph') = ntotal
    ∧ Forall (λ node, Z.of_nat (length node) = k) graph'.
Proof.
  intros Hp Ht Hdata Hdim Hfits.
  destruct total_search_count_spec as (_ & Htot & _).
  destruct k_range as [Hk0 _].
  rewrite (GenGraph_unfold σ graph dataset t Hp Ht Hdata Hdim).
  destruct (search_batches_Ok (Z.to_nat total_search_count) 0
              (replicate (Z.to_nat (k * batch_size)) 0)
              (replicate (Z.to_nat total_search_count) [])
              (resize (Z.to_nat ntotal) [] graph) σ)
    as (graph' & Hrun & Hlen & _ & Hin);
    rewrite ?length_replicate, ?length_resize; unfold batch_size in *;
    unfold ntotal in *; try lia; try done.
  rewrite Z.sub_0_r in Hrun.
  exists graph'. split; [done|]. rewrite length_resize in Hlen.
  split; [lia|].
  apply Forall_lookup. intros idx node Hlook. apply (Hin idx); [lia|done].
Qed.

(** GenGraph when the last batch reaches beyond the dataset buffer. *)
Lemma GenGraph_OutOfBounds σ graph dataset t :
  points_to σ this ix →
  tensor dataset !! 0%nat = Some t →
  raw_data t = p_data → shape1 t = dim →
  0 < ntotal →
  ¬ fits p_data dim (idx_d ix) ntotal (total_search_count - 1) →
  (GenGraph this k graph dataset config σ).1 = Undefined OutOfBounds.
Proof.
  intros Hp Ht Hdata Hdim Hpos Hlast.
  destruct total_search_count_spec as (_ & Htot & Hcover).
  destruct k_range as [Hk0 _].
  rewrite (GenGraph_unfold σ graph dataset t Hp Ht Hdata Hdim).
  apply search_batches_OutOfBounds;
    rewrite ?length_replicate, ?length_resize; unfold batch_size in *;
    unfold ntotal in *; try lia; done.
Qed.


(** A dataset whose stride is the width of the index and that holds the
    rows the index counts. *)

Lemma GenGraph_within σ graph dataset t :
  points_to σ this ix →
  tensor dataset !! 0%nat = Some t →
  raw_data t = p_data → shape1 t = dim →
  dim = idx_d ix →
  ntotal * idx_d ix ≤ Z.of_nat (length p_data) →
  ∃ graph',
    (GenGraph this k graph dataset config σ).1 = Ok graph'
    ∧ heap (GenGraph this k graph dataset config σ).2 = heap σ
    ∧ Z.of_nat (length graph') = ntotal
    ∧ Forall (λ node, Z.of_nat (length node) = k) graph'
    ∧ batch_sizes (drop (length (trace σ))
                     (trace (GenGraph this k graph dataset config σ).2))
      = batches_of ntotal.
Proof.
  intros Hp Ht Hdata Hdim Hd Hlen.
  destruct total_search_count_spec as (_ & Htot & _).
  destruct (GenGraph_Ok σ graph dataset t Hp Ht Hdata Hdim)
    as (graph' & -> & Hl & Hall).
  { intros j Hj. destruct (b_size_batch_len j Hj) as (_ & Hbr & Hbn & _).
    unfold fits. rewrite batch_start_eq. unfold batch_size in *.
    rewrite Hd. nia. }
  exists graph'. cbn [fst snd with_trace heap trace].
  rewrite drop_app_length. do 4 (split; [done|]).
  rewrite batch_sizes_search_events by lia. done.
Qed.

(** An index of at most [batch_size] vectors is searched in one batch,
    taken at the start of the buffer: the search reads the first
    [ntotal * d] floats, and beyond the buffer when it holds fewer. *)
Lemma GenGraph_single_batch σ graph dataset t :
  points_to σ this ix →
  tensor dataset !! 0%nat = Some t →
  raw_data t = p_data → shape1 t = dim →
  ntotal ≤ batch_size →
  (ntotal * idx_d ix ≤ Z.of_nat (length p_data) →
     floats_read (drop (length (trace σ))
                    (trace (GenGraph this k graph dataset config σ).2))
     = take (Z.to_nat (ntotal * idx_d ix)) p_data)
  ∧ (Z.of_nat (length p_data) < ntotal * idx_d ix →
       (GenGraph this k graph dataset config σ).1 = Undefined OutOfBounds).
Proof.
  intros Hp Ht Hdata Hdim Hone.
  destruct total_search_count_spec as (Hcount & Htot & Hcover).
  assert (Hone' : total_search_count ≤ 1).
  { rewrite Hcount. unfold batch_count, batch_size in *.
    change (100 - 1) with 99.
    pose proof (Z.div_mod (ntotal + 99) 100 ltac:(lia)).
    pose proof (Z.mod_pos_bound (ntotal + 99) 100 ltac:(lia)). lia. }
  clear Hcount.
  assert (Hlen0 : batch_len ntotal 0 = ntotal)
    by (unfold batch_len, batch_size in *; lia).
  assert (Hstart0 : batch_start dim 0 = 0)
    by (rewrite batch_start_eq; lia).
  split; intros Hlen.
  - destruct (GenGraph_Ok σ graph dataset t Hp Ht Hdata Hdim)
      as (graph' & -> & _).
    { intros j Hj. assert (j = 0) as -> by (unfold batch_size in *; lia).
      unfold fits. rewrite Hstart0, Hlen0. lia. }
    cbn [fst snd with_trace trace]. rewrite drop_app_length.
    destruct (decide (total_search_count = 0)) as [E|NE].
    + rewrite E. change (Z.to_nat 0) with 0%nat. cbn [search_events].
      replace (Z.to_nat (ntotal * idx_d ix)) with 0%nat; [done|].
      unfold ntotal, batch_size in *. nia.
    + replace (Z.to_nat total_search_count) with 1%nat
        by (unfold batch_size in *; lia).
      cbn [search_events]. unfold floats_read. cbn.
      rewrite Hstart0, Hlen0, app_nil_r. by rewrite drop_0.
  - assert (Hpos : 0 < ntotal) by (unfold ntotal in *; nia).
    apply (GenGraph_OutOfBounds σ graph dataset t Hp Ht Hdata Hdim Hpos).
    replace (total_search_count - 1) with 0
      by (unfold batch_size in *; lia).
    unfold fits. rewrite Hstart0, Hlen0. lia.
Qed.

End GenGraph_runs.

Lemma batches_of_count n :
  0 ≤ n → Z.of_nat (length (batches_of n)) = batch_count n.
Proof.
  intros Hn. unfold batches_of, batch_count, batch_size.
  change (100 - 1) with 99.
  pose proof (Z.div_mod n 100 ltac:(lia)).
  pose proof (Z.mod_pos_bound n 100 ltac:(lia)).
  pose proof (Z.div_mod (n + 99) 100 ltac:(lia)).
  pose proof (Z.mod_pos_bound (n + 99) 100 ltac:(lia)).
  rewrite length_app, length_replicate. case_decide; cbn; lia.
Qed.

Lemma batches_of_sizes n :
  0 ≤ n →
  ∀ i b, batches_of n !! i = Some b →
    0 < b ≤ batch_size
    ∧ (b < batch_size → S i = length (batches_of n)).
Proof.
  intros Hn i b. unfold batches_of, batch_size.
  pose proof (Z.mod_pos_bound n 100 ltac:(lia)).
  intros Hl. apply lookup_app_Some in Hl as [Hl|[Hge Hl]].
  - apply lookup_replicate in Hl as [-> _]. lia.
  - rewrite length_replicate in *. case_decide; [done|].
    apply list_lookup_singleton_Some in Hl as [Hi <-].
    split; [lia|]. intros _. rewrite length_app, length_replicate. cbn. lia.
Qed.



Lemma GenParams_nprobe_of config nprobe :
  nprobe_of config = Some nprobe → ∀ σ, GenParams config σ = (Ok nprobe, σ).
Proof.
  unfold nprobe_of, GenParams. intros H σ.
  destruct (config !! "nprobe") as [[s|z]|]; cbn; unfold ret; congruence.
Qed.

(** A negative [k] is refused by the first vector that is sized with it,
    when the size is an [int64_t]. *)
Lemma GenGraph_negative_k σ this ix k graph dataset t config :
  points_to σ this ix →
  tensor dataset !! 0%nat = Some t →
  k < 0 → INT64_MIN ≤ k * batch_size →
  GenGraph this k graph dataset config σ = (Throw StdLengthError, σ).
Proof.
  intros Hp Ht Hk Hmin. unfold GenGraph, GETTENSOR. rewrite Ht.
  unfold bind at 1. cbn [ret].
  rewrite (bind_Ok _ _ _ _ _ (Count_points_to _ _ _ Hp)).
  rewrite (bind_Ok _ _ _ _ _ (int64_arith_Ok σ (k * batch_size)
             ltac:(unfold INT64_MAX, batch_size in *; lia))).
  unfold vector_new, vector_resize, bind.
  rewrite decide_False; [done|]. unfold batch_size. lia.
Qed.

(** A size beyond [max_size()] is refused in the same place. *)
Lemma GenGraph_large_k σ this ix k graph dataset t config :
  points_to σ this ix →
  tensor dataset !! 0%nat = Some t →
  max_size sizeof_float < k * batch_size ≤ INT64_MAX →
  GenGraph this k graph dataset config σ = (Throw StdLengthError, σ).
Proof.
  intros Hp Ht Hk. unfold GenGraph, GETTENSOR. rewrite Ht.
  unfold bind at 1. cbn [ret].
  rewrite (bind_Ok _ _ _ _ _ (Count_points_to _ _ _ Hp)).
  rewrite max_size_float in Hk.
  rewrite (bind_Ok _ _ _ _ _ (int64_arith_Ok σ (k * batch_size)
             ltac:(unfold INT64_MIN, INT64_MAX, batch_size in *; lia))).
  unfold vector_new, vector_resize, bind.
  rewrite decide_False; [done|]. rewrite max_size_float. lia.
Qed.

(** A product of [k] and the batch size beyond [int64_t] is undefined. *)
Lemma GenGraph_overflow_k σ this ix k graph dataset t config :
  points_to σ this ix →
  tensor dataset !! 0%nat = Some t →
  ¬ (INT64_MIN ≤ k * batch_size ≤ INT64_MAX) →
  GenGraph this k graph dataset config σ = (Undefined SignedOverflow, σ).
Proof.
  intros Hp Ht Hk. unfold GenGraph, GETTENSOR. rewrite Ht.
  unfold bind at 1. cbn [ret].
  rewrite (bind_Ok _ _ _ _ _ (Count_points_to _ _ _ Hp)).
  unfold int64_arith, bind. by rewrite decide_False.
Qed.

(** C4, as the code has it.  The graph has one entry per vector counted by
    the index, not per row of the dataset.  On an index that counts N
    vectors, with a dataset of the width of the index and at least N rows,
    for k from 0 on and all counters within [int], GenGraph returns a
    graph of length N whose entries have length k, from one search per
    batch: the batches cover N vectors, there are ceil(N/100) of them,
    each of 100 queries except a shorter last one. *)
Theorem GenGraph_graph_of_Count σ this ix k graph dataset t config nprobe :
  points_to σ this ix →
  tensor dataset !! 0%nat = Some t →
  shape1 t = idx_d ix →
  0 ≤ idx_d ix →
  Z.of_nat (length (raw_data t)) = shape0 t * shape1 t →
  idx_ntotal ix ≤ shape0 t →
  nprobe_of config = Some nprobe →
  0 ≤ k ∧ k * batch_size ≤ INT_MAX →
  0 ≤ idx_ntotal ix ≤ INT_MAX →
  search_contract ix k nprobe →
  let r := GenGraph this k graph dataset config σ in
  ∃ g, r.1 = Ok g
    ∧ Z.of_nat (length g) = idx_ntotal ix
    ∧ Forall (λ node, Z.of_nat (length node) = k) g
    ∧ batch_sizes (drop (length (trace σ)) (trace r.2))
      = batches_of (idx_ntotal ix)
    ∧ Z.of_nat (length (batches_of (idx_ntotal ix)))
      = batch_count (idx_ntotal ix)
    ∧ ∀ i b, batches_of (idx_ntotal ix) !! i = Some b →
        0 < b ≤ batch_size
        ∧ (b < batch_size → S i = length (batches_of (idx_ntotal ix))).
Proof.
  intros Hp Ht Hdim Hd Hwf Hrows Hnp Hk Hn Hs r. subst r.
  destruct (GenGraph_within this ix k config nprobe (raw_data t) (shape1 t)
              (GenParams_nprobe_of _ _ Hnp) Hk Hn Hd ltac:(lia) Hs
              σ graph dataset t Hp Ht eq_refl eq_refl Hdim)
    as (g & Hg & _ & Hlen & Hall & Hb).
  { rewrite Hwf, Hdim. nia. }
  exists g. do 4 (split; [done|]).
  split; [apply batches_of_count; lia|apply batches_of_sizes; lia].
Qed.

End Properties.

(* ===================================================================== *)
(** ** Further properties of the adapter *)
(* ===================================================================== *)

Section Further.
Context `{FM : Faiss} `{GM : !GpuResourceMgr}.

Implicit Types (σ : World) (this : IVF) (ix : Index).

(** *** What Search and GenGraph never do *)

Lemma read_only_ret {A} (a : A) : read_only (ret a).
Proof. by intros σ. Qed.

Lemma read_only_throw {A} e : read_only (throw (A:=A) e).
Proof. by intros σ. Qed.

Lemma read_only_undefined {A} u : read_only (undefined (A:=A) u).
Proof. by intros σ. Qed.

Lemma read_only_emit e : read_only (emit e).
Proof. by intros σ. Qed.

Lemma read_only_bind {A B} (m : M A) (f : A → M B) :
  read_only m → (∀ a, read_only (f a)) → read_only (bind m f).
Proof.
  intros Hm Hf σ. unfold bind. specialize (Hm σ).
  destruct (m σ) as [[a|e|u] σ']; cbn in *; [|done..].
  destruct (Hf a σ') as [-> ->]. done.
Qed.

Lemma read_only_lift {A} (r : Exception + A) : read_only (lift r).
Proof. destruct r; [apply read_only_throw|apply read_only_ret]. Qed.

Lemma read_only_deref l : read_only (deref l).
Proof. intros σ. unfold deref. by destruct (heap σ !! l). Qed.

Lemma read_only_get_index p : read_only (get_index p).
Proof. destruct p; [apply read_only_deref|apply read_only_undefined]. Qed.

Lemma read_only_guard p : read_only (not_initialized_or_trained p).
Proof.
  destruct p; cbn; [|apply read_only_ret].
  apply read_only_bind; [apply read_only_deref|]. intros; apply read_only_ret.
Qed.

Lemma read_only_read_floats p off len : read_only (read_floats p off len).
Proof.
  unfold read_floats. case_decide; [apply read_only_ret|apply read_only_undefined].
Qed.

Lemma read_only_write_buf {A} (buf out : list A) : read_only (write_buf buf out).
Proof.
  unfold write_buf. case_decide; [apply read_only_ret|apply read_only_undefined].
Qed.

Lemma read_only_vec_get {A} (v : list A) i : read_only (vec_get v i).
Proof.
  unfold vec_get. case_decide; [|apply read_only_undefined].
  destruct (v !! Z.to_nat i); [apply read_only_ret|apply read_only_undefined].
Qed.

Lemma read_only_vec_set {A} (v : list A) i x : read_only (vec_set v i x).
Proof.
  unfold vec_set. case_decide; [apply read_only_ret|apply read_only_undefined].
Qed.

Lemma read_only_vector_resize {A} size (v : list A) n x :
  read_only (vector_resize size v n x).
Proof.
  unfold vector_resize. case_decide; [apply read_only_ret|apply read_only_throw].
Qed.

Lemma read_only_int_arith z : read_only (int_arith z).
Proof.
  unfold int_arith. case_decide; [apply read_only_ret|apply read_only_undefined].
Qed.

Lemma read_only_int64_arith z : read_only (int64_arith z).
Proof.
  unfold int64_arith.
  case_decide; [apply read_only_ret|apply read_only_undefined].
Qed.

Lemma read_only_float_index off : read_only (float_index off).
Proof.
  unfold float_index.
  case_decide; [apply read_only_ret|apply read_only_undefined].
Qed.

Lemma read_only_malloc bytes size : read_only (malloc bytes size).
Proof.
  unfold malloc. apply read_only_bind; [apply read_only_emit|].
  intros; apply read_only_ret.
Qed.

Lemma read_only_config_at config key : read_only (config_at config key).
Proof.
  unfold config_at.
  destruct (config !! key); [apply read_only_ret|apply read_only_throw].
Qed.

Lemma read_only_as_size_t key j : read_only (as_size_t key j).
Proof. destruct j; [apply read_only_throw|apply read_only_ret]. Qed.

Lemma read_only_GETTENSOR dataset : read_only (GETTENSOR dataset).
Proof.
  unfold GETTENSOR.
  destruct (tensor dataset !! 0%nat); [apply read_only_ret|apply read_only_undefined].
Qed.

Lemma read_only_GenParams config : read_only (GenParams config).
Proof.
  unfold GenParams.
  destruct (config !! "nprobe"); [apply read_only_as_size_t|apply read_only_ret].
Qed.

Create HintDb read_only discriminated.
#[local] Hint Resolve read_only_ret read_only_throw read_only_undefined
  read_only_emit read_only_lift read_only_deref read_only_get_index
  read_only_guard read_only_read_floats read_only_write_buf
  read_only_vec_get read_only_vec_set read_only_vector_resize
  read_only_int_arith read_only_int64_arith read_only_float_index
  read_only_malloc read_only_config_at
  read_only_as_size_t read_only_GETTENSOR read_only_GenParams : read_only.

Ltac read_only_steps :=
  repeat first
    [ solve [eauto with read_only]
    | apply read_only_bind;
        [|intros ?;
          repeat match goal with x : (_ * _)%type |- _ => destruct x end]
    | case_decide
    | match goal with
      | |- read_only (if ?b then _ else _) => destruct b
      end ].

Lemma read_only_search_impl this n data off k dis lab cfg :
  read_only (search_impl this n data off k dis lab cfg).
Proof. unfold search_impl. read_only_steps. Qed.

Lemma read_only_Count this : read_only (Count this).
Proof. unfold Count. read_only_steps. Qed.

Lemma read_only_copy_row k lim res : ∀ fuel m tmp node,
  read_only (copy_row fuel k lim res m tmp node).
Proof.
  induction fuel as [|fuel IH]; intros m tmp node; cbn [copy_row];
    unfold int_incr; read_only_steps.
Qed.

Lemma read_only_fill_nodes k b_size res i : ∀ fuel j tmp graph,
  read_only (fill_nodes fuel k b_size res i j tmp graph).
Proof.
  induction fuel as [|fuel IH]; intros j tmp graph; cbn [fill_nodes];
    unfold int_incr;
    repeat first
      [ solve [eauto using read_only_copy_row with read_only]
      | apply read_only_bind;
          [|intros ?;
            repeat match goal with x : (_ * _)%type |- _ => destruct x end]
      | case_decide ].
Qed.

Lemma read_only_search_batches this k config p_data dim tail total :
  ∀ fuel i res_dis res_vec graph,
  read_only (search_batches fuel this k config p_data dim tail total i
               res_dis res_vec graph).
Proof.
  induction fuel as [|fuel IH]; intros i res_dis res_vec graph;
    cbn [search_batches]; unfold int_incr;
    repeat first
      [ solve [eauto using read_only_search_impl, read_only_fill_nodes
                 with read_only]
      | apply read_only_bind;
          [|intros ?;
            repeat match goal with x : (_ * _)%type |- _ => destruct x end]
      | case_decide ].
Qed.

Lemma read_only_Search this dataset config :
  read_only (Search this dataset config).
Proof.
  unfold Search.
  repeat first
    [ solve [eauto using read_only_search_impl with read_only]
    | apply read_only_bind;
        [|intros ?;
          repeat match goal with x : (_ * _)%type |- _ => destruct x end]
    | match goal with
      | |- read_only (if ?b then _ else _) => destruct b
      end ].
Qed.

Lemma read_only_GenGraph this k graph dataset config :
  read_only (GenGraph this k graph dataset config).
Proof.
  unfold GenGraph, vector_new.
  repeat first
    [ solve [eauto using read_only_search_batches, read_only_Count
               with read_only]
    | apply read_only_bind;
        [|intros ?;
          repeat match goal with x : (_ * _)%type |- _ => destruct x end] ].
Qed.

(** X1.  Search never changes an index object or the pool, whatever its
    input and its outcome: every handle answers Count and Dimension after
    it as before. *)
Theorem Search_changes_nothing σ this dataset config :
  heap (Search this dataset config σ).2 = heap σ
  ∧ pool (Search this dataset config σ).2 = pool σ
  ∧ ∀ h, (Count h (Search this dataset config σ).2).1 = (Count h σ).1
       ∧ (Dimension h (Search this dataset config σ).2).1
         = (Dimension h σ).1.
Proof.
  destruct (read_only_Search this dataset config σ) as [Hh Hp].
  do 2 (split; [done|]). intros h.
  destruct (Search this dataset config σ) as [r σ']. cbn in *.
  unfold Count, Dimension, bind, get_index.
  destruct (index_ h) as [l|]; [|done].
  unfold deref. rewrite Hh. by destruct (heap σ !! l).
Qed.

(** X2.  GenGraph never changes an index object or the pool, whatever its
    input and its outcome. *)
Theorem GenGraph_changes_nothing σ this k graph dataset config :
  heap (GenGraph this k graph dataset config σ).2 = heap σ
  ∧ pool (GenGraph this k graph dataset config σ).2 = pool σ.
Proof. apply read_only_GenGraph. Qed.

(** *** The run of Search *)

Lemma to_size_t_small z : 0 ≤ z < 2 ^ 64 → to_size_t z = z.
Proof. intros. unfold to_size_t. by apply Z.mod_small. Qed.

Lemma to_int64_small z : 0 ≤ z < 2 ^ 63 → to_int64 z = z.
Proof.
  intros. unfold to_int64. rewrite Z.mod_small; lia.
Qed.

Lemma search_impl_run σ this ix n data off k dis lab cfg nprobe :
  points_to σ this ix →
  nprobe_of cfg = Some nprobe →
  0 ≤ off → 0 ≤ n * idx_d ix →
  off + n * idx_d ix ≤ Z.of_nat (length data) →
  let x := take (Z.to_nat (n * idx_d ix)) (drop (Z.to_nat off) data) in
  search_impl this n data off k dis lab cfg σ
  = match search_with_parameters ix n x k nprobe with
    | inl e => (Throw e, logged σ (EvSearch n x k nprobe))
    | inr (D, L) =>
        (let* distances := write_buf dis D in
         let* labels := write_buf lab L in
         ret (distances, labels)) (logged σ (EvSearch n x k nprobe))
    end.
Proof.
  intros Hp Hnp Hoff Hlen Hfit x. unfold search_impl.
  rewrite (bind_Ok _ _ _ _ _ (GenParams_nprobe_of _ _ Hnp σ)).
  rewrite (bind_Ok _ _ _ _ _ (get_index_points_to _ _ _ Hp)).
  rewrite (bind_Ok _ _ _ _ _ (read_floats_Ok σ data off _ Hoff Hlen Hfit)).
  fold x. unfold bind at 1. cbn [emit]. fold (logged σ (EvSearch n x k nprobe)).
  destruct (search_with_parameters ix n x k nprobe) as [e|[D L]]; cbn [lift].
  - done.
  - unfold bind at 1. cbn [ret]. done.
Qed.

(** Search on a trained index up to the call of the search engine. *)
Lemma Search_unfold σ this ix dataset config t kz :
  points_to σ this ix → idx_is_trained ix = true →
  config !! "k" = Some (JInt kz) →
  tensor dataset !! 0%nat = Some t →
  0 ≤ kz < 2 ^ 63 →
  0 ≤ shape0 t * kz → 8 * (shape0 t * kz) < 2 ^ 64 →
  let elems := shape0 t * kz in
  Search this dataset config σ
  = (let* (res_dis, res_ids) :=
       search_impl this (shape0 t) (raw_data t) 0 kz
         (replicate (Z.to_nat elems) 0) (replicate (Z.to_nat elems) 0)
         config in
     ret {| array := [Int64Array (take (Z.to_nat elems) res_ids);
                      FloatArray (take (Z.to_nat elems) res_dis)];
            tensor := [] |})
      (with_trace σ [EvMalloc (8 * elems); EvMalloc (4 * elems)]).
Proof.
  intros Hp Htr Hk Ht Hkz Hel Hel8 elems.
  assert (Hg := guard_points_to _ _ _ Hp). rewrite Htr in Hg.
  unfold Search. rewrite (bind_Ok _ _ _ _ _ Hg). cbn [negb].
  unfold config_at. rewrite Hk. unfold bind at 1. cbn [ret].
  unfold as_size_t. unfold bind at 1. cbn [ret].
  unfold GETTENSOR. rewrite Ht. unfold bind at 1. cbn [ret].
  rewrite (to_size_t_small kz) by lia.
  rewrite (to_int64_small kz) by lia.
  fold elems. rewrite (to_size_t_small elems) by (subst elems; lia).
  rewrite (to_size_t_small (8 * elems)) by (subst elems; lia).
  rewrite (to_size_t_small (4 * elems)) by (subst elems; lia).
  unfold malloc. unfold bind at 1. unfold bind at 1. cbn [emit ret].
  unfold bind at 1. unfold bind at 1. cbn [emit ret trace heap pool].
  replace (8 * elems / 8) with elems by (rewrite Z.mul_comm, Z.div_mul; lia).
  replace (4 * elems / 4) with elems by (rewrite Z.mul_comm, Z.div_mul; lia).
  unfold with_trace. by rewrite <- app_assoc.
Qed.

(** X3.  The run of Search on a trained index, for a configuration with k
    and a query tensor that holds rows times the index width floats: it
    allocates the two result buffers of 8 and 4 bytes per result and calls
    the search engine once on all rows with nprobe from the configuration
    (1 when absent).  If the engine raises, Search raises the same
    exception; if it answers rows * k results, Search returns the ids
    array and the distances array exactly as the engine wrote them. *)
Theorem Search_run σ this ix dataset config t kz nprobe :
  points_to σ this ix → idx_is_trained ix = true →
  config !! "k" = Some (JInt kz) →
  tensor dataset !! 0%nat = Some t →
  nprobe_of config = Some nprobe →
  0 ≤ shape0 t → 0 ≤ kz < 2 ^ 63 → 8 * (shape0 t * kz) < 2 ^ 64 →
  0 ≤ idx_d ix →
  shape0 t * idx_d ix ≤ Z.of_nat (length (raw_data t)) →
  let x := take (Z.to_nat (shape0 t * idx_d ix)) (raw_data t) in
  let σ' := with_trace σ [EvMalloc (8 * (shape0 t * kz));
                          EvMalloc (4 * (shape0 t * kz));
                          EvSearch (shape0 t) x kz nprobe] in
  (∀ e, search_with_parameters ix (shape0 t) x kz nprobe = inl e →
     Search this dataset config σ = (Throw e, σ'))
  ∧ (∀ D L, search_with_parameters ix (shape0 t) x kz nprobe = inr (D, L) →
       length D = Z.to_nat (shape0 t * kz) →
       length L = Z.to_nat (shape0 t * kz) →
       Search this dataset config σ
       = (Ok {| array := [Int64Array L; FloatArray D]; tensor := [] |}, σ')).
Proof.
  intros Hp Htr Hk Ht Hnp Hrows Hkz Hel Hd Hfit x σ'.
  assert (Hun := Search_unfold σ this ix dataset config t kz Hp Htr Hk Ht Hkz
                   ltac:(nia) Hel).
  cbv zeta in Hun. rewrite Hun. clear Hun.
  set (σ1 := with_trace σ _).
  assert (Hp1 : points_to σ1 this ix) by (by apply points_to_with_trace).
  assert (Hrun := search_impl_run σ1 this ix (shape0 t) (raw_data t) 0 kz
            (replicate (Z.to_nat (shape0 t * kz)) 0)
            (replicate (Z.to_nat (shape0 t * kz)) 0) config nprobe Hp1 Hnp
            ltac:(lia) ltac:(nia) ltac:(lia)).
  cbv zeta in Hrun. rewrite drop_0 in Hrun. fold x in Hrun.
  assert (Hσ' : logged σ1 (EvSearch (shape0 t) x kz nprobe) = σ').
  { subst σ1 σ'. unfold logged, with_trace. cbn. by rewrite <- app_assoc. }
  rewrite Hσ' in Hrun. split.
  - intros e He. rewrite He in Hrun. unfold bind. by rewrite Hrun.
  - intros D L HDL HD HL. rewrite HDL in Hrun.
    unfold bind at 1. rewrite Hrun. clear Hrun.
    assert (HD' : (length D ≤ length (replicate (Z.to_nat (shape0 t * kz)) 0%Z))%nat)
      by (rewrite length_replicate; lia).
    assert (HL' : (length L ≤ length (replicate (Z.to_nat (shape0 t * kz)) 0%Z))%nat)
      by (rewrite length_replicate; lia).
    rewrite (bind_Ok _ _ _ _ _ (write_buf_Ok σ' _ D HD')).
    rewrite (bind_Ok _ _ _ _ _ (write_buf_Ok σ' _ L HL')).
    cbn [ret].
    rewrite (take_app_length' L) by done.
    by rewrite (take_app_length' D) by done.
Qed.

(** X4.  Search on a trained index whose configuration has no k raises the
    exception of the missing key; nothing has been allocated and the world
    is unchanged. *)
Theorem Search_missing_k σ this ix dataset config :
  points_to σ this ix → idx_is_trained ix = true →
  config !! "k" = None →
  Search this dataset config σ = (Throw (JsonException "k"), σ).
Proof.
  intros Hp Htr Hk.
  assert (Hg := guard_points_to _ _ _ Hp). rewrite Htr in Hg.
  unfold Search. rewrite (bind_Ok _ _ _ _ _ Hg). cbn [negb].
  unfold config_at. by rewrite Hk.
Qed.

(** X5.  Search does not check the width of the query tensor.  It never
    reads the stated width: two datasets that differ only there are
    searched alike, the buffer being cut into rows of the width of the
    index.  When the buffer holds fewer than rows times the index width
    floats, Search reads beyond it, after both result buffers have been
    allocated. *)
Theorem Search_width_unchecked σ this ix dataset config t kz nprobe :
  (∀ w, Search this (with_width dataset w) config σ
        = Search this dataset config σ)
  ∧ (points_to σ this ix → idx_is_trained ix = true →
     config !! "k" = Some (JInt kz) →
     tensor dataset !! 0%nat = Some t →
     nprobe_of config = Some nprobe →
     0 ≤ shape0 t → 0 ≤ kz < 2 ^ 63 → 8 * (shape0 t * kz) < 2 ^ 64 →
     Z.of_nat (length (raw_data t)) < shape0 t * idx_d ix →
     Search this dataset config σ
     = (Undefined OutOfBounds,
        with_trace σ [EvMalloc (8 * (shape0 t * kz));
                      EvMalloc (4 * (shape0 t * kz))])).
Proof.
  split.
  - intros w. unfold Search, GETTENSOR, with_width. cbn [tensor].
    by destruct (tensor dataset) as [|t0 ts].
  - intros Hp Htr Hk Ht Hnp Hrows Hkz Hel Hshort.
    assert (Hun := Search_unfold σ this ix dataset config t kz Hp Htr Hk Ht
                     Hkz ltac:(nia) Hel).
    cbv zeta in Hun. rewrite Hun. clear Hun.
    set (σ1 := with_trace σ _).
    assert (Hp1 : points_to σ1 this ix) by (by apply points_to_with_trace).
    erewrite bind_Undefined; [done|].
    unfold search_impl.
    rewrite (bind_Ok _ _ _ _ _ (GenParams_nprobe_of _ _ Hnp σ1)).
    rewrite (bind_Ok _ _ _ _ _ (get_index_points_to _ _ _ Hp1)).
    erewrite bind_Undefined; [done|].
    apply read_floats_OutOfBounds. lia.
Qed.

(** *** The runs of Add and AddWithoutIds *)

Lemma guard_trained σ this l ix :
  index_ this = Some l → heap σ !! l = Some ix → idx_is_trained ix = true →
  not_initialized_or_trained (index_ this) σ = (Ok false, σ).
Proof.
  intros Hl Hh Htr.
  assert (Hg := guard_points_to σ this ix ltac:(by exists l)).
  by rewrite Htr in Hg.
Qed.

(** X6.  The run of Add on a trained index: faiss is handed the first rows
    ids of the first array and the first rows times the index width floats
    of the tensor.  If faiss raises, Add raises the same exception and
    every index object is as before; otherwise the object of the handle,
    and only that object, takes the value faiss returns. *)
Theorem Add_run σ this l ix dataset config t ids :
  index_ this = Some l → heap σ !! l = Some ix → idx_is_trained ix = true →
  tensor dataset !! 0%nat = Some t →
  array dataset !! 0%nat = Some (Int64Array ids) →
  0 ≤ shape0 t * idx_d ix ≤ Z.of_nat (length (raw_data t)) →
  0 ≤ shape0 t ≤ Z.of_nat (length ids) →
  let x := take (Z.to_nat (shape0 t * idx_d ix)) (raw_data t) in
  let ids' := take (Z.to_nat (shape0 t)) ids in
  (∀ e, index_add_with_ids ix (shape0 t) x ids' = inl e →
     Add this dataset config σ = (Throw e, logged σ (EvAdd (shape0 t))))
  ∧ (∀ ix', index_add_with_ids ix (shape0 t) x ids' = inr ix' →
       Add this dataset config σ
       = (Ok tt, {| heap := <[l := ix']> (heap σ); pool := pool σ;
                    trace := trace σ ++ [EvAdd (shape0 t)] |})).
Proof.
  intros Hl Hh Htr Ht Ha Hfit Hids x ids'.
  assert (Hrun : Add this dataset config σ
    = (let* ix' := lift (index_add_with_ids ix (shape0 t) x ids') in
       store l ix') (logged σ (EvAdd (shape0 t)))).
  { unfold Add. rewrite (bind_Ok _ _ _ _ _ (guard_trained _ _ _ _ Hl Hh Htr)).
    unfold GETTENSOR. rewrite Ht. unfold bind at 1. cbn [ret].
    rewrite (bind_Ok _ _ _ _ _ (vec_get_Ok σ (array dataset) 0 _
               ltac:(lia) Ha)).
    cbn [GetValues_long].
    rewrite Hl. unfold faiss_add_with_ids.
    unfold deref at 1. unfold bind at 1. rewrite Hh.
    rewrite (bind_Ok _ _ _ _ _ (read_floats_Ok σ (raw_data t) 0
               (shape0 t * idx_d ix) ltac:(lia) ltac:(lia) ltac:(lia))).
    rewrite drop_0. fold x.
    unfold read_ids. rewrite decide_True by lia.
    unfold bind at 1. cbn [ret]. fold ids'.
    unfold bind at 1. cbn [emit]. done. }
  rewrite Hrun. split.
  - intros e ->. done.
  - intros ix' ->. unfold bind. cbn. unfold with_trace. done.
Qed.

(** X7.  The run of AddWithoutIds on a trained index: it never looks at
    the arrays of the dataset, and hands faiss the first rows times the
    index width floats of the tensor.  If faiss raises, it raises the same
    exception and every index object is as before; otherwise only the
    object of the handle changes. *)
Theorem AddWithoutIds_run σ this l ix dataset config t :
  index_ this = Some l → heap σ !! l = Some ix → idx_is_trained ix = true →
  tensor dataset !! 0%nat = Some t →
  0 ≤ shape0 t * idx_d ix ≤ Z.of_nat (length (raw_data t)) →
  let x := take (Z.to_nat (shape0 t * idx_d ix)) (raw_data t) in
  (∀ arrays,
     AddWithoutIds this {| array := arrays; tensor := tensor dataset |}
       config σ
     = AddWithoutIds this dataset config σ)
  ∧ (∀ e, index_add ix (shape0 t) x = inl e →
       AddWithoutIds this dataset config σ
       = (Throw e, logged σ (EvAdd (shape0 t))))
  ∧ (∀ ix', index_add ix (shape0 t) x = inr ix' →
       AddWithoutIds this dataset config σ
       = (Ok tt, {| heap := <[l := ix']> (heap σ); pool := pool σ;
                    trace := trace σ ++ [EvAdd (shape0 t)] |})).
Proof.
  intros Hl Hh Htr Ht Hfit x.
  split; [done|].
  assert (Hrun : AddWithoutIds this dataset config σ
    = (let* ix' := lift (index_add ix (shape0 t) x) in
       store l ix') (logged σ (EvAdd (shape0 t)))).
  { unfold AddWithoutIds.
    rewrite (bind_Ok _ _ _ _ _ (guard_trained _ _ _ _ Hl Hh Htr)).
    unfold GETTENSOR. rewrite Ht. unfold bind at 1. cbn [ret].
    rewrite Hl. unfold faiss_add.
    unfold deref at 1. unfold bind at 1. rewrite Hh.
    rewrite (bind_Ok _ _ _ _ _ (read_floats_Ok σ (raw_data t) 0
               (shape0 t * idx_d ix) ltac:(lia) ltac:(lia) ltac:(lia))).
    rewrite drop_0. fold x.
    unfold bind at 1. cbn [emit]. done. }
  rewrite Hrun. split.
  - intros e ->. done.
  - intros ix' ->. unfold bind. cbn. done.
Qed.

(** X8.  Add does not check that there is one id per row.  On a trained
    index, with a dataset that has no array, or whose first array holds
    fewer ids than the tensor has rows, Add reads out of bounds instead of
    raising. *)
Theorem Add_ids_unchecked σ this l ix dataset config t :
  index_ this = Some l → heap σ !! l = Some ix → idx_is_trained ix = true →
  tensor dataset !! 0%nat = Some t →
  0 ≤ shape0 t * idx_d ix ≤ Z.of_nat (length (raw_data t)) →
  (array dataset = []
   ∨ ∃ ids, array dataset !! 0%nat = Some (Int64Array ids)
            ∧ Z.of_nat (length ids) < shape0 t) →
  Add this dataset config σ = (Undefined OutOfBounds, σ).
Proof.
  intros Hl Hh Htr Ht Hfit Hbad.
  unfold Add. rewrite (bind_Ok _ _ _ _ _ (guard_trained _ _ _ _ Hl Hh Htr)).
  unfold GETTENSOR. rewrite Ht. unfold bind at 1. cbn [ret].
  destruct Hbad as [Hnil|(ids & Ha & Hshort)].
  - unfold vec_get, bind. rewrite Hnil. done.
  - rewrite (bind_Ok _ _ _ _ _ (vec_get_Ok σ (array dataset) 0 _
               ltac:(lia) Ha)).
    cbn [GetValues_long].
    rewrite Hl. unfold faiss_add_with_ids.
    unfold deref at 1. unfold bind at 1. rewrite Hh.
    rewrite (bind_Ok _ _ _ _ _ (read_floats_Ok σ (raw_data t) 0
               (shape0 t * idx_d ix) ltac:(lia) ltac:(lia) ltac:(lia))).
    unfold read_ids. rewrite decide_False by lia. done.
Qed.

(** *** Train and the model *)

(** X9.  Train reads nlist and then metric_type before anything else: when
    nlist is missing or is not a number, or when metric_type is missing,
    it raises the exception of that key, and no index has been constructed:
    the world is unchanged. *)
Theorem Train_missing_key σ dataset config :
  (config !! "nlist" = None →
     Train dataset config σ = (Throw (JsonException "nlist"), σ))
  ∧ (∀ s, config !! "nlist" = Some (JString s) →
       Train dataset config σ = (Throw (JsonException "nlist"), σ))
  ∧ (∀ n, config !! "nlist" = Some (JInt n) →
       config !! "metric_type" = None →
       Train dataset config σ = (Throw (JsonException "metric_type"), σ)).
Proof.
  unfold Train, config_at, bind. repeat split.
  - by intros ->.
  - by intros s ->.
  - intros n -> Hm. cbn. by rewrite Hm.
Qed.

(** The heap after Train: as before, or with one new object. *)
Lemma Train_heap σ dataset config :
  (heap (Train dataset config σ).2 = heap σ
   ∧ ∀ model, (Train dataset config σ).1 ≠ Ok model)
  ∨ ∃ ix', heap (Train dataset config σ).2
           = <[fresh (dom (heap σ)) := ix']> (heap σ)
     ∧ ∀ model, (Train dataset config σ).1 = Ok model →
         model = {| model_index_ := Some (fresh (dom (heap σ))) |}.
Proof.
  unfold Train, config_at, bind.
  destruct (config !! "nlist") as [[s|n]|]; cbn; [by left| |by left].
  destruct (config !! "metric_type") as [j|]; cbn; [|by left].
  unfold GETTENSOR. destruct (tensor dataset !! 0%nat) as [t|]; cbn; [|by left].
  unfold faiss_train, bind, deref. cbn. rewrite lookup_insert_eq.
  unfold read_floats. case_decide; cbn.
  - destruct (index_train _ _ _) as [e|ix']; cbn.
    + right. eexists. split; [done|]. done.
    + right. eexists. split; [by rewrite insert_insert_eq|].
      by intros model [= <-].
  - right. eexists. split; [done|]. done.
Qed.

(** X10.  Train does not touch any existing index object, whatever its
    outcome; when it returns a model, the model points to an object that
    did not exist before. *)
Theorem Train_keeps_existing σ dataset config :
  (∀ l ix, heap σ !! l = Some ix →
     heap (Train dataset config σ).2 !! l = Some ix)
  ∧ (∀ model σ', Train dataset config σ = (Ok model, σ') →
       ∃ l', model_index_ model = Some l'
         ∧ heap σ !! l' = None
         ∧ is_Some (heap σ' !! l')).
Proof.
  assert (Hfresh : heap σ !! fresh (dom (heap σ)) = None).
  { apply not_elem_of_dom, is_fresh. }
  destruct (Train_heap σ dataset config) as [[Hh Hno]|(ix' & Hh & Hm)].
  - split.
    + intros l ix Hl. by rewrite Hh.
    + intros model σ' E. rewrite E in Hno. by destruct (Hno model).
  - split.
    + intros l ix Hl. rewrite Hh, lookup_insert_ne; [done|].
      intros <-. congruence.
    + intros model σ' E. rewrite E in Hh, Hm. cbn in *.
      rewrite (Hm model eq_refl). eexists. split; [done|]. split; [done|].
      rewrite Hh, lookup_insert_eq. by eexists.
Qed.

(** X11.  set_index_model gives the index state a copy of the index of
    the model in a new object.  The index state answers Search as a handle
    on the index of the model would, and after any sequence of Add,
    AddWithoutIds and Load on the index state the object of the model is
    as it was. *)
Theorem set_index_model_independent σ this model lm ix :
  model_index_ model = Some lm →
  heap σ !! lm = Some ix →
  ∃ h σ', set_index_model this model σ = (Ok h, σ')
    ∧ points_to σ' h ix
    ∧ index_ h ≠ Some lm
    ∧ (∀ q cfg, (Search h q cfg σ').1
                = (Search {| index_ := Some lm |} q cfg σ).1)
    ∧ ∀ ms h' σ'', mutations h ms σ' = Some (h', σ'') →
        heap σ'' !! lm = Some ix.
Proof.
  intros Hm Hl.
  destruct (set_index_model_copies σ this model lm ix Hm Hl) as [Hrun Hne].
  eexists _, _. split; [exact Hrun|].
  set (lc := fresh (dom (heap σ))) in *.
  assert (Hp : points_to
            {| heap := <[lc := ix]> (heap σ); pool := pool σ;
               trace := trace σ |} {| index_ := Some lc |} ix).
  { exists lc. split; [done|]. cbn. apply lookup_insert_eq. }
  split; [exact Hp|]. split; [cbn; congruence|]. split.
  - intros q cfg. apply (Search_answer _ _ _ _ ix); [done|].
    by exists lm.
  - intros ms h' σ'' Hms.
    eapply (mutations_keep lm ix ms _ _ h' σ''); [| |exact Hms].
    + cbn. congruence.
    + cbn. by rewrite lookup_insert_ne.
Qed.

(** X12.  IVFIndexModel::Serialize raises its own exception on a model
    that is not initialized or not trained, and leaves the world
    unchanged.  On a trained model it encodes the index without sealing:
    the trace grows by the call of SerializeImpl alone, and the blob set is
    the one that IVF::Serialize gives for a handle on the same object. *)
Theorem Model_Serialize_run σ model :
  (untrained σ {| index_ := model_index_ model |} →
     Model_Serialize model σ = (Throw ModelNotTrained, σ))
  ∧ (∀ lm ix, model_index_ model = Some lm → heap σ !! lm = Some ix →
       idx_is_trained ix = true →
       Model_Serialize model σ
       = (Ok {[ blob_name := write_index ix ]}, logged σ EvSerializeImpl)
       ∧ (Model_Serialize model σ).1
         = (Serialize {| index_ := Some lm |} σ).1).
Proof.
  split.
  - intros Hu. unfold Model_Serialize.
    by rewrite (bind_Ok _ _ _ _ _
                  (guard_untrained σ {| index_ := model_index_ model |} Hu)).
  - intros lm ix Hm Hl Htr.
    assert (Hrun : Model_Serialize model σ
                   = (Ok {[ blob_name := write_index ix ]},
                      logged σ EvSerializeImpl)).
    { unfold Model_Serialize. rewrite Hm.
      rewrite (bind_Ok _ _ _ _ _
                 (guard_trained σ {| index_ := Some lm |} lm ix eq_refl Hl Htr)).
      unfold SerializeImpl, get_index, bind, deref. by rewrite Hl. }
    split; [exact Hrun|]. rewrite Hrun.
    by rewrite (Serialize_trained σ {| index_ := Some lm |} ix
                  ltac:(by exists lm) Htr).
Qed.

(** *** CopyCpuToGpu *)

(** X13.  CopyCpuToGpu has copy semantics: whatever its outcome, every
    existing index object is as before; when it returns a device index,
    that index is bound to the device asked for and lives in an object
    that did not exist before. *)
Theorem CopyCpuToGpu_copies σ this device_id config :
  (∀ l ix, heap σ !! l = Some ix →
     heap (CopyCpuToGpu this device_id config σ).2 !! l = Some ix)
  ∧ (∀ g σ', CopyCpuToGpu this device_id config σ = (Ok g, σ') →
       gpu_id_ g = device_id
       ∧ (GetRes (pool σ) device_id).1 = Some (res_ g)
       ∧ ∃ l', gpu_index_ g = Some l'
           ∧ heap σ !! l' = None
           ∧ is_Some (heap σ' !! l')).
Proof.
  assert (Hfresh : heap σ !! fresh (dom (heap σ)) = None).
  { apply not_elem_of_dom, is_fresh. }
  unfold CopyCpuToGpu, bind, get_res.
  destruct (GetRes (pool σ) device_id) as [[res|] p]; cbn; [|by split].
  unfold get_index, deref.
  destruct (index_ this) as [l0|]; cbn; [|by split].
  destruct (heap σ !! l0) as [ix0|] eqn:E0; cbn; [|by split].
  destruct (index_cpu_to_gpu res device_id ix0) as [e|gix]; cbn; [by split|].
  split.
  - intros l ix Hl. rewrite lookup_insert_ne; [done|]. intros <-. congruence.
  - intros g σ' [= <- <-]. cbn. do 2 (split; [done|]).
    eexists. split; [done|]. split; [done|].
    rewrite lookup_insert_eq. by eexists.
Qed.

(** *** GenGraph: its edges *)

(** X14.  On an index that holds no vector, and for a k from 0 on whose
    distance buffer of k times 100 floats is within the largest size of a
    vector of floats, GenGraph empties the graph it is given and calls the
    search engine not once: it returns the empty graph and leaves the world
    unchanged, whatever the dataset buffer, the configuration and the
    graph passed in.  As everywhere, an allocation of a size that is not
    refused succeeds. *)
Theorem GenGraph_empty_index σ this ix k graph dataset config t :
  points_to σ this ix →
  idx_ntotal ix = 0 →
  tensor dataset !! 0%nat = Some t →
  0 ≤ k → k * batch_size ≤ max_size sizeof_float →
  GenGraph this k graph dataset config σ = (Ok [], σ).
Proof.
  intros Hp Hn Ht Hk Hmax. unfold GenGraph, GETTENSOR. rewrite Ht.
  unfold bind at 1. cbn [ret].
  rewrite (bind_Ok _ _ _ _ _ (Count_points_to _ _ _ Hp)). rewrite Hn.
  unfold vector_new.
  assert (Hsize : 0 ≤ k * batch_size ≤ max_size sizeof_float)
    by (unfold batch_size in *; lia).
  rewrite (bind_Ok _ _ _ _ _ (int64_arith_Ok σ (k * batch_size)
             ltac:(rewrite max_size_float in Hsize;
                   unfold INT64_MIN, INT64_MAX; lia))).
  rewrite (bind_Ok _ _ _ _ _ (vector_resize_Ok σ sizeof_float []
             (k * batch_size) 0 Hsize)).
  rewrite (bind_Ok _ _ _ _ _ (vector_resize_Ok σ sizeof_vector graph 0 []
             ltac:(rewrite max_size_vector; lia))).
  change (Z.rem 0 batch_size) with 0. change (Z.quot 0 batch_size) with 0.
  rewrite decide_True by done.
  rewrite (bind_Ok _ _ _ _ _ (vector_resize_Ok σ sizeof_vector [] 0 []
             ltac:(rewrite max_size_vector; lia))).
  change (Z.to_nat 0) with 0%nat. by rewrite !resize_0.
Qed.

(** X15.  GenGraph has no guard on the state of the index, where Search
    has one: on a handle that holds the null pointer GenGraph dereferences
    it, and Search on the same handle raises the not-trained exception. *)
Theorem GenGraph_unguarded σ this k graph dataset config t :
  index_ this = None →
  tensor dataset !! 0%nat = Some t →
  GenGraph this k graph dataset config σ = (Undefined NullDereference, σ)
  ∧ Search this dataset config σ = (Throw NotTrained, σ).
Proof.
  intros Hn Ht. split.
  - unfold GenGraph, GETTENSOR. rewrite Ht. unfold bind at 1. cbn [ret].
    unfold Count, get_index. by rewrite Hn.
  - apply Search_untrained. by left.
Qed.

(** X16.  A negative k whose product with the batch size is an int64_t is
    refused before any search: on an initialized index GenGraph raises the
    length error of the first vector sized with k, and the world is
    unchanged. *)
Theorem GenGraph_refuses_negative_k σ this ix k graph dataset config t :
  points_to σ this ix →
  tensor dataset !! 0%nat = Some t →
  k < 0 → INT64_MIN ≤ k * batch_size →
  GenGraph this k graph dataset config σ = (Throw StdLengthError, σ)
  ∧ batch_sizes (trace (GenGraph this k graph dataset config σ).2)
    = batch_sizes (trace σ).
Proof.
  intros Hp Ht Hk Hmin.
  by rewrite (GenGraph_negative_k σ this ix k graph dataset t config
                Hp Ht Hk Hmin).
Qed.

(** *** GenGraph: what the graph holds *)

(** The innermost loop copies one result row into the node. *)
Lemma copy_row_rows σ k lim res : ∀ fuel m tmp node,
  0 ≤ m ≤ k → 0 ≤ tmp →
  tmp + (k - m) ≤ lim →
  lim ≤ Z.of_nat (length res) →
  Z.of_nat (length node) = k →
  k - m ≤ Z.of_nat fuel →
  k ≤ INT_MAX → tmp + (k - m) ≤ INT_MAX →
  copy_row fuel k lim res m tmp node σ
  = (Ok (take (Z.to_nat m) node
         ++ take (Z.to_nat (k - m)) (drop (Z.to_nat tmp) res),
         tmp + (k - m)), σ).
Proof.
  assert (Hend : ∀ m tmp (node : list Z),
    Z.of_nat (length node) = k → m = k →
    (Ok (node, tmp), σ)
    = (Ok (take (Z.to_nat m) node
           ++ take (Z.to_nat (k - m)) (drop (Z.to_nat tmp) res),
           tmp + (k - m)), σ)).
  { intros m tmp node Hnode ->. rewrite Z.sub_diag, Z.add_0_r. cbn.
    rewrite app_nil_r, take_ge by lia. done. }
  induction fuel as [|fuel IH];
    intros m tmp node Hm Htmp Hlim Hres Hnode Hfuel Hk Hmax.
  { cbn. apply Hend; [done|lia]. }
  cbn [copy_row]. case_decide as Hc.
  2:{ apply Hend; [done|lia]. }
  assert (Hlt : (Z.to_nat tmp < length res)%nat) by lia.
  destruct (lookup_lt_is_Some_2 _ _ Hlt) as [v Hv].
  rewrite (bind_Ok _ _ _ _ _ (vec_get_Ok σ res tmp v Htmp Hv)).
  rewrite (bind_Ok _ _ _ _ _ (vec_set_Ok σ node m v ltac:(lia))).
  unfold INT_MAX in *.
  rewrite (bind_Ok _ _ _ _ _ (int_incr_Ok σ m
             ltac:(unfold INT_MIN, INT_MAX; lia))).
  rewrite (bind_Ok _ _ _ _ _ (int_incr_Ok σ tmp
             ltac:(unfold INT_MIN, INT_MAX; lia))).
  rewrite IH; rewrite ?length_insert; try lia.
  replace (tmp + 1 + (k - (m + 1))) with (tmp + (k - m)) by lia.
  do 2 f_equal. f_equal.
  replace (Z.to_nat (m + 1)) with (S (Z.to_nat m)) by lia.
  replace (Z.to_nat (tmp + 1)) with (S (Z.to_nat tmp)) by lia.
  replace (Z.to_nat (k - m)) with (S (Z.to_nat (k - (m + 1)))) by lia.
  rewrite (take_S_r _ _ v) by (apply list_lookup_insert_eq; lia).
  rewrite take_insert_ge by lia.
  rewrite (drop_S res v (Z.to_nat tmp)) by done.
  by rewrite <- app_assoc.
Qed.

(** The loop over the rows of a batch gives node [j] of the batch row [j]
    of the result buffer. *)
Lemma fill_nodes_rows σ k b_size res i : ∀ fuel j graph,
  0 ≤ k → 0 ≤ i → 0 ≤ j ≤ b_size →
  k * b_size ≤ Z.of_nat (length res) →
  b_size - j ≤ Z.of_nat fuel →
  batch_size * i + b_size ≤ Z.of_nat (length graph) →
  k * b_size ≤ INT_MAX →
  batch_size * i + b_size ≤ INT_MAX →
  ∃ graph', fill_nodes fuel k b_size res i j (j * k) graph σ = (Ok graph', σ)
    ∧ length graph' = length graph
    ∧ (∀ idx, Z.of_nat idx < batch_size * i + j
              ∨ batch_size * i + b_size ≤ Z.of_nat idx →
         graph' !! idx = graph !! idx)
    ∧ (∀ j', j ≤ j' < b_size →
         graph' !! Z.to_nat (batch_size * i + j')
         = Some (result_row k res j')).
Proof.
  unfold batch_size, INT_MAX.
  induction fuel as [|fuel IH]; intros j graph Hk Hi Hj Hres Hfuel Hg Hmax Hmax'.
  { cbn. exists graph. do 3 (split; [done|]). intros j' ?. lia. }
  cbn [fill_nodes]. case_decide as Hc.
  2:{ exists graph. do 3 (split; [done|]). intros j' ?. lia. }
  rewrite (bind_Ok _ _ _ _ _ (int_arith_Ok σ (batch_size * i)
             ltac:(unfold INT_MIN, INT_MAX, batch_size; lia))).
  rewrite (bind_Ok _ _ _ _ _ (int_arith_Ok σ (batch_size * i + j)
             ltac:(unfold INT_MIN, INT_MAX, batch_size; lia))).
  unfold batch_size.
  assert (Hlt : (Z.to_nat (100 * i + j) < length graph)%nat) by lia.
  destruct (lookup_lt_is_Some_2 _ _ Hlt) as [node0 Hnode0].
  rewrite (bind_Ok _ _ _ _ _
             (vec_get_Ok σ graph (100 * i + j) node0 ltac:(lia) Hnode0)).
  rewrite (bind_Ok _ _ _ _ _ (vector_resize_Ok σ sizeof_int64 node0 k 0
             ltac:(rewrite max_size_int64; nia))).
  rewrite (bind_Ok _ _ _ _ _
             (copy_row_rows σ k (k * b_size) res (Z.to_nat k) 0 (j * k)
                (resize (Z.to_nat k) 0 node0) ltac:(lia) ltac:(nia)
                ltac:(nia) Hres ltac:(rewrite length_resize; lia)
                ltac:(lia) ltac:(unfold INT_MAX; nia)
                ltac:(unfold INT_MAX; nia))).
  cbn beta iota. cbn [take app]. rewrite Z.sub_0_r.
  fold (result_row k res j).
  assert (Hrow : length (result_row k res j) = Z.to_nat k).
  { unfold result_row. rewrite length_take, length_drop. nia. }
  rewrite (bind_Ok _ _ _ _ _
             (vec_set_Ok σ graph (100 * i + j) (result_row k res j)
                ltac:(lia))).
  rewrite (bind_Ok _ _ _ _ _ (int_incr_Ok σ j
             ltac:(unfold INT_MIN, INT_MAX; lia))).
  replace (j * k + k) with ((j + 1) * k) by lia.
  destruct (IH (j + 1)
              (<[Z.to_nat (100 * i + j) := result_row k res j]> graph))
    as (graph' & -> & Hlen' & Hout & Hin); rewrite ?length_insert; try lia.
  rewrite length_insert in Hlen'.
  exists graph'. split; [done|]. split; [done|]. split.
  - intros idx Hidx. rewrite Hout by lia.
    apply list_lookup_insert_ne. lia.
  - intros j' Hj'.
    destruct (decide (j' = j)) as [->|Hne].
    + rewrite Hout by lia. apply list_lookup_insert_eq. lia.
    + apply Hin. lia.
Qed.

Section GenGraph_rows.

Variables (this : IVF) (ix : Index) (k : Z) (config : Config) (nprobe : Z).
Variables (p_data : list float32) (dim : Z).

Hypothesis nprobe_Ok : nprobe_of config = Some nprobe.
Hypothesis k_range : 0 ≤ k ∧ k * batch_size ≤ INT_MAX.
Hypothesis ntotal_range : 0 ≤ idx_ntotal ix ≤ INT_MAX.
Hypothesis d_nonneg : 0 ≤ idx_d ix.
Hypothesis dim_nonneg : 0 ≤ dim.
Hypothesis search_Ok : search_contract ix k nprobe.

Let ntotal := idx_ntotal ix.
Let tail_batch_size := Z.rem ntotal batch_size.
Let total_search_count :=
  if decide (tail_batch_size = 0) then Z.quot ntotal batch_size
  else Z.quot ntotal batch_size + 1.

(** One turn of the loop over the batches: the nodes of the batch take
    the rows of the labels the search engine answers. *)
Lemma search_batches_rows_step σ fuel i res_dis res_vec graph :
  points_to σ this ix →
  0 ≤ i < total_search_count →
  Z.of_nat (length res_dis) = k * batch_size →
  Z.of_nat (length res_vec) = total_search_count →
  Z.of_nat (length graph) = ntotal →
  fits p_data dim (idx_d ix) ntotal i →
  ∃ res_dis' res_vec' graph',
    search_batches (S fuel) this k config p_data dim tail_batch_size
      total_search_count i res_dis res_vec graph σ
    = search_batches fuel this k config p_data dim tail_batch_size
        total_search_count (i + 1) res_dis' res_vec' graph'
        (logged σ (EvSearch (batch_len ntotal i)
           (batch_queries ix p_data dim ntotal i) k nprobe))
    ∧ length res_dis' = length res_dis
    ∧ length res_vec' = length res_vec
    ∧ length graph' = length graph
    ∧ (∀ idx, Z.of_nat idx < batch_size * i
              ∨ batch_size * i + batch_len ntotal i ≤ Z.of_nat idx →
         graph' !! idx = graph !! idx)
    ∧ (∀ j, 0 ≤ j < batch_len ntotal i →
         graph' !! Z.to_nat (batch_size * i + j)
         = Some (result_row k
                   (batch_labels ix p_data dim k nprobe ntotal i) j)).
Proof.
  intros Hp Hi Hdis Hvec Hgraph Hfit.
  assert (Hb : (if decide (i = total_search_count - 1 ∧ tail_batch_size ≠ 0)
                then tail_batch_size else batch_size) = batch_len ntotal i)
    by apply (b_size_batch_len ix ntotal_range i Hi).
  assert (Hbr : 0 < batch_len ntotal i ≤ batch_size)
    by apply (b_size_batch_len ix ntotal_range i Hi).
  assert (Hbn : batch_size * i + batch_len ntotal i ≤ idx_ntotal ix)
    by apply (b_size_batch_len ix ntotal_range i Hi).
  assert (Htot : 0 ≤ total_search_count ≤ idx_ntotal ix)
    by apply (total_search_count_spec ix ntotal_range).
  destruct k_range as [Hk0 Hkmax].
  cbn [search_batches]. rewrite decide_True by lia. rewrite Hb.
  unfold batch_labels, batch_queries.
  set (b := batch_len ntotal i) in *.
  unfold fits in Hfit. fold b in Hfit.
  unfold batch_size in *.
  assert (Hlt : (Z.to_nat i < length res_vec)%nat) by lia.
  destruct (lookup_lt_is_Some_2 _ _ Hlt) as [res0 Hres0].
  rewrite (bind_Ok _ _ _ _ _ (vec_get_Ok σ res_vec i res0 ltac:(lia) Hres0)).
  assert (Hkb : 0 ≤ k * b ≤ INT_MAX) by (unfold INT_MAX in *; nia).
  rewrite (bind_Ok _ _ _ _ _ (int64_arith_Ok σ (k * b)
             ltac:(unfold INT64_MIN, INT64_MAX, INT_MAX in *; lia))).
  rewrite (bind_Ok _ _ _ _ _ (vector_resize_Ok σ sizeof_int64 res0 (k * b) 0
             ltac:(rewrite max_size_int64; unfold INT_MAX in *; lia))).
  clear Hkb.
  rewrite (bind_Ok _ _ _ _ _ (float_index_Ok σ dim i)).
  pose proof (batch_start_eq dim i) as Hstart.
  set (x := take (Z.to_nat (b * idx_d ix))
              (drop (Z.to_nat (batch_start dim i)) p_data)).
  destruct (search_Ok b x ltac:(lia)) as (D & L & Hs & HD & HL).
  assert (Hrun := search_impl_run σ this ix b p_data (batch_start dim i) k
            res_dis (resize (Z.to_nat (k * b)) 0 res0) config nprobe Hp
            nprobe_Ok ltac:(nia) ltac:(nia) Hfit).
  cbv zeta in Hrun. fold x in Hrun. rewrite Hs in Hrun.
  set (σ' := logged σ _) in *.
  assert (HD' : (length D ≤ length res_dis)%nat) by nia.
  assert (HL' : (length L ≤ length (resize (Z.to_nat (k * b)) 0%Z res0))%nat)
    by (rewrite length_resize; nia).
  rewrite (bind_Ok _ _ _ _ _ (write_buf_Ok σ' res_dis D HD')) in Hrun.
  rewrite (bind_Ok _ _ _ _ _ (write_buf_Ok σ' _ L HL')) in Hrun.
  cbn [ret] in Hrun. rewrite (bind_Ok _ _ _ _ _ Hrun). cbn beta iota.
  rewrite drop_ge by (rewrite length_resize; nia). rewrite app_nil_r.
  rewrite (bind_Ok _ _ _ _ _ (vec_set_Ok σ' res_vec i L ltac:(lia))).
  destruct (fill_nodes_rows σ' k b L i (Z.to_nat b) 0 graph)
    as (graph' & Hfill & Hlen & Hout & Hin);
    unfold batch_size, INT_MAX in *; try nia.
  change (0 * k) with 0 in Hfill.
  rewrite (bind_Ok _ _ _ _ _ Hfill).
  rewrite (bind_Ok _ _ _ _ _ (int_incr_Ok σ' i
             ltac:(unfold INT_MIN, INT_MAX; lia))).
  eexists _, _, graph'. split; [reflexivity|].
  split; [rewrite length_app, length_drop; nia|].
  split; [by rewrite length_insert|].
  split; [done|]. split.
  - intros idx Hidx. apply Hout. lia.
  - intros j Hj. rewrite Hs. apply Hin. lia.
Qed.

(** The loop over the batches: every node from batch [i] on takes its row
    of the labels of its batch. *)
Lemma search_batches_rows : ∀ fuel i res_dis res_vec graph σ,
  points_to σ this ix →
  0 ≤ i ≤ total_search_count →
  total_search_count - i ≤ Z.of_nat fuel →
  Z.of_nat (length res_dis) = k * batch_size →
  Z.of_nat (length res_vec) = total_search_count →
  Z.of_nat (length graph) = ntotal →
  (∀ j, i ≤ j < total_search_count → fits p_data dim (idx_d ix) ntotal j) →
  ∃ graph',
    (search_batches fuel this k config p_data dim tail_batch_size
       total_search_count i res_dis res_vec graph σ).1 = Ok graph'
    ∧ length graph' = length graph
    ∧ (∀ idx, Z.of_nat idx < batch_size * i → graph' !! idx = graph !! idx)
    ∧ (∀ idx, batch_size * i ≤ idx < ntotal →
         graph' !! Z.to_nat idx
         = Some (result_row k
                   (batch_labels ix p_data dim k nprobe ntotal
                      (idx / batch_size))
                   (idx mod batch_size))).
Proof.
  assert (Htot : 0 ≤ total_search_count ≤ idx_ntotal ix)
    by apply (total_search_count_spec ix ntotal_range).
  assert (Hcover : idx_ntotal ix ≤ batch_size * total_search_count)
    by apply (total_search_count_spec ix ntotal_range).
  assert (Hdone : ∀ fuel res_dis res_vec (graph : Graph) σ,
    ∃ graph',
      (search_batches fuel this k config p_data dim tail_batch_size
         total_search_count total_search_count res_dis res_vec graph σ).1
      = Ok graph'
      ∧ length graph' = length graph
      ∧ (∀ idx, Z.of_nat idx < batch_size * total_search_count →
           graph' !! idx = graph !! idx)
      ∧ (∀ idx, batch_size * total_search_count ≤ idx < ntotal →
           graph' !! Z.to_nat idx
           = Some (result_row k
                     (batch_labels ix p_data dim k nprobe ntotal
                        (idx / batch_size))
                     (idx mod batch_size)))).
  { intros fuel res_dis res_vec graph σ. exists graph.
    split; [destruct fuel; cbn; [done|by rewrite decide_False by lia]|].
    do 2 (split; [done|]). intros idx Hidx. unfold ntotal in Hidx. lia. }
  induction fuel as [|fuel IH];
    intros i res_dis res_vec graph σ Hp Hi Hfuel Hdis Hvec Hgraph Hfits.
  { assert (i = total_search_count) as -> by lia. apply Hdone. }
  destruct (decide (i = total_search_count)) as [->|Hne]; [apply Hdone|].
  assert (Hi' : 0 ≤ i < total_search_count) by lia.
  assert (Hbr : 0 < batch_len ntotal i ≤ batch_size)
    by apply (b_size_batch_len ix ntotal_range i Hi').
  destruct (search_batches_rows_step σ fuel i res_dis res_vec graph)
    as (res_dis' & res_vec' & graph1 & -> & Hl1 & Hl2 & Hl3 & Hout & Hin);
    try done; [apply Hfits; lia|].
  destruct (IH (i + 1) res_dis' res_vec' graph1 (logged σ
      (EvSearch (batch_len ntotal i) (batch_queries ix p_data dim ntotal i)
         k nprobe)))
    as (graph' & -> & Hlen & Hout' & Hin');
    try lia.
  { by apply points_to_with_trace. }
  { intros j Hj. apply Hfits. lia. }
  exists graph'. split; [done|]. split; [lia|]. split.
  - intros idx Hidx. rewrite Hout' by (unfold batch_size in *; lia).
    apply Hout. lia.
  - intros idx Hidx.
    pose proof (Z.div_mod idx batch_size ltac:(done)) as Hdm.
    pose proof (Z.mod_pos_bound idx batch_size ltac:(done)) as Hmb.
    destruct (decide (idx < batch_size * i + batch_len ntotal i))
      as [Hlt|Hge].
    + rewrite Hout' by (unfold batch_size in *; lia).
      assert (idx / batch_size = i) as -> by (unfold batch_size in *; lia).
      replace (idx mod batch_size) with (idx - batch_size * i)
        by (unfold batch_size in *; lia).
      replace idx with (batch_size * i + (idx - batch_size * i)) at 1 by lia.
      apply Hin. lia.
    + apply Hin'. split; [|lia].
      unfold batch_len, ntotal, batch_size in *. lia.
Qed.

(** GenGraph when the stride of the dataset is the width of the index and
    the buffer holds the vectors the index counts. *)
Lemma GenGraph_rows_at σ graph dataset t :
  points_to σ this ix →
  tensor dataset !! 0%nat = Some t →
  raw_data t = p_data → shape1 t = dim →
  dim = idx_d ix →
  ntotal * idx_d ix ≤ Z.of_nat (length p_data) →
  ∃ g, (GenGraph this k graph dataset config σ).1 = Ok g
    ∧ Z.of_nat (length g) = ntotal
    ∧ ∀ idx, 0 ≤ idx < ntotal →
        g !! Z.to_nat idx
        = Some (result_row k
                  (batch_labels ix p_data dim k nprobe ntotal
                     (idx / batch_size))
                  (idx mod batch_size)).
Proof.
  intros Hp Ht Hdata Hdim Hd Hlen.
  assert (Htot : 0 ≤ total_search_count ≤ idx_ntotal ix)
    by apply (total_search_count_spec ix ntotal_range).
  destruct k_range as [Hk0 _].
  rewrite (GenGraph_unfold this ix k config p_data dim k_range ntotal_range
             dim_nonneg σ graph dataset t Hp Ht Hdata Hdim).
  destruct (search_batches_rows (Z.to_nat total_search_count) 0
              (replicate (Z.to_nat (k * batch_size)) 0)
              (replicate (Z.to_nat total_search_count) [])
              (resize (Z.to_nat ntotal) [] graph) σ)
    as (g & Hg & Hl & _ & Hin);
    rewrite ?length_replicate, ?length_resize; unfold batch_size in *;
    unfold ntotal in *; try lia; try done.
  { intros j Hj.
    assert (Hbn : 100 * j + batch_len (idx_ntotal ix) j ≤ idx_ntotal ix)
      by apply (b_size_batch_len ix ntotal_range j Hj).
    assert (Hbr : 0 < batch_len (idx_ntotal ix) j ≤ 100)
      by apply (b_size_batch_len ix ntotal_range j Hj).
    unfold fits. rewrite batch_start_eq. rewrite Hd. nia. }
  exists g. split; [exact Hg|]. rewrite length_resize in Hl.
  split; [lia|]. intros idx Hidx. apply Hin. lia.
Qed.

End GenGraph_rows.

(** X17.  What GenGraph puts in the graph.  On an index that counts N
    vectors, with a dataset of the width of the index and at least N rows,
    k from 0 on, the counters within [int] and a search engine that
    answers every batch: entry idx of the graph is row idx mod 100 of the
    labels the engine answers for batch idx / 100, for every idx below N.
    The queries of batch i are the floats the buffer holds from byte
    100 * dim * i on, that is from float 25 * dim * i on, where row
    100 * i of the dataset starts at float 100 * dim * i.  The graph
    passed in has no influence on the result. *)
Theorem GenGraph_rows σ this ix k graph dataset t config nprobe :
  points_to σ this ix →
  tensor dataset !! 0%nat = Some t →
  shape1 t = idx_d ix →
  0 ≤ idx_d ix →
  Z.of_nat (length (raw_data t)) = shape0 t * shape1 t →
  idx_ntotal ix ≤ shape0 t →
  nprobe_of config = Some nprobe →
  0 ≤ k ∧ k * batch_size ≤ INT_MAX →
  0 ≤ idx_ntotal ix ≤ INT_MAX →
  search_contract ix k nprobe →
  ∃ g, (GenGraph this k graph dataset config σ).1 = Ok g
    ∧ Z.of_nat (length g) = idx_ntotal ix
    ∧ (∀ idx, 0 ≤ idx < idx_ntotal ix →
         let i := idx / batch_size in
         let b_size := batch_len (idx_ntotal ix) i in
         let xq := take (Z.to_nat (b_size * idx_d ix))
                     (drop (Z.to_nat (25 * shape1 t * i)) (raw_data t)) in
         ∃ D L, search_with_parameters ix b_size xq k nprobe = inr (D, L)
           ∧ g !! Z.to_nat idx = Some (result_row k L (idx mod batch_size)))
    ∧ ∀ graph', (GenGraph this k graph' dataset config σ).1 = Ok g.
Proof.
  intros Hp Ht Hdim Hd Hwf Hrows Hnp Hk Hn Hs.
  assert (Hfit : idx_ntotal ix * idx_d ix ≤ Z.of_nat (length (raw_data t))).
  { rewrite Hwf, Hdim. nia. }
  assert (Hall : ∀ graph0, ∃ g,
    (GenGraph this k graph0 dataset config σ).1 = Ok g
    ∧ Z.of_nat (length g) = idx_ntotal ix
    ∧ ∀ idx, 0 ≤ idx < idx_ntotal ix →
        g !! Z.to_nat idx
        = Some (result_row k
                  (batch_labels ix (raw_data t) (shape1 t) k nprobe
                     (idx_ntotal ix) (idx / batch_size))
                  (idx mod batch_size))).
  { intros graph0.
    apply (GenGraph_rows_at this ix k config nprobe (raw_data t) (shape1 t)
             Hnp Hk Hn Hd ltac:(lia) Hs σ graph0 dataset t Hp Ht eq_refl
             eq_refl Hdim Hfit). }
  destruct (Hall graph) as (g & Hg & Hlen & Hrows').
  exists g. do 2 (split; [done|]). split.
  - intros idx Hidx i b_size xq.
    assert (Hb : 0 ≤ b_size).
    { subst b_size i. unfold batch_len, batch_size.
      pose proof (Z.div_mod idx 100 ltac:(lia)).
      pose proof (Z.mod_pos_bound idx 100 ltac:(lia)). lia. }
    destruct (Hs b_size xq Hb) as (D & L & HsE & _).
    exists D, L. split; [done|].
    rewrite (Hrows' idx Hidx). unfold batch_labels, batch_queries.
    rewrite batch_start_eq. fold i. fold b_size. fold xq. by rewrite HsE.
  - intros graph'. destruct (Hall graph') as (g' & Hg' & Hlen' & Hrows'').
    rewrite Hg'. f_equal. apply list_eq. intros i.
    destruct (decide (Z.of_nat i < idx_ntotal ix)) as [Hlt|Hge].
    + specialize (Hrows' (Z.of_nat i) ltac:(lia)).
      specialize (Hrows'' (Z.of_nat i) ltac:(lia)).
      rewrite Nat2Z.id in Hrows', Hrows''. congruence.
    + rewrite !lookup_ge_None_2 by lia. done.
Qed.

Lemma total_size_app l1 l2 :
  total_size (l1 ++ l2) = total_size l1 + total_size l2.
Proof.
  unfold total_size. induction l1 as [|a l1 IH]; cbn; [done|]. rewrite IH. lia.
Qed.

Lemma total_size_replicate n a :
  total_size (replicate n a) = Z.of_nat n * a.
Proof.
  unfold total_size. induction n as [|n IH]; cbn [replicate foldr]; [done|].
  rewrite IH. lia.
Qed.

Lemma total_size_batches_of n : 0 ≤ n → total_size (batches_of n) = n.
Proof.
  intros Hn. unfold batches_of, batch_size.
  pose proof (Z.div_mod n 100 ltac:(lia)).
  pose proof (Z.mod_pos_bound n 100 ltac:(lia)).
  assert (0 ≤ n / 100) by (apply Z.div_pos; lia).
  rewrite total_size_app, total_size_replicate.
  case_decide; unfold total_size; cbn; lia.
Qed.

(** X18.  The sizes of the batches of GenGraph add up to the number of
    vectors of the index: under the conditions of the run above, the sum
    of the batch sizes the search engine was called with is Count of the
    index.  Nothing is said here about which floats a batch holds. *)
Theorem GenGraph_batches_total σ this ix k graph dataset t config nprobe :
  points_to σ this ix →
  tensor dataset !! 0%nat = Some t →
  shape1 t = idx_d ix →
  0 ≤ idx_d ix →
  Z.of_nat (length (raw_data t)) = shape0 t * shape1 t →
  idx_ntotal ix ≤ shape0 t →
  nprobe_of config = Some nprobe →
  0 ≤ k ∧ k * batch_size ≤ INT_MAX →
  0 ≤ idx_ntotal ix ≤ INT_MAX →
  search_contract ix k nprobe →
  total_size (batch_sizes
                (drop (length (trace σ))
                   (trace (GenGraph this k graph dataset config σ).2)))
  = idx_ntotal ix
  ∧ (Count this σ).1 = Ok (idx_ntotal ix).
Proof.
  intros Hp Ht Hdim Hd Hwf Hrows Hnp Hk Hn Hs.
  destruct (GenGraph_within this ix k config nprobe (raw_data t) (shape1 t)
              (GenParams_nprobe_of _ _ Hnp) Hk Hn Hd ltac:(lia) Hs
              σ graph dataset t Hp Ht eq_refl eq_refl Hdim)
    as (g & _ & _ & _ & _ & Hb).
  { rewrite Hwf, Hdim. nia. }
  rewrite Hb. split; [apply total_size_batches_of; lia|].
  by rewrite (Count_points_to _ _ _ Hp).
Qed.

End Further.

(* ===================================================================== *)
(** ** The properties on the reference implementation *)
(* ===================================================================== *)

Section Reference.

#[local] Existing Instance Ref.faiss.
#[local] Existing Instance Ref.mgr.

Lemma ref_number_digits p : Ref.number (Ref.digits p) = Some p.
Proof. induction p as [p IH|p IH|]; cbn; [rewrite IH..|]; done. Qed.

Lemma ref_of_to_tuple ix : Ref.of_tuple (Ref.to_tuple ix) = ix.
Proof. by destruct ix as [? ? [] ? ?]. Qed.

Lemma ref_codec_inverse (ix : Index) : read_index (write_index ix) = Some ix.
Proof.
  cbn. unfold Ref.read, Ref.write.
  rewrite ref_number_digits, decode_encode.
  change (Some (Ref.of_tuple (Ref.to_tuple ix)) = Some ix).
  by rewrite ref_of_to_tuple.
Qed.

Lemma ref_rows_of_length n d x : length (Ref.rows_of n d x) = n.
Proof. revert x. induction n as [|n IH]; intros x; cbn; [done|by rewrite IH]. Qed.

Lemma ref_bind_length {A B} (f : A → list B) k (l : list A) :
  (∀ a, length (f a) = k) → length (l ≫= f) = (length l * k)%nat.
Proof.
  intros Hf. induction l as [|a l IH]; cbn; [done|].
  by rewrite length_app, Hf, IH.
Qed.

Lemma ref_search_contract (ix : Index) k nprobe : search_contract ix k nprobe.
Proof.
  intros n x Hn. cbn. unfold Ref.search. eexists _, _. split; [done|].
  rewrite !length_fmap.
  rewrite (ref_bind_length _ (Z.to_nat k)), ref_rows_of_length.
  - destruct (decide (0 ≤ k)); [split; lia|].
    replace (Z.to_nat k) with 0%nat by lia.
    replace (Z.to_nat (n * k)) with 0%nat by nia. lia.
  - intros q. unfold Ref.search_row. apply length_resize.
Qed.


(** Search on a default-constructed handle. *)
Lemma Search_before_training_witness :
  untrained Ref.world0 Ref.null_handle
  ∧ (Search Ref.null_handle Ref.query Ref.search_config Ref.world0).1
    = Throw NotTrained
  ∧ (Search Ref.null_handle Ref.query Ref.search_config Ref.world0).2
    = Ref.world0.
Proof.
  assert (H : untrained Ref.world0 Ref.null_handle) by (by left).
  split; [exact H|].
  destruct (Search_before_training Ref.world0 Ref.null_handle Ref.query
              Ref.search_config H) as (H1 & H2 & _).
  exact (conj H1 H2).
Defined.

Lemma ref_world1_points_to : points_to Ref.world1 Ref.handle1 Ref.ix2.
Proof. exists 1%positive. split; reflexivity. Qed.

Lemma ref_world1_trained : trained Ref.world1 Ref.handle1.
Proof. exists Ref.ix2. split; [apply ref_world1_points_to|reflexivity]. Qed.

(** Serialize on a default-constructed handle and on a trained index. *)
Lemma Serialize_seals_first_witness :
  (untrained Ref.world0 Ref.null_handle
   ∧ Serialize Ref.null_handle Ref.world0 = (Throw NotTrained, Ref.world0))
  ∧ (points_to Ref.world1 Ref.handle1 Ref.ix2
     ∧ idx_is_trained Ref.ix2 = true
     ∧ trace (Serialize Ref.handle1 Ref.world1).2
       = [EvSealImpl; EvSerializeImpl]).
Proof.
  assert (H : untrained Ref.world0 Ref.null_handle) by (by left).
  split.
  - split; [exact H|].
    exact (proj1 (Serialize_seals_first Ref.world0 Ref.null_handle) H).
  - split; [exact ref_world1_points_to|]. split; [reflexivity|].
    destruct (proj2 (Serialize_seals_first Ref.world1 Ref.handle1) Ref.ix2
                ref_world1_points_to eq_refl) as [_ ->].
    reflexivity.
Defined.

(** Count, Dimension and Add on a default-constructed handle. *)
Lemma Count_Dimension_unguarded_witness :
  index_ Ref.null_handle = None
  ∧ Count Ref.null_handle Ref.world0 = (Undefined NullDereference, Ref.world0)
  ∧ Dimension Ref.null_handle Ref.world0
    = (Undefined NullDereference, Ref.world0)
  ∧ Add Ref.null_handle Ref.rows2 Ref.search_config Ref.world0
    = (Throw NotTrained, Ref.world0).
Proof.
  split; [reflexivity|].
  destruct (proj2 (Count_Dimension_unguarded Ref.world0 Ref.null_handle
                     Ref.rows2 Ref.search_config) eq_refl)
    as (H1 & H2 & H3 & _).
  exact (conj H1 (conj H2 H3)).
Defined.

(** CopyCpuToGpu for device 7 with an empty pool. *)
Lemma CopyCpuToGpu_no_resource_witness :
  (GetRes (pool Ref.world1) 7).1 = None
  ∧ (CopyCpuToGpu Ref.handle1 7 ∅ Ref.world1).1 = Throw ResourceUnavailable
  ∧ (Count Ref.handle1 (CopyCpuToGpu Ref.handle1 7 ∅ Ref.world1).2).1
    = (Count Ref.handle1 Ref.world1).1.
Proof.
  assert (H : (GetRes (pool Ref.world1) 7).1 = None) by reflexivity.
  split; [exact H|].
  destruct (CopyCpuToGpu_no_resource Ref.world1 Ref.handle1 7 ∅ H)
    as (H1 & _ & _ & H4).
  exact (conj H1 H4).
Defined.

(** Train with the metric "cosine". *)
Lemma Train_metric_fallback_witness :
  Ref.cosine_config !! "metric_type" = Some (JString "cosine")
  ∧ "cosine" ≠ "L2"
  ∧ Train Ref.rows2 Ref.cosine_config Ref.world0
    = train_with METRIC_INNER_PRODUCT Ref.rows2 Ref.cosine_config Ref.world0.
Proof.
  assert (H1 : Ref.cosine_config !! "metric_type" = Some (JString "cosine"))
    by reflexivity.
  assert (H2 : "cosine" ≠ "L2") by discriminate.
  split; [exact H1|]. split; [exact H2|].
  exact (proj1 (Train_metric_fallback Ref.world0 Ref.rows2 Ref.cosine_config
                  "cosine" H1 H2)).
Defined.

(** Train on a batch of zero rows with one cluster. *)
Lemma Train_empty_batch_witness :
  Ref.train_config !! "nlist" = Some (JInt 1)
  ∧ Ref.train_config !! "metric_type" = Some (JString "L2")
  ∧ tensor Ref.rows0 !! 0%nat
    = Some {| shape0 := 0; shape1 := 2; raw_data := [] |}
  ∧ training_calls (trace (Train Ref.rows0 Ref.train_config Ref.world0).2)
    = [0]
  ∧ (Train Ref.rows0 Ref.train_config Ref.world0).1
    = Throw (FaissException "fewer training points than clusters").
Proof.
  assert (H1 : Ref.train_config !! "nlist" = Some (JInt 1)) by reflexivity.
  assert (H2 : Ref.train_config !! "metric_type" = Some (JString "L2"))
    by reflexivity.
  assert (H3 : tensor Ref.rows0 !! 0%nat
               = Some {| shape0 := 0; shape1 := 2; raw_data := [] |})
    by reflexivity.
  do 3 (split; [assumption|]).
  exact (Train_empty_batch Ref.world0 Ref.rows0 Ref.train_config 1
           (JString "L2") _ H1 H2 H3 eq_refl).
Defined.

(** C6 as stated fails: on an empty batch Train is not rejected before the
    training; the training of the quantizer is called, and the exception
    is the one of faiss. *)
Lemma Train_empty_batch_not_rejected :
  (Train Ref.rows0 Ref.train_config Ref.world0).1
  = Throw (FaissException "fewer training points than clusters")
  ∧ trace (Train Ref.rows0 Ref.train_config Ref.world0).2
    = [EvNewIndexIVFFlat 2 1 METRIC_L2; EvTrain 0 []]
  ∧ ¬ rejected_before_training Ref.world0
        (Train Ref.rows0 Ref.train_config Ref.world0).
Proof.
  split; [reflexivity|]. split; [reflexivity|].
  intros [_ H]. vm_compute in H. discriminate.
Qed.

(** Serialize a trained index of two vectors, load it into a new handle in
    an empty world, and search both. *)
Lemma Load_Serialize_roundtrip_witness :
  trained Ref.world1 Ref.handle1
  ∧ ∃ bs σ1 t' σ'',
      Serialize Ref.handle1 Ref.world1 = (Ok bs, σ1)
      ∧ Load Ref.null_handle bs Ref.world0 = (Ok t', σ'')
      ∧ (Search t' Ref.query Ref.search_config σ'').1
        = (Search Ref.handle1 Ref.query Ref.search_config Ref.world1).1.
Proof.
  split; [exact ref_world1_trained|].
  destruct (Load_Serialize_roundtrip ref_codec_inverse Ref.world1 Ref.handle1
              ref_world1_trained) as (bs & σ1 & HS & HL).
  destruct (HL Ref.null_handle Ref.world0) as (t' & σ'' & HL' & _ & _ & _ & HQ).
  exists bs, σ1, t', σ''.
  exact (conj HS (conj HL' (HQ Ref.query Ref.search_config))).
Defined.

(** Clone an index of two vectors, then add two vectors to the clone, load
    an empty blob set into it (refused), and add one more vector: the
    clone counts five, the source two. *)
Lemma Clone_independent_witness :
  trained Ref.world1 Ref.handle1
  ∧ ∃ c σ' c' σ'',
      Clone Ref.handle1 Ref.world1 = (Ok c, σ')
      ∧ mutations c [MAddWithoutIds Ref.rows2 ∅; MLoad ∅; MAdd Ref.rows1 ∅] σ'
        = Some (c', σ'')
      ∧ (Count c' σ'').1 = Ok 5
      ∧ (Count Ref.handle1 σ'').1 = (Count Ref.handle1 Ref.world1).1.
Proof.
  split; [exact ref_world1_trained|].
  destruct (Clone_independent Ref.world1 Ref.handle1 ref_world1_trained)
    as (c & σ' & HC & _ & _ & _ & HM).
  exists c, σ'.
  assert (E : Clone Ref.handle1 Ref.world1
              = (Ok {| index_ := Some 2%positive |},
                 {| heap := <[2%positive := Ref.ix2]> (heap Ref.world1);
                    pool := pool Ref.world1; trace := trace Ref.world1 |}))
    by reflexivity.
  rewrite E in HC. injection HC as <- <-.
  assert (HR : ∀ r, r = mutations {| index_ := Some 2%positive |}
                        [MAddWithoutIds Ref.rows2 ∅; MLoad ∅; MAdd Ref.rows1 ∅]
                        {| heap := <[2%positive := Ref.ix2]> (heap Ref.world1);
                           pool := pool Ref.world1;
                           trace := trace Ref.world1 |} →
               ∃ c' σ'', r = Some (c', σ'') ∧ (Count c' σ'').1 = Ok 5).
  { intros r ->. vm_compute. eexists _, _. split; reflexivity. }
  destruct (HR _ eq_refl) as (c' & σ'' & Hm & Hc).
  exists c', σ''. split; [reflexivity|]. split; [exact Hm|].
  split; [exact Hc|]. exact (proj1 (HM _ c' σ'' Hm)).
Defined.

(** C4 as stated fails: on an index that counts two vectors, a dataset of
    three rows gives a graph of two entries. *)
Lemma GenGraph_not_graph_of_dataset :
  (GenGraph Ref.handle1 1 [] Ref.rows3 ∅ Ref.world1).1 = Ok [[10]; [11]]
  ∧ ¬ graph_of_dataset Ref.world1 1 Ref.rows3
        (GenGraph Ref.handle1 1 [] Ref.rows3 ∅ Ref.world1).
Proof.
  split; [reflexivity|].
  intros (t & g & Ht & Hg & Hlen & _).
  vm_compute in Ht. injection Ht as <-.
  vm_compute in Hg. injection Hg as <-.
  discriminate Hlen.
Qed.

(** GenGraph with k = 1 on an index of two vectors and a dataset of three
    rows. *)
Lemma GenGraph_graph_of_Count_witness :
  points_to Ref.world1 Ref.handle1 Ref.ix2
  ∧ nprobe_of ∅ = Some 1
  ∧ search_contract Ref.ix2 1 1
  ∧ (0 ≤ 1 ∧ 1 * batch_size ≤ INT_MAX)
  ∧ 0 ≤ idx_ntotal Ref.ix2 ≤ INT_MAX
  ∧ ∃ g, (GenGraph Ref.handle1 1 [] Ref.rows3 ∅ Ref.world1).1 = Ok g
      ∧ Z.of_nat (length g) = 2
      ∧ batch_sizes (trace (GenGraph Ref.handle1 1 [] Ref.rows3 ∅ Ref.world1).2)
        = [2].
Proof.
  assert (Hk : 0 ≤ 1 ∧ 1 * batch_size ≤ INT_MAX) by (vm_compute; split; discriminate).
  assert (Hn : 0 ≤ idx_ntotal Ref.ix2 ≤ INT_MAX) by (vm_compute; split; discriminate).
  assert (Hnp : nprobe_of ∅ = Some 1) by reflexivity.
  split; [exact ref_world1_points_to|]. split; [exact Hnp|].
  split; [apply ref_search_contract|]. split; [exact Hk|]. split; [exact Hn|].
  destruct (GenGraph_graph_of_Count Ref.world1 Ref.handle1 Ref.ix2 1 []
              Ref.rows3 {| shape0 := 3; shape1 := 2;
                           raw_data := [1; 2; 3; 4; 5; 6] |} ∅ 1
              ref_world1_points_to eq_refl eq_refl
              ltac:(vm_compute; discriminate) eq_refl
              ltac:(vm_compute; discriminate) Hnp Hk Hn
              (ref_search_contract _ _ _))
    as (g & Hg & Hlen & _ & Hb & _).
  exists g. split; [exact Hg|]. split; [exact Hlen|]. exact Hb.
Defined.

(** C10, on the code.  GenGraph steps to batch i by adding
    batch_size * dim * i to the pointer to bytes of the dataset and casts
    the sum to a pointer to floats afterwards, so that batch i starts at
    float 25 * dim * i where vector 100 * i starts at float 100 * dim * i.
    On an index that counts 101 one-dimensional vectors, with k = 1 and
    the dataset of these 101 vectors: the searches are handed the vectors
    0 to 99 and then vector 25, not the first Count * dim floats of the
    buffer; entry 100 of the graph is the neighbour of vector 25, where the
    search for vector 100 answers 100.  With the dataset of the first 100
    vectors only, fewer rows than Count, GenGraph reads nothing beyond the
    buffer and returns the same graph. *)
Theorem GenGraph_offset_in_bytes :
  let r := GenGraph Ref.handle1 1 [] Ref.rows101 ∅ Ref.world101 in
  let r' := GenGraph Ref.handle1 1 [] Ref.rows100 ∅ Ref.world101 in
  (Count Ref.handle1 Ref.world101).1 = Ok 101
  ∧ batch_sizes (trace r.2) = [100; 1]
  ∧ floats_read (trace r.2) = seqZ 0 100 ++ [25]
  ∧ floats_read (trace r.2) ≠ seqZ 0 101
  ∧ (∃ g, r.1 = Ok g ∧ length g = 101%nat
       ∧ g !! 25%nat = Some [25] ∧ g !! 100%nat = Some [25])
  ∧ search_with_parameters Ref.ix101 1 [100] 1 1 = inr ([0], [100])
  ∧ r'.1 = r.1
  ∧ r'.1 ≠ Undefined OutOfBounds
  ∧ floats_read (trace r'.2) = seqZ 0 100 ++ [25].
Proof.
  cbv zeta.
  assert (E : GenGraph Ref.handle1 1 [] Ref.rows101 ∅ Ref.world101
    = (Ok ((λ j, [j]) <$> (seqZ 0 100 ++ [25])),
       with_trace Ref.world101
         [EvSearch 100 (seqZ 0 100) 1 1; EvSearch 1 [25] 1 1]))
    by (vm_compute; reflexivity).
  assert (E' : GenGraph Ref.handle1 1 [] Ref.rows100 ∅ Ref.world101
    = (Ok ((λ j, [j]) <$> (seqZ 0 100 ++ [25])),
       with_trace Ref.world101
         [EvSearch 100 (seqZ 0 100) 1 1; EvSearch 1 [25] 1 1]))
    by (vm_compute; reflexivity).
  rewrite E, E'. cbn [fst snd].
  split; [reflexivity|]. split; [reflexivity|]. split; [reflexivity|].
  split; [vm_compute; discriminate|].
  split; [eexists; split; [reflexivity|]; repeat split; reflexivity|].
  split; [reflexivity|]. split; [reflexivity|].
  split; [discriminate|reflexivity].
Qed.

End Reference.

Section Further_reference.

#[local] Existing Instance Ref.faiss.
#[local] Existing Instance Ref.mgr.

Lemma ref_handle1_trained_parts :
  index_ Ref.handle1 = Some 1%positive
  ∧ heap Ref.world1 !! 1%positive = Some Ref.ix2
  ∧ idx_is_trained Ref.ix2 = true.
Proof. repeat split; reflexivity. Qed.

(** Search for (3,4) with k = 2 in the index of two vectors. *)
Lemma Search_run_witness :
  points_to Ref.world1 Ref.handle1 Ref.ix2
  ∧ Ref.search_config !! "k" = Some (JInt 2)
  ∧ nprobe_of Ref.search_config = Some 1
  ∧ Search Ref.handle1 Ref.query Ref.search_config Ref.world1
    = (Ok {| array := [Int64Array [11; 10]; FloatArray [0; 1065353216]];
             tensor := [] |},
       with_trace Ref.world1 [EvMalloc 16; EvMalloc 8; EvSearch 1 [3; 4] 2 1]).
Proof.
  assert (Hk : Ref.search_config !! "k" = Some (JInt 2)) by reflexivity.
  assert (Hnp : nprobe_of Ref.search_config = Some 1) by reflexivity.
  split; [exact ref_world1_points_to|]. split; [exact Hk|]. split; [exact Hnp|].
  refine (proj2 (Search_run Ref.world1 Ref.handle1 Ref.ix2 Ref.query
                   Ref.search_config
                   {| shape0 := 1; shape1 := 2; raw_data := [3; 4] |} 2 1
                   ref_world1_points_to eq_refl Hk eq_refl Hnp _ _ _ _ _)
            [0; 1065353216] [11; 10] eq_refl eq_refl eq_refl);
    vm_compute; repeat split; (discriminate || reflexivity).
Defined.

(** Search with an empty configuration. *)
Lemma Search_missing_k_witness :
  points_to Ref.world1 Ref.handle1 Ref.ix2
  ∧ Search Ref.handle1 Ref.query ∅ Ref.world1
    = (Throw (JsonException "k"), Ref.world1).
Proof.
  split; [exact ref_world1_points_to|].
  exact (Search_missing_k Ref.world1 Ref.handle1 Ref.ix2 Ref.query ∅
           ref_world1_points_to eq_refl eq_refl).
Defined.

(** Search for two rows in a buffer that holds one. *)
Lemma Search_width_unchecked_witness :
  points_to Ref.world1 Ref.handle1 Ref.ix2
  ∧ Search Ref.handle1 (with_width Ref.query 7) Ref.search_config Ref.world1
    = Search Ref.handle1 Ref.query Ref.search_config Ref.world1
  ∧ Search Ref.handle1 Ref.short_query Ref.search_config Ref.world1
    = (Undefined OutOfBounds,
       with_trace Ref.world1 [EvMalloc 32; EvMalloc 16]).
Proof.
  assert (Hk : Ref.search_config !! "k" = Some (JInt 2)) by reflexivity.
  assert (Hnp : nprobe_of Ref.search_config = Some 1) by reflexivity.
  split; [exact ref_world1_points_to|]. split.
  - exact (proj1 (Search_width_unchecked Ref.world1 Ref.handle1 Ref.ix2
                    Ref.query Ref.search_config
                    {| shape0 := 1; shape1 := 2; raw_data := [3; 4] |} 2 1) 7).
  - refine (proj2 (Search_width_unchecked Ref.world1 Ref.handle1 Ref.ix2
                     Ref.short_query Ref.search_config
                     {| shape0 := 2; shape1 := 2; raw_data := [3; 4] |} 2 1)
              ref_world1_points_to eq_refl Hk eq_refl Hnp _ _ _ _);
      vm_compute; repeat split; (discriminate || reflexivity).
Defined.

(** Add of one vector with its id. *)
Lemma Add_run_witness :
  index_ Ref.handle1 = Some 1%positive
  ∧ heap Ref.world1 !! 1%positive = Some Ref.ix2
  ∧ (Add Ref.handle1 Ref.rows1 ∅ Ref.world1).1 = Ok tt
  ∧ (Count Ref.handle1 (Add Ref.handle1 Ref.rows1 ∅ Ref.world1).2).1 = Ok 3.
Proof.
  destruct ref_handle1_trained_parts as (H1 & H2 & H3).
  split; [exact H1|]. split; [exact H2|].
  assert (E := proj2 (Add_run Ref.world1 Ref.handle1 1%positive Ref.ix2
                   Ref.rows1 ∅
                   {| shape0 := 1; shape1 := 2; raw_data := [1; 2] |} [10]
                   H1 H2 H3 eq_refl eq_refl
                   ltac:(vm_compute; split; discriminate)
                   ltac:(vm_compute; split; discriminate))
              (Ref.append Ref.ix2 [(10, [1; 2])]) eq_refl).
  rewrite E. split; reflexivity.
Defined.

(** AddWithoutIds of one vector. *)
Lemma AddWithoutIds_run_witness :
  index_ Ref.handle1 = Some 1%positive
  ∧ heap Ref.world1 !! 1%positive = Some Ref.ix2
  ∧ (AddWithoutIds Ref.handle1 Ref.rows1 ∅ Ref.world1).1 = Ok tt
  ∧ (Count Ref.handle1
       (AddWithoutIds Ref.handle1 Ref.rows1 ∅ Ref.world1).2).1 = Ok 3.
Proof.
  destruct ref_handle1_trained_parts as (H1 & H2 & H3).
  split; [exact H1|]. split; [exact H2|].
  assert (E := proj2 (proj2 (AddWithoutIds_run Ref.world1 Ref.handle1
                   1%positive Ref.ix2 Ref.rows1 ∅
                   {| shape0 := 1; shape1 := 2; raw_data := [1; 2] |}
                   H1 H2 H3 eq_refl
                   ltac:(vm_compute; split; discriminate)))
              (Ref.append Ref.ix2 [(2, [1; 2])]) eq_refl).
  rewrite E. split; reflexivity.
Defined.

(** Add of two vectors without ids. *)
Lemma Add_ids_unchecked_witness :
  index_ Ref.handle1 = Some 1%positive
  ∧ heap Ref.world1 !! 1%positive = Some Ref.ix2
  ∧ array Ref.no_ids = []
  ∧ Add Ref.handle1 Ref.no_ids ∅ Ref.world1
    = (Undefined OutOfBounds, Ref.world1).
Proof.
  destruct ref_handle1_trained_parts as (H1 & H2 & H3).
  split; [exact H1|]. split; [exact H2|]. split; [reflexivity|].
  exact (Add_ids_unchecked Ref.world1 Ref.handle1 1%positive Ref.ix2
           Ref.no_ids ∅
           {| shape0 := 2; shape1 := 2; raw_data := [1; 2; 3; 4] |}
           H1 H2 H3 eq_refl
           ltac:(vm_compute; split; discriminate) (or_introl eq_refl)).
Defined.

(** Train with an empty configuration. *)
Lemma Train_missing_key_witness :
  (∅ : Config) !! "nlist" = None
  ∧ Train Ref.rows2 ∅ Ref.world0 = (Throw (JsonException "nlist"), Ref.world0).
Proof.
  split; [reflexivity|].
  exact (proj1 (Train_missing_key Ref.world0 Ref.rows2 ∅) eq_refl).
Defined.

(** Train on two vectors with one cluster, beside an existing index. *)
Lemma Train_keeps_existing_witness :
  heap Ref.world1 !! 1%positive = Some Ref.ix2
  ∧ heap (Train Ref.rows2 Ref.train_config Ref.world1).2 !! 1%positive
    = Some Ref.ix2
  ∧ ∃ model σ' l',
      Train Ref.rows2 Ref.train_config Ref.world1 = (Ok model, σ')
      ∧ model_index_ model = Some l'
      ∧ heap Ref.world1 !! l' = None.
Proof.
  assert (H : heap Ref.world1 !! 1%positive = Some Ref.ix2) by reflexivity.
  destruct (Train_keeps_existing Ref.world1 Ref.rows2 Ref.train_config)
    as [Hk Hm].
  split; [exact H|]. split; [exact (Hk _ _ H)|].
  destruct (Train Ref.rows2 Ref.train_config Ref.world1) as [r σ'] eqn:E.
  assert (Hr : ∃ model, r = Ok model).
  { assert (E' := f_equal fst E). cbn in E'. rewrite <- E'.
    vm_compute. eexists. reflexivity. }
  destruct Hr as [model ->].
  destruct (Hm model σ' eq_refl) as (l' & H1 & H2 & _).
  exists model, σ', l'. split; [reflexivity|]. split; [exact H1|exact H2].
Defined.

(** An index state instantiated from the model on object 1. *)
Lemma set_index_model_independent_witness :
  model_index_ Ref.model1 = Some 1%positive
  ∧ heap Ref.world1 !! 1%positive = Some Ref.ix2
  ∧ ∃ h σ',
      set_index_model Ref.null_handle Ref.model1 Ref.world1 = (Ok h, σ')
      ∧ points_to σ' h Ref.ix2
      ∧ index_ h ≠ Some 1%positive.
Proof.
  split; [reflexivity|]. split; [reflexivity|].
  destruct (set_index_model_independent Ref.world1 Ref.null_handle Ref.model1
              1%positive Ref.ix2 eq_refl eq_refl)
    as (h & σ' & H1 & H2 & H3 & _).
  exists h, σ'. split; [exact H1|]. split; [exact H2|exact H3].
Defined.

(** Serialize of a model on an index that is not trained, and of a model
    on a trained one. *)
Lemma Model_Serialize_run_witness :
  untrained Ref.world2 {| index_ := model_index_ Ref.model2 |}
  ∧ Model_Serialize Ref.model2 Ref.world2 = (Throw ModelNotTrained, Ref.world2)
  ∧ trace (Model_Serialize Ref.model1 Ref.world2).2 = [EvSerializeImpl]
  ∧ (Model_Serialize Ref.model1 Ref.world2).1
    = (Serialize Ref.handle1 Ref.world2).1.
Proof.
  assert (Hu : untrained Ref.world2 {| index_ := model_index_ Ref.model2 |}).
  { right. exists Ref.ix_raw. split; [|reflexivity].
    exists 2%positive. split; reflexivity. }
  split; [exact Hu|].
  split; [exact (proj1 (Model_Serialize_run Ref.world2 Ref.model2) Hu)|].
  destruct (proj2 (Model_Serialize_run Ref.world2 Ref.model1) 1%positive
              Ref.ix2 eq_refl eq_refl eq_refl) as [H1 H2].
  split; [rewrite H1; reflexivity|exact H2].
Defined.

(** CopyCpuToGpu to device 0, for which the pool holds a resource. *)
Lemma CopyCpuToGpu_copies_witness :
  heap Ref.world_gpu !! 1%positive = Some Ref.ix2
  ∧ heap (CopyCpuToGpu Ref.handle1 0 ∅ Ref.world_gpu).2 !! 1%positive
    = Some Ref.ix2
  ∧ ∃ g σ', CopyCpuToGpu Ref.handle1 0 ∅ Ref.world_gpu = (Ok g, σ')
      ∧ gpu_id_ g = 0
      ∧ gpu_index_ g ≠ Some 1%positive.
Proof.
  assert (H : heap Ref.world_gpu !! 1%positive = Some Ref.ix2) by reflexivity.
  destruct (CopyCpuToGpu_copies Ref.world_gpu Ref.handle1 0 ∅) as [Hk Hm].
  split; [exact H|]. split; [exact (Hk _ _ H)|].
  destruct (CopyCpuToGpu Ref.handle1 0 ∅ Ref.world_gpu) as [r σ'] eqn:E.
  assert (Hr : ∃ g, r = Ok g).
  { assert (E' := f_equal fst E). cbn in E'. rewrite <- E'.
    vm_compute. eexists. reflexivity. }
  destruct Hr as [g ->].
  destruct (Hm g σ' eq_refl) as (H1 & _ & l' & H2 & H3 & _).
  exists g, σ'. split; [reflexivity|]. split; [exact H1|].
  rewrite H2. intros [= ->]. vm_compute in H3. discriminate H3.
Defined.

(** GenGraph on an index that holds nothing, with a graph of one node. *)
Lemma GenGraph_empty_index_witness :
  points_to Ref.world_empty_index Ref.handle1 Ref.ix0
  ∧ idx_ntotal Ref.ix0 = 0
  ∧ 3 * batch_size ≤ max_size sizeof_float
  ∧ GenGraph Ref.handle1 3 [[7]] Ref.rows2 ∅ Ref.world_empty_index
    = (Ok [], Ref.world_empty_index).
Proof.
  assert (Hp : points_to Ref.world_empty_index Ref.handle1 Ref.ix0).
  { exists 1%positive. split; reflexivity. }
  assert (Hmax : 3 * batch_size ≤ max_size sizeof_float)
    by (vm_compute; discriminate).
  split; [exact Hp|]. split; [reflexivity|]. split; [exact Hmax|].
  exact (GenGraph_empty_index Ref.world_empty_index Ref.handle1 Ref.ix0 3
           [[7]] Ref.rows2 ∅ _ Hp eq_refl eq_refl
           ltac:(vm_compute; discriminate) Hmax).
Defined.

(** GenGraph and Search on a default-constructed handle. *)
Lemma GenGraph_unguarded_witness :
  index_ Ref.null_handle = None
  ∧ GenGraph Ref.null_handle 1 [] Ref.rows2 ∅ Ref.world0
    = (Undefined NullDereference, Ref.world0)
  ∧ Search Ref.null_handle Ref.rows2 ∅ Ref.world0
    = (Throw NotTrained, Ref.world0).
Proof.
  split; [reflexivity|].
  exact (GenGraph_unguarded Ref.world0 Ref.null_handle 1 [] Ref.rows2 ∅ _
           eq_refl eq_refl).
Defined.

(** GenGraph with k = -1. *)
Lemma GenGraph_refuses_negative_k_witness :
  points_to Ref.world1 Ref.handle1 Ref.ix2
  ∧ -1 < 0
  ∧ INT64_MIN ≤ -1 * batch_size
  ∧ GenGraph Ref.handle1 (-1) [] Ref.rows2 ∅ Ref.world1
    = (Throw StdLengthError, Ref.world1).
Proof.
  assert (Hmin : INT64_MIN ≤ -1 * batch_size) by (vm_compute; discriminate).
  split; [exact ref_world1_points_to|]. split; [reflexivity|].
  split; [exact Hmin|].
  exact (proj1 (GenGraph_refuses_negative_k Ref.world1 Ref.handle1 Ref.ix2
                  (-1) [] Ref.rows2 ∅ _ ref_world1_points_to eq_refl
                  eq_refl Hmin)).
Defined.

Lemma ref_world101_points_to : points_to Ref.world101 Ref.handle1 Ref.ix101.
Proof. exists 1%positive. split; reflexivity. Qed.

(** GenGraph with k = 1 on the index of the 101 vectors (0) to (100) and
    the dataset of these vectors: entry 99 is the answer for vector 99,
    the last of the first batch, and entry 100 the answer for vector 25,
    the float at byte 100 of the buffer; whatever graph is passed in. *)
Lemma GenGraph_rows_witness :
  points_to Ref.world101 Ref.handle1 Ref.ix101
  ∧ search_contract Ref.ix101 1 1
  ∧ ∃ g, (GenGraph Ref.handle1 1 [] Ref.rows101 ∅ Ref.world101).1 = Ok g
      ∧ g !! 99%nat = Some [99]
      ∧ g !! 100%nat = Some [25]
      ∧ (GenGraph Ref.handle1 1 [[7; 7]; []; [8]] Ref.rows101 ∅
           Ref.world101).1
        = Ok g.
Proof.
  assert (Hk : 0 ≤ 1 ∧ 1 * batch_size ≤ INT_MAX)
    by (vm_compute; split; discriminate).
  assert (Hn : 0 ≤ idx_ntotal Ref.ix101 ≤ INT_MAX)
    by (vm_compute; split; discriminate).
  assert (Hnp : nprobe_of ∅ = Some 1) by reflexivity.
  split; [exact ref_world101_points_to|].
  split; [apply ref_search_contract|].
  destruct (GenGraph_rows Ref.world101 Ref.handle1 Ref.ix101 1 [] Ref.rows101
              {| shape0 := 101; shape1 := 1; raw_data := seqZ 0 101 |} ∅ 1
              ref_world101_points_to eq_refl eq_refl
              ltac:(vm_compute; discriminate)
              ltac:(vm_compute; reflexivity)
              ltac:(vm_compute; discriminate) Hnp Hk Hn
              (ref_search_contract _ _ _))
    as (g & Hg & _ & Hrows & Hany).
  exists g. split; [exact Hg|].
  assert (H99 := Hrows 99 ltac:(vm_compute; split; [discriminate|reflexivity])).
  assert (H100 := Hrows 100 ltac:(vm_compute; split; [discriminate|reflexivity])).
  cbv zeta in H99, H100.
  destruct H99 as (D & L & HsE & H99). vm_compute in HsE.
  injection HsE as <- <-.
  destruct H100 as (D' & L' & HsE' & H100). vm_compute in HsE'.
  injection HsE' as <- <-.
  split; [exact H99|]. split; [exact H100|].
  exact (Hany [[7; 7]; []; [8]]).
Defined.

(** The batch sizes of the same run add up to two. *)
Lemma GenGraph_batches_total_witness :
  points_to Ref.world1 Ref.handle1 Ref.ix2
  ∧ search_contract Ref.ix2 1 1
  ∧ total_size (batch_sizes
                  (trace (GenGraph Ref.handle1 1 [] Ref.rows3 ∅ Ref.world1).2))
    = 2.
Proof.
  assert (Hk : 0 ≤ 1 ∧ 1 * batch_size ≤ INT_MAX)
    by (vm_compute; split; discriminate).
  assert (Hn : 0 ≤ idx_ntotal Ref.ix2 ≤ INT_MAX)
    by (vm_compute; split; discriminate).
  assert (Hnp : nprobe_of ∅ = Some 1) by reflexivity.
  split; [exact ref_world1_points_to|].
  split; [apply ref_search_contract|].
  exact (proj1 (GenGraph_batches_total Ref.world1 Ref.handle1 Ref.ix2 1 []
                  Ref.rows3 {| shape0 := 3; shape1 := 2;
                               raw_data := [1; 2; 3; 4; 5; 6] |} ∅ 1
                  ref_world1_points_to eq_refl eq_refl
                  ltac:(vm_compute; discriminate) eq_refl
                  ltac:(vm_compute; discriminate) Hnp Hk Hn
                  (ref_search_contract _ _ _))).
Defined.

End Further_reference.
